(** * Visualize-GeoJSON-with-Three-js: coordinate transform, imagery alignment
      and scene set-up

    A shallow embedding of
      - [src/utils/coordinateTransform.ts]
      - [src/utils/loadAerialImagery.ts], in its two revisions
      - the render, the two effects and the load counter of [ThreeScene]
      - the venue descriptor [NagoyaUnimall]
    followed by the properties established about them.

    ECMAScript numbers are binary64 numbers.  They are modelled by [JS.num]:
    the real numbers extended with [+Infinity], [-Infinity] and [NaN], the
    two zeros identified (a zero divisor is read as [+0]: the divisors of
    the code are constants, results of [Math.abs] and results of
    [Math.cos]).  The special
    values follow the IEEE-754 rules that ECMAScript prescribes.  Finite
    results are read in three ways:
      - [JS] computes them exactly.  This reading serves the properties
        that do not depend on the finite numbers computed: control flow,
        the scene, the counter, the special values.
      - [Rounded] rounds every finite result, by a rounding of which only
        what IEEE-754 rounding to nearest guarantees is assumed, and leaves
        the functions of [Math] to the engine.  The numeric properties of
        coordinateTransform.ts and of the tile indices are proved in this
        reading, for every such arithmetic.  [Binary64.round], rounding to
        the nearest binary64 number with ties to even, is shown to be such
        a rounding; [JS] is the arithmetic among them that does not round.
      - [Hardware] evaluates on the binary64 numbers of the processor, at
        given inputs. *)

From Stdlib Require Import PrimFloat.
From Stdlib Require Import Reals Lra Lia ZArith List String Bool.
From Stdlib Require Import Permutation.
Import ListNotations.

Local Open Scope R_scope.

(* A decimal literal of [float] is the binary64 number nearest to it, as
   in ECMAScript. *)
Set Warnings "-inexact-float".

(* ===================================================================== *)
(** * Part I: the embedding *)
(* ===================================================================== *)

(** ** ECMAScript numbers *)

Module JS.

Inductive num : Type :=
| NaN
| PInf
| NInf
| Fin (r : R).

Definition isNaN (a : num) : bool :=
  match a with NaN => true | _ => false end.

Definition isFinite (a : num) : bool :=
  match a with Fin _ => true | _ => false end.

(** [a + b] *)
Definition add (a b : num) : num :=
  match a, b with
  | NaN, _ => NaN
  | _, NaN => NaN
  | PInf, NInf => NaN
  | NInf, PInf => NaN
  | PInf, _ => PInf
  | NInf, _ => NInf
  | Fin _, PInf => PInf
  | Fin _, NInf => NInf
  | Fin x, Fin y => Fin (x + y)
  end.

(** [a - b] *)
Definition sub (a b : num) : num :=
  match a, b with
  | NaN, _ => NaN
  | _, NaN => NaN
  | PInf, PInf => NaN
  | NInf, NInf => NaN
  | PInf, _ => PInf
  | NInf, _ => NInf
  | Fin _, PInf => NInf
  | Fin _, NInf => PInf
  | Fin x, Fin y => Fin (x - y)
  end.

(** The infinity with the sign of a finite factor; [NaN] at zero. *)
Definition signedInf (positive : bool) (y : R) : num :=
  if Rlt_dec 0 y then (if positive then PInf else NInf)
  else if Rlt_dec y 0 then (if positive then NInf else PInf)
  else NaN.

(** [a * b] *)
Definition mul (a b : num) : num :=
  match a, b with
  | NaN, _ => NaN
  | _, NaN => NaN
  | PInf, PInf => PInf
  | PInf, NInf => NInf
  | NInf, PInf => NInf
  | NInf, NInf => PInf
  | PInf, Fin y => signedInf true y
  | NInf, Fin y => signedInf false y
  | Fin x, PInf => signedInf true x
  | Fin x, NInf => signedInf false x
  | Fin x, Fin y => Fin (x * y)
  end.

(** [a / b]; a zero divisor is [+0]. *)
Definition div (a b : num) : num :=
  match a, b with
  | NaN, _ => NaN
  | _, NaN => NaN
  | PInf, Fin y => if Rlt_dec y 0 then NInf else PInf
  | NInf, Fin y => if Rlt_dec y 0 then PInf else NInf
  | PInf, _ => NaN
  | NInf, _ => NaN
  | Fin _, PInf => Fin 0
  | Fin _, NInf => Fin 0
  | Fin x, Fin y =>
      if Req_dec_T y 0 then signedInf true x else Fin (x / y)
  end.

(** [Math.abs] *)
Definition abs (a : num) : num :=
  match a with
  | NaN => NaN
  | PInf => PInf
  | NInf => PInf
  | Fin x => Fin (Rabs x)
  end.

(** [Math.min] *)
Definition min (a b : num) : num :=
  match a, b with
  | NaN, _ => NaN
  | _, NaN => NaN
  | NInf, _ => NInf
  | _, NInf => NInf
  | PInf, y => y
  | x, PInf => x
  | Fin x, Fin y => Fin (Rmin x y)
  end.

(** [Math.max] *)
Definition max (a b : num) : num :=
  match a, b with
  | NaN, _ => NaN
  | _, NaN => NaN
  | PInf, _ => PInf
  | _, PInf => PInf
  | NInf, y => y
  | x, NInf => x
  | Fin x, Fin y => Fin (Rmax x y)
  end.

(** [Math.floor] *)
Definition floor (a : num) : num :=
  match a with
  | Fin x => Fin (IZR (Zfloor x))
  | other => other
  end.

(** [Math.log] *)
Definition log (a : num) : num :=
  match a with
  | NaN => NaN
  | PInf => PInf
  | NInf => NaN
  | Fin x =>
      if Rlt_dec 0 x then Fin (ln x)
      else if Rlt_dec x 0 then NaN
      else NInf
  end.

(** [Math.log2] *)
Definition log2 (a : num) : num :=
  match a with
  | NaN => NaN
  | PInf => PInf
  | NInf => NaN
  | Fin x =>
      if Rlt_dec 0 x then Fin (ln x / ln 2)
      else if Rlt_dec x 0 then NaN
      else NInf
  end.

(** [Math.pow(2, a)] *)
Definition pow2 (a : num) : num :=
  match a with
  | NaN => NaN
  | PInf => PInf
  | NInf => Fin 0
  | Fin x => Fin (Rpower 2 x)
  end.

(** [Math.tan] *)
Definition tan (a : num) : num :=
  match a with
  | Fin x => Fin (Rtrigo1.tan x)
  | _ => NaN
  end.

(** [Math.cos] *)
Definition cos (a : num) : num :=
  match a with
  | Fin x => Fin (Rtrigo_def.cos x)
  | _ => NaN
  end.

(** [Math.PI] *)
Definition PI : num := Fin Rtrigo1.PI.

(** [a > b] *)
Definition gtb (a b : num) : bool :=
  match a, b with
  | NaN, _ => false
  | _, NaN => false
  | PInf, PInf => false
  | PInf, _ => true
  | NInf, _ => false
  | Fin _, PInf => false
  | Fin _, NInf => true
  | Fin x, Fin y => if Rlt_dec y x then true else false
  end.

(** [a === b] *)
Definition eqb (a b : num) : bool :=
  match a, b with
  | PInf, PInf => true
  | NInf, NInf => true
  | Fin x, Fin y => if Req_dec_T x y then true else false
  | _, _ => false
  end.

(** [a <= b], as a proposition. *)
Definition leq (a b : num) : Prop :=
  match a, b with
  | NaN, _ => False
  | _, NaN => False
  | NInf, _ => True
  | _, PInf => True
  | PInf, _ => False
  | Fin _, NInf => False
  | Fin x, Fin y => x <= y
  end.

(** The number is the integer [k]. *)
Definition isInteger (a : num) (k : Z) : Prop := a = Fin (IZR k).

End JS.

Import JS.

(** ** src/utils/coordinateTransform.ts *)

Module CoordinateTransform.

Record LatLon : Type := mkLatLon { lat : num; lon : num }.

Record LatLonBounds : Type := mkLatLonBounds {
  southwest : LatLon;
  northeast : LatLon;
  center : LatLon
}.

Definition meterPerDegreeLat : num := Fin 111320.
Definition meterPerDegreeLon : num := Fin 91290.

Definition transformToLatLon (x y centerLat centerLon : num) : LatLon :=
  let deltaLat := div y meterPerDegreeLat in
  let deltaLon := div x meterPerDegreeLon in
  {| lat := add centerLat deltaLat;
     lon := add centerLon deltaLon |}.

Definition calculateLatLonBounds
    (minX maxX minY maxY centerLat centerLon : num) : LatLonBounds :=
  let sw := transformToLatLon minX minY centerLat centerLon in
  let ne := transformToLatLon maxX maxY centerLat centerLon in
  {| southwest := sw;
     northeast := ne;
     center := {| lat := div (add (lat sw) (lat ne)) (Fin 2);
                  lon := div (add (lon sw) (lon ne)) (Fin 2) |} |}.

(** A parameter with a default value: [None] is an omitted argument. *)
Definition orDefault (d : num) (a : option num) : num :=
  match a with Some v => v | None => d end.

Definition latDiff (bounds : LatLonBounds) : num :=
  abs (sub (lat (northeast bounds)) (lat (southwest bounds))).

Definition lonDiff (bounds : LatLonBounds) : num :=
  abs (sub (lon (northeast bounds)) (lon (southwest bounds))).

Definition calculateZoomLevel
    (bounds : LatLonBounds) (width height : option num) : num :=
  let width := orDefault (Fin 640) width in
  let height := orDefault (Fin 640) height in
  let latZoom :=
    sub (log2 (div (Fin 360) (latDiff bounds))) (log2 (div height (Fin 256))) in
  let lonZoom :=
    sub (log2 (div (Fin 360) (lonDiff bounds))) (log2 (div width (Fin 256))) in
  let zoom := floor (min latZoom lonZoom) in
  max (Fin 1) (min (Fin 20) zoom).

(** The zoom candidate of one axis in the words of the specification:
    [log2(360/delta) - log2(pixels/256)]. *)
Definition zoomCandidate (delta pixels : num) : num :=
  sub (log2 (div (Fin 360) delta)) (log2 (div pixels (Fin 256))).

End CoordinateTransform.

Import CoordinateTransform.

(** ** The part of three.js, lil-gui and the browser that the code touches *)

Module Three.

Local Open Scope string_scope.

Inductive DrawOp : Type :=
| FillRadialGradient (stops : list (num * string))
| FillRect (style : string) (x y w h : num).

Record Canvas : Type := mkCanvas {
  canvasWidth : num;
  canvasHeight : num;
  drawn : list DrawOp
}.

Inductive Texture : Type :=
| ImageTexture (url : string)
| CanvasTexture (canvas : Canvas).

Record Material : Type := mkMaterial {
  map : Texture;
  transparent : bool;
  opacity : num
}.

(** A mesh over a [PlaneGeometry]: its size, its material, the argument of
    [position.set] and the angle of the rotation about X that
    [applyMatrix4] applies to it afterwards. *)
Record Mesh : Type := mkMesh {
  planeWidth : num;
  planeHeight : num;
  material : Material;
  position : num * num * num;
  rotationX : num
}.

Record Group : Type := mkGroup {
  name : string;
  visible : bool;
  children : list Mesh
}.

Definition Scene : Type := list Group.

(** [scene.getObjectByName(n)]: the first object of that name. *)
Fixpoint getObjectByName (scene : Scene) (n : string) : option Group :=
  match scene with
  | [] => None
  | g :: rest =>
      if String.eqb (name g) n then Some g else getObjectByName rest n
  end.

(** [scene.getObjectByName(n).add(mesh)] on the object found. *)
Fixpoint addToNamed (scene : Scene) (n : string) (mesh : Mesh) : Scene :=
  match scene with
  | [] => []
  | g :: rest =>
      if String.eqb (name g) n
      then {| name := name g; visible := visible g;
              children := (children g ++ [mesh])%list |} :: rest
      else g :: addToNamed rest n mesh
  end.

(** A lil-gui checkbox: the property it edits, its label, and the scene
    object whose [visible] flag its change handler sets. *)
Record Controller : Type := mkController {
  property : string;
  label : string;
  target : string
}.

Definition GUI : Type := list Controller.

Inductive LogEntry : Type :=
| Log (msg : string)
| Error (msg : string).

(** Everything the loaders mutate: the scene graph, the GUI, the React
    state cell behind [setLoadFileRemaining], and the console. *)
Record World : Type := mkWorld {
  scene : Scene;
  gui : GUI;
  loadFileRemaining : Z;
  console : list LogEntry
}.

Definition logTo (e : LogEntry) (w : World) : World :=
  {| scene := scene w; gui := gui w;
     loadFileRemaining := loadFileRemaining w;
     console := (console w ++ [e])%list |}.

(** [setLoadFileRemaining(updater)] *)
Definition setLoadFileRemaining (updater : Z -> Z) (w : World) : World :=
  {| scene := scene w; gui := gui w;
     loadFileRemaining := updater (loadFileRemaining w);
     console := console w |}.

(** [process.env] *)
Record Env : Type := mkEnv {
  NEXT_PUBLIC_GOOGLE_MAPS_API_KEY : option string;
  GOOGLE_MAPS_API_KEY : option string
}.

(** What the browser supplies: whether a 2d context is available, the
    successive results of [Math.random()], and the environment. *)
Record Browser : Type := mkBrowser {
  context2d : bool;
  random : nat -> num;
  env : Env
}.

(** Truthiness of a possibly undefined string. *)
Definition truthy (s : option string) : bool :=
  match s with
  | Some v => negb (String.eqb v "")
  | None => false
  end.

(** [a || b] *)
Definition orElse (a b : option string) : option string :=
  if truthy a then a else b.

End Three.

Import Three.

(** ** src/utils/loadAerialImagery.ts *)

Module AerialImagery.

Local Open Scope string_scope.

(** A polygon feature: [geometry.coordinates] is a list of rings, a ring a
    list of positions, a position an array of numbers. *)
Record Feature : Type := mkFeature {
  coordinates : list (list (list num))
}.

Definition FeatureCollection : Type := list Feature.

Record PlanarBounds : Type := mkPlanarBounds {
  minX : num;
  maxX : num;
  minY : num;
  maxY : num
}.

(** [let minX = Infinity, maxX = -Infinity; let minY = Infinity, maxY = -Infinity] *)
Definition initialBounds : PlanarBounds :=
  {| minX := PInf; maxX := NInf; minY := PInf; maxY := NInf |}.

(** [point[i]] in an arithmetic position: a missing entry is [undefined],
    which arithmetic turns into [NaN]. *)
Definition at_ (point : list num) (i : nat) : num := nth i point NaN.

(** The re-centred position that the scan looks at. *)
Definition recentre (center : num * num) (point : list num) : num * num :=
  (sub (at_ point 0) (fst center), sub (at_ point 1) (snd center)).

(** The body of the inner [forEach]. *)
Definition scanPoint (center : num * num) (b : PlanarBounds)
    (point : list num) : PlanarBounds :=
  let x := sub (at_ point 0) (fst center) in
  let y := sub (at_ point 1) (snd center) in
  {| minX := min (minX b) x;
     maxX := max (maxX b) x;
     minY := min (minY b) y;
     maxY := max (maxY b) y |}.

(** The body of the outer [forEach]; [None] is the [TypeError] raised by
    [coordinates[0].forEach] when the polygon has no ring. *)
Definition scanFeature (center : num * num) (b : PlanarBounds)
    (feature : Feature) : option PlanarBounds :=
  match coordinates feature with
  | [] => None
  | ring :: _ => Some (fold_left (scanPoint center) ring b)
  end.

Fixpoint scanFeatures (center : num * num) (features : FeatureCollection)
    (b : PlanarBounds) : option PlanarBounds :=
  match features with
  | [] => Some b
  | feature :: rest =>
      match scanFeature center b feature with
      | None => None
      | Some b' => scanFeatures center rest b'
      end
  end.

(** The positions the scan visits, in order. *)
Definition scannedPoints (features : FeatureCollection) : list (list num) :=
  flat_map (fun feature => hd [] (coordinates feature)) features.

(** The bounds in the words of the specification: accumulated over all
    coordinate pairs of the collection, every ring of every polygon. *)
Definition allPairs (features : FeatureCollection) : list (list num) :=
  flat_map (fun feature => List.concat (coordinates feature)) features.

Definition boundsOfAllPairs (center : num * num)
    (features : FeatureCollection) : PlanarBounds :=
  fold_left (scanPoint center) (allPairs features) initialBounds.

(** [b'] is at least as wide as [b] on every side. *)
Definition widens (b b' : PlanarBounds) : Prop :=
  leq (minX b') (minX b) /\ leq (maxX b) (maxX b')
  /\ leq (minY b') (minY b) /\ leq (maxY b) (maxY b').

(** The point [(x, y)] lies within [b]. *)
Definition within (b : PlanarBounds) (xy : num * num) : Prop :=
  leq (minX b) (fst xy) /\ leq (fst xy) (maxX b)
  /\ leq (minY b) (snd xy) /\ leq (snd xy) (maxY b).

(** Neither re-centred coordinate of the position is [NaN]. *)
Definition isPoint (center : num * num) (point : list num) : Prop :=
  fst (recentre center point) <> NaN /\ snd (recentre center point) <> NaN.

(** Every polygon has its exterior ring. *)
Definition hasRing (feature : Feature) : Prop := coordinates feature <> [].

(** No side of the bounds is [NaN]. *)
Definition noNaN (b : PlanarBounds) : Prop :=
  minX b <> NaN /\ maxX b <> NaN /\ minY b <> NaN /\ maxY b <> NaN.

(** Sample terrain data: a polygon whose second ring leaves the first. *)
Definition twoRings : FeatureCollection :=
  [ {| coordinates :=
         [ [ [Fin 0; Fin 0]; [Fin 4; Fin 0]; [Fin 0; Fin 4]; [Fin 0; Fin 0] ];
           [ [Fin 5; Fin 5]; [Fin 6; Fin 5]; [Fin 5; Fin 6]; [Fin 5; Fin 5] ] ]
    |} ].

(** The block shared by [createRealAerialImageryTexture] and
    [createFallbackTexture]: add the plane to the group named "terrain",
    creating the group and its checkbox when the scene has none. *)
Definition addToTerrain (planeMesh : Mesh) (w : World) : World :=
  match getObjectByName (scene w) "terrain" with
  | Some _ =>
      {| scene := addToNamed (scene w) "terrain" planeMesh;
         gui := gui w;
         loadFileRemaining := loadFileRemaining w;
         console := console w |}
  | None =>
      {| scene := (scene w ++
                   [{| name := "terrain"; visible := true;
                       children := [planeMesh] |}])%list;
         gui := (gui w ++
                 [{| property := "aerialImagery"; label := "航空写真";
                     target := "terrain" |}])%list;
         loadFileRemaining := loadFileRemaining w;
         console := console w |}
  end.

(** The plane both paths build: sized to the bounds, centred on their
    midpoint half a unit below the ground, then laid flat. *)
Definition planeFor (b : PlanarBounds) (texture : Texture) (opacity : num)
    : Mesh :=
  {| planeWidth := sub (maxX b) (minX b);
     planeHeight := sub (maxY b) (minY b);
     material := {| map := texture; transparent := true;
                    opacity := opacity |};
     position := (div (add (minX b) (maxX b)) (Fin 2),
                  div (add (minY b) (maxY b)) (Fin 2),
                  Fin (-0.5));
     rotationX := div (sub (Fin 0) PI) (Fin 2) |}.

Section WithNumberToString.

(** Number-to-string conversion of template literals. *)
Variable numberToString : num -> string.

Definition tileX (centerLon zoom : num) : num :=
  floor (mul (div (add centerLon (Fin 180)) (Fin 360)) (pow2 zoom)).

Definition tileY (centerLat zoom : num) : num :=
  let phi := div (mul centerLat PI) (Fin 180) in
  floor
    (mul (div (sub (Fin 1)
                   (div (log (add (tan phi) (div (Fin 1) (cos phi)))) PI))
              (Fin 2))
         (pow2 zoom)).

Definition googleUrl (c : LatLon) (zoom width height : num) (key : string)
    : string :=
  "https://maps.googleapis.com/maps/api/staticmap?" ++
  "center=" ++ numberToString (lat c) ++ "," ++ numberToString (lon c) ++ "&" ++
  "zoom=" ++ numberToString zoom ++ "&" ++
  "size=" ++ numberToString width ++ "x" ++ numberToString height ++ "&" ++
  "maptype=satellite&" ++
  "key=" ++ key.

Definition esriUrl (zoom ty tx : num) : string :=
  "https://server.arcgisonline.com/ArcGIS/rest/services/World_Imagery/MapServer/tile/"
  ++ numberToString zoom ++ "/" ++ numberToString ty ++ "/" ++ numberToString tx.

(** The credential that [getAerialImageUrl] reads. *)
Definition googleMapsApiKey (e : Env) : option string :=
  orElse (NEXT_PUBLIC_GOOGLE_MAPS_API_KEY e) (GOOGLE_MAPS_API_KEY e).

(** [getAerialImageUrl]: the URL its promise resolves to, and what it logs. *)
Definition getAerialImageUrl (e : Env) (bounds : LatLonBounds)
    (zoom width height : num) : string * LogEntry :=
  let c := center bounds in
  let key := googleMapsApiKey e in
  if truthy key then
    (googleUrl c zoom width height
       (match key with Some k => k | None => "" end),
     Log "Google Maps Static APIを使用")
  else
    (esriUrl zoom (tileY (lat c) zoom) (tileX (lon c) zoom),
     Log "OpenStreetMap衛星画像を使用（フォールバック）").

(** The 20 road rectangles and the 15 building squares, drawn from the
    successive results of [Math.random()]. *)
Definition roadRect (rnd : nat -> num) (i : nat) : DrawOp :=
  FillRect "#708090"
    (mul (rnd (4 * i)%nat) (Fin 512))
    (mul (rnd (4 * i + 1)%nat) (Fin 512))
    (add (mul (rnd (4 * i + 2)%nat) (Fin 50)) (Fin 10))
    (add (mul (rnd (4 * i + 3)%nat) (Fin 200)) (Fin 20)).

Definition buildingRect (rnd : nat -> num) (i : nat) : DrawOp :=
  let size := add (mul (rnd (80 + 3 * i + 2)%nat) (Fin 30)) (Fin 10) in
  FillRect "#B8860B"
    (mul (rnd (80 + 3 * i)%nat) (Fin 512))
    (mul (rnd (80 + 3 * i + 1)%nat) (Fin 512))
    size size.

Definition baseColor (lat lon : num) : string :=
  if gtb lat (Fin 35.6) && gtb lon (Fin 139.6) then "#A0A0A0"
  else if gtb lat (Fin 35.1) && gtb lon (Fin 136.8) then "#8FBC8F"
  else "#6B8E23".

Definition fallbackCanvas (br : Browser) (lat lon : num) : Canvas :=
  {| canvasWidth := Fin 512;
     canvasHeight := Fin 512;
     drawn :=
       if context2d br then
         FillRadialGradient
           [(Fin 0, baseColor lat lon); (Fin 0.3, "#8FBC8F");
            (Fin 0.6, "#D2B48C"); (Fin 1, "#A0A0A0")]
         :: (List.map (roadRect (random br)) (seq 0 20)
             ++ List.map (buildingRect (random br)) (seq 0 15))%list
       else [] |}.

Definition createFallbackTexture (br : Browser) (lat lon : num)
    (b : PlanarBounds) (w : World) : World :=
  let texture := CanvasTexture (fallbackCanvas br lat lon) in
  let planeMesh := planeFor b texture (Fin 0.7) in
  logTo (Log "フォールバック用の地表テクスチャを作成しました")
        (addToTerrain planeMesh w).

(** What [createRealAerialImageryTexture] holds while it is suspended. *)
Record Pending : Type := mkPending {
  p_lat : num;
  p_lon : num;
  p_bounds : PlanarBounds;
  p_imageUrl : string
}.

(** How the request issued by [textureLoader.load] settles. *)
Inductive TextureOutcome : Type :=
| TextureLoaded
| TextureRejected.

(** How the promise of an [async] function settles. *)
Inductive Settled : Type :=
| Fulfilled
| Rejected.

(** [createRealAerialImageryTexture] up to its first [await]: runs inside
    the caller. *)
Definition createRealAerialImageryTexture_start (br : Browser)
    (lat lon : num) (b : PlanarBounds) (w : World) : World * Pending :=
  let bounds :=
    calculateLatLonBounds (minX b) (maxX b) (minY b) (maxY b) lat lon in
  let w := logTo (Log "航空写真の境界:") w in
  let zoom := calculateZoomLevel bounds (Some (Fin 640)) (Some (Fin 640)) in
  let w := logTo (Log "ズームレベル:") w in
  let (imageUrl, used) :=
    getAerialImageUrl (env br) bounds zoom (Fin 640) (Fin 640) in
  (logTo used w,
   {| p_lat := lat; p_lon := lon; p_bounds := b; p_imageUrl := imageUrl |}).

(** From the first [await] to the second: a later turn of the event loop. *)
Definition createRealAerialImageryTexture_request (p : Pending) (w : World)
    : World :=
  logTo (Log "航空写真URL:") w.

(** From the second [await] to the end, once the texture request settled. *)
Definition createRealAerialImageryTexture_settle (br : Browser) (p : Pending)
    (outcome : TextureOutcome) (w : World) : World * Settled :=
  match outcome with
  | TextureLoaded =>
      let planeMesh :=
        planeFor (p_bounds p) (ImageTexture (p_imageUrl p)) (Fin 0.8) in
      (logTo (Log "実際の航空写真を表示しました") (addToTerrain planeMesh w),
       Fulfilled)
  | TextureRejected =>
      let w := logTo (Error "航空写真の読み込みに失敗しました:") w in
      (createFallbackTexture br (p_lat p) (p_lon p) (p_bounds p) w,
       Fulfilled)
  end.

(** The [.catch] that [loadAerialImagery] attaches to the promise. *)
Definition catchHandler (s : Settled) (w : World) : World :=
  match s with
  | Fulfilled => w
  | Rejected => logTo (Error "航空写真の作成中にエラーが発生:") w
  end.

(** What the callback given to [loader.load] does with the terrain data. *)
Inductive CallbackResult : Type :=
| Threw (w : World)
| Started (w : World) (p : Pending).

Definition onTerrainLoaded (br : Browser) (center : num * num)
    (lat lon : num) (fgData : FeatureCollection) (w : World)
    : CallbackResult :=
  match scanFeatures center fgData initialBounds with
  | None => Threw w
  | Some b =>
      let (w1, p) := createRealAerialImageryTexture_start br lat lon b w in
      Started (setLoadFileRemaining (fun prev => (prev - 1)%Z) w1) p
  end.

(** How the request issued by [loader.load] settles; no error callback is
    passed, so a failed request runs nothing. *)
Inductive FileOutcome : Type :=
| FileLoaded (data : FeatureCollection)
| FileFailed.

(** [loadAerialImagery], run until everything it started has settled. *)
Definition loadAerialImagery (br : Browser) (center : num * num)
    (lat lon : num) (file : FileOutcome) (texture : TextureOutcome)
    (w : World) : World :=
  match file with
  | FileFailed => w
  | FileLoaded fgData =>
      match onTerrainLoaded br center lat lon fgData w with
      | Threw w' => w'
      | Started w1 p =>
          let w2 := createRealAerialImageryTexture_request p w1 in
          let (w3, s) := createRealAerialImageryTexture_settle br p texture w2 in
          catchHandler s w3
      end
  end.

End WithNumberToString.

(** Slippy-map tile indexing in the words of the specification:
    [tileX = floor((lon + 180) / 360 * 2^zoom)], and [tileY] by the
    Mercator latitude formula
    [floor((1 - ln(tan(phi) + 1 / cos(phi)) / pi) / 2 * 2^zoom)] with
    [phi] the latitude in radians. *)
Definition slippyTileX (lon zoom : R) : Z :=
  Zfloor ((lon + 180) / 360 * Rpower 2 zoom).

Definition slippyTileY (lat zoom : R) : Z :=
  let phi := lat * Rtrigo1.PI / 180 in
  Zfloor ((1 - ln (Rtrigo1.tan phi + 1 / Rtrigo_def.cos phi) / Rtrigo1.PI) / 2
          * Rpower 2 zoom).

(** The plane a settled texture request leaves in the scene. *)
Definition planeOf (br : Browser) (p : Pending) (outcome : TextureOutcome)
    : Mesh :=
  match outcome with
  | TextureLoaded =>
      planeFor (p_bounds p) (ImageTexture (p_imageUrl p)) (Fin 0.8)
  | TextureRejected =>
      planeFor (p_bounds p)
        (CanvasTexture (fallbackCanvas br (p_lat p) (p_lon p))) (Fin 0.7)
  end.

(** The planes of the group named "terrain". *)
Definition terrainPlanes (s : Scene) : list Mesh :=
  match getObjectByName s "terrain" with
  | Some g => children g
  | None => []
  end.

(** The checkboxes of the GUI that toggle the group named "terrain". *)
Definition toggleCount (g : GUI) : nat :=
  List.length (filter (fun c => String.eqb (target c) "terrain") g).

(** The toggle is there exactly when the group is. *)
Definition toggleMatchesGroup (w : World) : Prop :=
  toggleCount (gui w) =
  match getObjectByName (scene w) "terrain" with
  | Some _ => 1%nat
  | None => 0%nat
  end.

(** A run of settled texture requests, each placing its plane. *)
Definition placeAll (br : Browser)
    (requests : list (Pending * TextureOutcome)) (w : World) : World :=
  fold_left
    (fun w r => fst (createRealAerialImageryTexture_settle br (fst r) (snd r) w))
    requests w.

(** The timing in the words of the specification: the counter is
    decremented on entering the placed state, so a world whose counter is
    below the initial one has its plane. *)
Definition decrementedOnPlaced (initial w : World) : Prop :=
  (Three.loadFileRemaining w < Three.loadFileRemaining initial)%Z ->
  terrainPlanes (scene w) <> [].

(** Sample inputs: a browser without credentials, an empty scene with
    seven operations outstanding. *)
Definition plainBrowser : Browser :=
  {| context2d := true;
     random := fun _ => Fin 0.5;
     env := {| NEXT_PUBLIC_GOOGLE_MAPS_API_KEY := None;
               GOOGLE_MAPS_API_KEY := None |} |}.

Definition emptyWorld : World :=
  {| scene := []; gui := []; Three.loadFileRemaining := 7; console := [] |}.

Definition samplePending : Pending :=
  {| p_lat := Fin 35; p_lon := Fin 136;
     p_bounds := {| minX := Fin 0; maxX := Fin 4;
                    minY := Fin 0; maxY := Fin 4 |};
     p_imageUrl := "tile" |}.

End AerialImagery.

Import AerialImagery.

(** ** The venue descriptor and the [ThreeScene] component *)

Module ThreeScene.

Local Open Scope string_scope.

(** Modelled from the spec: the type [FileStructure] is declared in
    [types/types], which is not among the sources.  The fields are those of
    the venue descriptor of the specification, under the names that
    [NagoyaUnimall] gives them and [ThreeScene] reads them by. *)
Record FileStructure : Type := mkFileStructure {
  name : string;
  rootPath : string;
  networkFile : option (string * string);
  terrainFile : option string;
  geoFiles : list string;
  center : option (num * num);
  coordinate : option LatLon;
  source : string * string
}.

Definition NagoyaUnimall : FileStructure :=
  {| name := "名古屋ユニモール";
     rootPath := "/NagoyaUnimall/";
     networkFile :=
       Some ("UniMall_B1_Node.geojson", "UniMall_B1_Link.geojson");
     terrainFile := None;
     geoFiles :=
       [ "UniMall_B1_Build_Connect.geojson";
         "UniMall_B1_Building.geojson";
         "UniMall_B1_Drawing.geojson";
         "UniMall_B1_Facility.geojson";
         "UniMall_B1_Fixture.geojson";
         "UniMall_B1_Floor_Connect.geojson";
         "UniMall_B1_Floor.geojson";
         "UniMall_B1_Opening.geojson";
         "UniMall_B1_Site.geojson";
         "UniMall_B1_Space.geojson";
         "UniMall_B1_TWSI_Line.geojson";
         "UniMall_B1_TWSI_Point.geojson" ];
     center := Some (Fin (-268478.06882765563), Fin (-87917.488896069));
     coordinate :=
       Some {| lat := Fin 35.171494875999997; lon := Fin 136.88388259499999 |};
     source :=
       ("ユニモール地下街 屋内地図オープンデータ(国土交通省)",
        "https://www.geospatial.jp/ckan/dataset/city-nagoya-indoor-unimall") |}.

(** The paths the component derives from the descriptor. *)
Definition networkFileOf (d : FileStructure) : option (string * string) :=
  match networkFile d with
  | Some (node, link) => Some (rootPath d ++ node, rootPath d ++ link)
  | None => None
  end.

Definition terrainFileOf (d : FileStructure) : option string :=
  if truthy (terrainFile d)
  then match terrainFile d with
       | Some t => Some (rootPath d ++ t)
       | None => None
       end
  else None.

Definition geoFilesOf (d : FileStructure) : list string :=
  List.map (fun f => rootPath d ++ f) (geoFiles d).

Definition totalFileCount (d : FileStructure) : nat :=
  (List.length (geoFilesOf d)
   + (match networkFileOf d with Some _ => 1 | None => 0 end)
   + (if truthy (terrainFileOf d) then 1 else 0))%nat.

(** The two state cells of the component. *)
Record State : Type := mkState {
  centerState : num * num;
  loadFileRemaining : Z
}.

(** [useState([0, 0])] and [useState(totalFileCount)] on the first render. *)
Definition initialState (d : FileStructure) : State :=
  {| centerState := (Fin 0, Fin 0);
     loadFileRemaining := Z.of_nat (totalFileCount d) |}.

Definition setCenter (c : num * num) (st : State) : State :=
  {| centerState := c; loadFileRemaining := loadFileRemaining st |}.

(** The calls the effects make into modules that are not among the
    sources, with the arguments that matter here. *)
Inductive Call : Type :=
| CalculateCenterPoint (files : list string)
| LoadAndAddToScene (f : string) (c : num * num) (floorNumber : Z) (depth : num)
| LoadGUI (floorList : list Z)
| LoadNetworkFile (node link : string) (c : num * num)
| LoadTerrainFile (terrain : string) (c : num * num).

(** [s.endsWith(suffix)] *)
Definition endsWith (s suffix : string) : bool :=
  let n := String.length s in
  let k := String.length suffix in
  (k <=? n)%nat && String.eqb (substring (n - k) k s) suffix.

Section Effects.

(** [calculateCenterPoint] and [getFloorNumber] are imported from modules
    that are not among the sources: the point the first resolves to and the
    floor the second reads off a file name are left open. *)
Variable calculateCenterPoint : list string -> num * num.
Variable getFloorNumber : string -> option Z.

(** The effect that resolves the scene origin: the state it leaves and the
    scan it runs. *)
Definition resolveCenterEffect (selectedData : option FileStructure)
    (st : State) : State * list Call :=
  match selectedData with
  | None => (st, [])
  | Some d =>
      match center d with
      | Some c => (setCenter c st, [])
      | None =>
          let files := geoFilesOf d in
          (setCenter (calculateCenterPoint files) st,
           [CalculateCenterPoint files])
      end
  end.

(** [getFloorNumber(f) ?? 0] *)
Definition floorNumberOf (f : string) : Z :=
  match getFloorNumber f with Some n => n | None => 0%Z end.

Definition depthOf (f : string) : num :=
  if endsWith f "_Floor.geojson" then Fin 0.5 else Fin 7.

(** [floorList] after the [forEach] over the geometry files. *)
Definition pushFloor (floorList : list Z) (f : string) : list Z :=
  let floorNumber := floorNumberOf f in
  if existsb (Z.eqb floorNumber) floorList then floorList
  else (floorList ++ [floorNumber])%list.

(** The effect that sets the scene up: the calls it makes.
    [containerReady] is [containerRef.current] being set, [rendererReady]
    is [renderer.init()] resolving. *)
Definition sceneSetupEffect (selectedData : option FileStructure)
    (containerReady rendererReady : bool) (st : State) : list Call :=
  match selectedData with
  | None => []
  | Some d =>
      if negb containerReady then []
      else if eqb (fst (centerState st)) (Fin 0)
              && eqb (snd (centerState st)) (Fin 0) then []
      else if negb rendererReady then []
      else
        let c := centerState st in
        (List.map
           (fun f => LoadAndAddToScene f c (floorNumberOf f) (depthOf f))
           (geoFilesOf d)
         ++ [LoadGUI (fold_left pushFloor (geoFilesOf d) [])]
         ++ (match networkFileOf d with
             | Some (node, link) => [LoadNetworkFile node link c]
             | None => []
             end)
         ++ (if truthy (terrainFileOf d)
             then [LoadTerrainFile
                     (match terrainFileOf d with Some t => t | None => "" end)
                     c]
             else []))%list
  end.

End Effects.

(** The asynchronous file operations among the calls. *)
Definition isLoad (c : Call) : bool :=
  match c with
  | LoadAndAddToScene _ _ _ _ => true
  | LoadNetworkFile _ _ _ => true
  | LoadTerrainFile _ _ => true
  | _ => false
  end.

(** Modelled from the spec: [loadAndAddToScene], [loadNetworkFile] and
    [loadTerrainFile] are not among the sources.  Each one, when its
    operation completes (success or handled failure), decrements the
    counter exactly once: once per geometry file, once for the node/link
    pair, once for the terrain file.  The other calls leave it alone. *)
Definition settle (remaining : Z) (c : Call) : Z :=
  if isLoad c then (remaining - 1)%Z else remaining.

(** The counter after the operations completed in the given order. *)
Definition settleAll (order : list Call) (remaining : Z) : Z :=
  fold_left settle order remaining.

(** The effect gets past its early returns. *)
Definition originResolved (st : State) : Prop :=
  eqb (fst (centerState st)) (Fin 0) && eqb (snd (centerState st)) (Fin 0)
  = false.

End ThreeScene.

(** ** The synchronous revision of loadAerialImagery.ts

    The sources hold a second revision of the file, in which the plane is
    textured with a generated canvas straight away and nothing is fetched. *)

Module AerialImagerySync.

Local Open Scope string_scope.

Definition generatedCanvas (br : Browser) : Canvas :=
  {| canvasWidth := Fin 512;
     canvasHeight := Fin 512;
     drawn :=
       if context2d br then
         FillRadialGradient
           [(Fin 0, "#6B8E23"); (Fin 0.3, "#8FBC8F");
            (Fin 0.6, "#D2B48C"); (Fin 1, "#A0A0A0")]
         :: (List.map (roadRect (random br)) (seq 0 20)
             ++ List.map (buildingRect (random br)) (seq 0 15))%list
       else [] |}.

Definition createAerialImageryTexture (br : Browser) (lat lon : num)
    (b : PlanarBounds) (w : World) : World :=
  let texture := CanvasTexture (generatedCanvas br) in
  let planeMesh := planeFor b texture (Fin 0.7) in
  logTo (Log "航空写真風背景を作成しました") (addToTerrain planeMesh w).

(** [loadAerialImagery], run until the request of [loader.load] has
    settled; a callback that raises leaves the world as it found it. *)
Definition loadAerialImagery (br : Browser) (center : num * num)
    (lat lon : num) (file : FileOutcome) (w : World) : World :=
  match file with
  | FileFailed => w
  | FileLoaded fgData =>
      match scanFeatures center fgData initialBounds with
      | None => w
      | Some b =>
          setLoadFileRemaining (fun prev => (prev - 1)%Z)
            (createAerialImageryTexture br lat lon b w)
      end
  end.

End AerialImagerySync.

(** ** The change handler of the checkbox *)

Module TerrainToggle.

(** [obj.visible = isVisible] on the first object of the given name. *)
Fixpoint setVisibleNamed (scene : Scene) (n : string) (isVisible : bool)
    : Scene :=
  match scene with
  | [] => []
  | g :: rest =>
      if String.eqb (Three.name g) n
      then {| Three.name := Three.name g; visible := isVisible;
              children := children g |} :: rest
      else g :: setVisibleNamed rest n isVisible
  end.

(** The handler registered with [onChange]: looks the group up when it
    runs and does nothing when there is none. *)
Definition onChange (isVisible : bool) (w : World) : World :=
  {| scene := setVisibleNamed (scene w) "terrain" isVisible;
     gui := gui w;
     Three.loadFileRemaining := Three.loadFileRemaining w;
     console := console w |}.

(** The [visible] flag of the group named "terrain", if there is one. *)
Definition terrainVisible (s : Scene) : option bool :=
  match getObjectByName s "terrain" with
  | Some g => Some (visible g)
  | None => None
  end.

End TerrainToggle.

(** ** What [ThreeScene] evaluates while it renders *)

Module Render.

Inductive Outcome (A : Type) : Type :=
| Returned (a : A)
| TypeError.

Arguments Returned {A} a.
Arguments TypeError {A}.

Inductive View : Type :=
| SceneContainer
| NoDataMessage.

(** What the returned tree shows: the attribution, the counter and the
    total handed to [GeoFilesLoader], and the container or the message. *)
Record Output : Type := mkOutput {
  reference : string * string;
  loadFileRemaining : Z;
  totalFileCount : nat;
  view : View
}.

(** [v.length] on a possibly undefined array. *)
Definition lengthOf (v : option (list string)) : Outcome nat :=
  match v with
  | Some l => Returned (List.length l)
  | None => TypeError
  end.

(** The first render: [selectedData] is [data[place]], undefined for a
    place that has no descriptor. *)
Definition render (selectedData : option ThreeScene.FileStructure)
    : Outcome Output :=
  let networkFile :=
    match selectedData with
    | Some d => ThreeScene.networkFileOf d
    | None => None
    end in
  let terrainFile :=
    match selectedData with
    | Some d => ThreeScene.terrainFileOf d
    | None => None
    end in
  let geoFiles := option_map ThreeScene.geoFilesOf selectedData in
  match lengthOf geoFiles with
  | TypeError => TypeError
  | Returned n =>
      let totalFileCount :=
        (n + (match networkFile with Some _ => 1 | None => 0 end)
           + (if truthy terrainFile then 1 else 0))%nat in
      match selectedData with
      | None => TypeError
      | Some d =>
          Returned
            {| reference := ThreeScene.source d;
               loadFileRemaining := Z.of_nat totalFileCount;
               totalFileCount := totalFileCount;
               view := match selectedData with
                       | Some _ => SceneContainer
                       | None => NoDataMessage
                       end |}
      end
  end.

End Render.

(** ** Vocabulary of the further properties *)

Module Vocabulary.

(** The bounds with the two corners exchanged. *)
Definition swapCorners (b : LatLonBounds) : LatLonBounds :=
  {| southwest := northeast b;
     northeast := southwest b;
     CoordinateTransform.center := CoordinateTransform.center b |}.

(** [Math.random()] yields numbers of [0, 1). *)
Definition unitRandom (rnd : nat -> num) : Prop :=
  forall i : nat, exists r : R, rnd i = Fin r /\ 0 <= r < 1.

(** A rectangle that starts inside the 512 x 512 canvas and is between 10
    and 60 wide and between 10 and 220 high. *)
Definition rectOnCanvas (op : DrawOp) : Prop :=
  match op with
  | FillRadialGradient _ => True
  | FillRect _ x y w h =>
      exists rx ry rw rh : R,
        x = Fin rx /\ y = Fin ry /\ w = Fin rw /\ h = Fin rh
        /\ 0 <= rx < 512 /\ 0 <= ry < 512
        /\ 10 <= rw < 60 /\ 10 <= rh < 220
  end.

(** Each of the four sides of the bounds is the re-centred coordinate of one
    of the positions. *)
Definition attained (center : num * num) (points : list (list num))
    (b : PlanarBounds) : Prop :=
  (exists p, In p points /\ minX b = fst (recentre center p))
  /\ (exists p, In p points /\ maxX b = fst (recentre center p))
  /\ (exists p, In p points /\ minY b = snd (recentre center p))
  /\ (exists p, In p points /\ maxY b = snd (recentre center p)).

End Vocabulary.

Import Vocabulary.

(** ** Binary64 arithmetic, up to rounding *)

Module Rounded.

(** The arithmetic of an ECMAScript engine on [num].  A finite result of
    [+], [-], [*] and [/] is the exact result rounded to a binary64 number
    by [round]; a result too large rounds to an infinity, one too small to
    zero.  Of [round] only what IEEE 754 rounding to nearest guarantees is
    assumed: the five laws below, which [Binary64.round] is proved to
    obey.  The functions of [Math] are implementation-approximated: of
    [Math.log2] only the special cases that ECMAScript lists are assumed,
    and that a positive finite number has a finite logarithm; of
    [Math.log], [Math.tan], [Math.cos] and [Math.pow] nothing is. *)
Class Arithmetic : Type := mkArithmetic {
  round : R -> num;
  Math_log2 : num -> num;
  Math_log : num -> num;
  Math_tan : num -> num;
  Math_cos : num -> num;
  Math_pow2 : num -> num;
  (* rounding keeps the order, and never yields NaN *)
  round_monotone : forall x y : R, x <= y -> leq (round x) (round y);
  (* the integers up to 2^53 are binary64 numbers *)
  round_integer :
    forall k : Z, (Z.abs k <= 2 ^ 53)%Z -> round (IZR k) = Fin (IZR k);
  (* a rounded number is a binary64 number *)
  round_idempotent : forall x v : R, round x = Fin v -> round v = Fin v;
  (* so is its double, short of overflow *)
  round_double :
    forall v : R,
      round v = Fin v -> Rabs v <= 2 ^ 1022 -> round (2 * v) = Fin (2 * v);
  (* a finite rounded number is off by at most 2^-53 of the exact one, or
     by 2^-1075 among the subnormal numbers *)
  round_error :
    forall x v : R,
      round x = Fin v -> Rabs (v - x) <= Rabs x / 2 ^ 53 + / 2 ^ 1075;
  log2_NaN : Math_log2 NaN = NaN;
  log2_NInf : Math_log2 NInf = NaN;
  log2_negative : forall x : R, x < 0 -> Math_log2 (Fin x) = NaN;
  log2_zero : Math_log2 (Fin 0) = NInf;
  log2_PInf : Math_log2 PInf = PInf;
  log2_positive : forall x : R, 0 < x -> isFinite (Math_log2 (Fin x)) = true
}.

Section Operations.

Context {A : Arithmetic}.


(** [a + b] *)
Definition add (a b : num) : num :=
  match a, b with
  | NaN, _ => NaN
  | _, NaN => NaN
  | PInf, NInf => NaN
  | NInf, PInf => NaN
  | PInf, _ => PInf
  | NInf, _ => NInf
  | Fin _, PInf => PInf
  | Fin _, NInf => NInf
  | Fin x, Fin y => round (x + y)
  end.

(** [a - b] *)
Definition sub (a b : num) : num :=
  match a, b with
  | NaN, _ => NaN
  | _, NaN => NaN
  | PInf, PInf => NaN
  | NInf, NInf => NaN
  | PInf, _ => PInf
  | NInf, _ => NInf
  | Fin _, PInf => NInf
  | Fin _, NInf => PInf
  | Fin x, Fin y => round (x - y)
  end.

(** [a * b] *)
Definition mul (a b : num) : num :=
  match a, b with
  | NaN, _ => NaN
  | _, NaN => NaN
  | PInf, PInf => PInf
  | PInf, NInf => NInf
  | NInf, PInf => NInf
  | NInf, NInf => PInf
  | PInf, Fin y => signedInf true y
  | NInf, Fin y => signedInf false y
  | Fin x, PInf => signedInf true x
  | Fin x, NInf => signedInf false x
  | Fin x, Fin y => round (x * y)
  end.

(** [a / b]; a zero divisor is [+0]. *)
Definition div (a b : num) : num :=
  match a, b with
  | NaN, _ => NaN
  | _, NaN => NaN
  | PInf, Fin y => if Rlt_dec y 0 then NInf else PInf
  | NInf, Fin y => if Rlt_dec y 0 then PInf else NInf
  | PInf, _ => NaN
  | NInf, _ => NaN
  | Fin _, PInf => Fin 0
  | Fin _, NInf => Fin 0
  | Fin x, Fin y =>
      if Req_dec_T y 0 then signedInf true x else round (x / y)
  end.

(** [Math.PI]: the binary64 number nearest to pi. *)
Definition PI : num := round Rtrigo1.PI.

(** *** src/utils/coordinateTransform.ts *)

Definition transformToLatLon (x y centerLat centerLon : num) : LatLon :=
  let deltaLat := div y meterPerDegreeLat in
  let deltaLon := div x meterPerDegreeLon in
  {| lat := add centerLat deltaLat;
     lon := add centerLon deltaLon |}.

Definition calculateLatLonBounds
    (minX maxX minY maxY centerLat centerLon : num) : LatLonBounds :=
  let sw := transformToLatLon minX minY centerLat centerLon in
  let ne := transformToLatLon maxX maxY centerLat centerLon in
  {| southwest := sw;
     northeast := ne;
     center := {| lat := div (add (lat sw) (lat ne)) (Fin 2);
                  lon := div (add (lon sw) (lon ne)) (Fin 2) |} |}.

Definition latDiff (bounds : LatLonBounds) : num :=
  abs (sub (lat (northeast bounds)) (lat (southwest bounds))).

Definition lonDiff (bounds : LatLonBounds) : num :=
  abs (sub (lon (northeast bounds)) (lon (southwest bounds))).

Definition calculateZoomLevel
    (bounds : LatLonBounds) (width height : option num) : num :=
  let width := orDefault (Fin 640) width in
  let height := orDefault (Fin 640) height in
  let latZoom :=
    sub (Math_log2 (div (Fin 360) (latDiff bounds)))
        (Math_log2 (div height (Fin 256))) in
  let lonZoom :=
    sub (Math_log2 (div (Fin 360) (lonDiff bounds)))
        (Math_log2 (div width (Fin 256))) in
  let zoom := floor (min latZoom lonZoom) in
  max (Fin 1) (min (Fin 20) zoom).

(** The zoom candidate of one axis in the words of the specification:
    [log2(360/delta) - log2(pixels/256)]. *)
Definition zoomCandidate (delta pixels : num) : num :=
  sub (Math_log2 (div (Fin 360) delta)) (Math_log2 (div pixels (Fin 256))).

(** *** src/utils/loadAerialImagery.ts: [getAerialImageUrl] *)

Definition tileX (centerLon zoom : num) : num :=
  floor (mul (div (add centerLon (Fin 180)) (Fin 360)) (Math_pow2 zoom)).

Definition tileY (centerLat zoom : num) : num :=
  floor
    (mul (div (sub (Fin 1)
                   (div (Math_log
                           (add (Math_tan (div (mul centerLat PI) (Fin 180)))
                                (div (Fin 1)
                                     (Math_cos
                                        (div (mul centerLat PI) (Fin 180))))))
                        PI))
              (Fin 2))
         (Math_pow2 zoom)).

(** [getAerialImageUrl]: the URL its promise resolves to, and what it logs. *)
Definition getAerialImageUrl (numberToString : num -> string) (e : Env)
    (bounds : LatLonBounds) (zoom width height : num) : string * LogEntry :=
  let c := center bounds in
  let key := googleMapsApiKey e in
  if truthy key then
    (googleUrl numberToString c zoom width height
       (match key with Some k => k | None => EmptyString end),
     Log "Google Maps Static APIを使用")
  else
    (esriUrl numberToString zoom (tileY (lat c) zoom) (tileX (lon c) zoom),
     Log "OpenStreetMap衛星画像を使用（フォールバック）").

End Operations.

(** The arithmetic without rounding, the one of [JS]. *)
Definition Exact : Arithmetic :=
  {| round := Fin;
     Math_log2 := JS.log2;
     Math_log := JS.log;
     Math_tan := JS.tan;
     Math_cos := JS.cos;
     Math_pow2 := JS.pow2;
     round_monotone := fun x y H => H;
     round_integer := fun k _ => eq_refl;
     round_idempotent := fun x v _ => eq_refl;
     round_double := fun v _ _ => eq_refl;
     round_error :=
       ltac:(intros x v E; injection E as <-;
             rewrite Rminus_diag, Rabs_R0;
             apply Rplus_le_le_0_compat;
             [ apply Rmult_le_pos;
               [ apply Rabs_pos
               | left; apply Rinv_0_lt_compat; apply pow_lt; lra ]
             | left; apply Rinv_0_lt_compat; apply pow_lt; lra ]);
     log2_NaN := eq_refl;
     log2_NInf := eq_refl;
     log2_negative :=
       ltac:(intros x Hx; unfold JS.log2;
             destruct (Rlt_dec 0 x); [lra | ];
             destruct (Rlt_dec x 0); [reflexivity | lra]);
     log2_zero :=
       ltac:(unfold JS.log2;
             destruct (Rlt_dec 0 0); [lra | ];
             destruct (Rlt_dec 0 0); [lra | reflexivity]);
     log2_PInf := eq_refl;
     log2_positive :=
       ltac:(intros x Hx; unfold JS.log2;
             destruct (Rlt_dec 0 x); [reflexivity | lra]) |}.

End Rounded.

(** ** Rounding to binary64 *)

Module Binary64.

(** Rounding to the nearest binary64 number, ties to the number whose last
    bit is even: a number of magnitude [m * 2^e] with [m < 2^53] and
    [e >= -1074], or an infinity from [2^1024] on. *)

(** The integer nearest to [t], the even one of two at the same distance. *)
Definition nearestEven (t : R) : Z :=
  let f := Zfloor t in
  if Rlt_dec (t - IZR f) (/ 2) then f
  else if Rlt_dec (/ 2) (t - IZR f) then (f + 1)%Z
  else if Z.even f then f else (f + 1)%Z.

(** The exponent of the last bit of the binary64 numbers next to [x > 0]:
    52 below the leading bit of [x], and not below -1074. *)
Definition exponent (x : R) : Z :=
  Z.max (Zfloor (ln x / ln 2) - 52) (-1074).

(** The multiple of [2^e] nearest to [x]. *)
Definition toGrid (e : Z) (x : R) : R :=
  IZR (nearestEven (x / powerRZ 2 e)) * powerRZ 2 e.

(** The rounding of a number that is not negative. *)
Definition roundPositive (x : R) : num :=
  let v := toGrid (exponent x) x in
  if Rle_dec (powerRZ 2 1024) v then PInf else Fin v.

Definition opposite (a : num) : num :=
  match a with
  | NaN => NaN
  | PInf => NInf
  | NInf => PInf
  | Fin v => Fin (- v)
  end.

(** The rounding of any number: the two signs are rounded alike. *)
Definition round (x : R) : num :=
  if Rlt_dec x 0 then opposite (roundPositive (- x)) else roundPositive x.

End Binary64.

(** ** The processor's binary64 numbers *)

Module Hardware.

Import PrimFloat.

Local Open Scope float_scope.

Record LatLon : Type := mkLatLon { lat : float; lon : float }.

Record LatLonBounds : Type := mkLatLonBounds {
  southwest : LatLon;
  northeast : LatLon;
  center : LatLon
}.

Definition transformToLatLon (x y centerLat centerLon : float) : LatLon :=
  let meterPerDegreeLat := 111320 in
  let meterPerDegreeLon := 91290 in
  let deltaLat := y / meterPerDegreeLat in
  let deltaLon := x / meterPerDegreeLon in
  {| lat := centerLat + deltaLat;
     lon := centerLon + deltaLon |}.

Definition calculateLatLonBounds
    (minX maxX minY maxY centerLat centerLon : float) : LatLonBounds :=
  let sw := transformToLatLon minX minY centerLat centerLon in
  let ne := transformToLatLon maxX maxY centerLat centerLon in
  {| southwest := sw;
     northeast := ne;
     center := {| lat := (lat sw + lat ne) / 2;
                  lon := (lon sw + lon ne) / 2 |} |}.


End Hardware.

(* ===================================================================== *)
(** * Part II: properties *)
(* ===================================================================== *)

(** ** Arithmetic of [JS.num] *)

(** Decide every comparison of reals the goal is stuck on. *)
Ltac split_reals :=
  repeat match goal with
         | |- context [Rlt_dec ?a ?b] => destruct (Rlt_dec a b)
         | |- context [Req_dec_T ?a ?b] => destruct (Req_dec_T a b)
         | |- context [Rle_dec ?a ?b] => destruct (Rle_dec a b)
         end.

Section NumFacts.

Lemma div_Fin_pos (x k : R) : 0 < k -> div (Fin x) (Fin k) = Fin (x / k).
Proof.
  intros Hk. unfold div. destruct (Req_dec_T k 0); [lra | reflexivity].
Qed.

Lemma div_PInf_pos (k : R) : 0 < k -> div PInf (Fin k) = PInf.
Proof. intros Hk. unfold div. destruct (Rlt_dec k 0); [lra | reflexivity]. Qed.

Lemma div_NInf_pos (k : R) : 0 < k -> div NInf (Fin k) = NInf.
Proof. intros Hk. unfold div. destruct (Rlt_dec k 0); [lra | reflexivity]. Qed.

Lemma leq_not_NaN_l (a b : num) : leq a b -> a <> NaN.
Proof. destruct a; simpl; intros H; try discriminate; contradiction. Qed.

Lemma leq_trans (a b c : num) : leq a b -> leq b c -> leq a c.
Proof.
  destruct a, b, c; simpl; intros H1 H2; try contradiction; try exact I; lra.
Qed.

Lemma min_not_NaN (a b : num) : a <> NaN -> b <> NaN -> min a b <> NaN.
Proof. destruct a, b; simpl; intros Ha Hb; congruence. Qed.

Lemma max_not_NaN (a b : num) : a <> NaN -> b <> NaN -> max a b <> NaN.
Proof. destruct a, b; simpl; intros Ha Hb; congruence. Qed.

Lemma leq_min_l (a b : num) : a <> NaN -> b <> NaN -> leq (min a b) a.
Proof.
  destruct a, b; simpl; intros Ha Hb; try congruence; try exact I; try lra.
  apply Rmin_l.
Qed.

Lemma leq_min_r (a b : num) : a <> NaN -> b <> NaN -> leq (min a b) b.
Proof.
  destruct a, b; simpl; intros Ha Hb; try congruence; try exact I; try lra.
  apply Rmin_r.
Qed.

Lemma leq_max_l (a b : num) : a <> NaN -> b <> NaN -> leq a (max a b).
Proof.
  destruct a, b; simpl; intros Ha Hb; try congruence; try exact I; try lra.
  apply Rmax_l.
Qed.

Lemma leq_max_r (a b : num) : a <> NaN -> b <> NaN -> leq b (max a b).
Proof.
  destruct a, b; simpl; intros Ha Hb; try congruence; try exact I; try lra.
  apply Rmax_r.
Qed.

(** [Math.abs] never yields a negative number or [-Infinity]. *)
Lemma abs_range (a : num) :
  abs a = NaN \/ abs a = PInf \/ exists r, 0 <= r /\ abs a = Fin r.
Proof.
  destruct a; simpl; auto.
  right; right. exists (Rabs r). split; [apply Rabs_pos | reflexivity].
Qed.

Lemma diff_not_NaN_cases (d : num) :
  abs d <> NaN -> abs d = PInf \/ (exists r, 0 <= r /\ abs d = Fin r).
Proof.
  intros H. destruct (abs_range d) as [E | [E | E]]; [congruence | auto ..].
Qed.

Lemma Rmin_IZR (a b : Z) : Rmin (IZR a) (IZR b) = IZR (Z.min a b).
Proof.
  unfold Rmin. destruct (Rle_dec (IZR a) (IZR b)) as [H | H].
  - apply le_IZR in H. rewrite Z.min_l by exact H. reflexivity.
  - rewrite Z.min_r; [reflexivity | ].
    apply Z.lt_le_incl. apply lt_IZR. lra.
Qed.

Lemma Rmax_IZR (a b : Z) : Rmax (IZR a) (IZR b) = IZR (Z.max a b).
Proof.
  unfold Rmax. destruct (Rle_dec (IZR a) (IZR b)) as [H | H].
  - apply le_IZR in H. rewrite Z.max_r by exact H. reflexivity.
  - rewrite Z.max_l; [reflexivity | ].
    apply Z.lt_le_incl. apply lt_IZR. lra.
Qed.

(** Clamping a floored number to [1, 20]: an integer of that range, unless
    the number is [NaN]. *)
Lemma clamp_floor_range (m : num) :
  m <> NaN ->
  exists k : Z, (1 <= k <= 20)%Z /\
                max (Fin 1) (min (Fin 20) (floor m)) = Fin (IZR k).
Proof.
  intros Hm. destruct m as [ | | | r]; [congruence | | | ].
  - exists 20%Z. split; [lia | ]. simpl.
    rewrite (Rmax_IZR 1 20). reflexivity.
  - exists 1%Z. split; [lia | reflexivity].
  - exists (Z.max 1 (Z.min 20 (Zfloor r))). split; [lia | ]. simpl.
    rewrite (Rmin_IZR 20 (Zfloor r)), (Rmax_IZR 1). reflexivity.
Qed.

Lemma clamp_floor_NaN_or_range (m : num) :
  max (Fin 1) (min (Fin 20) (floor m)) = NaN \/
  exists k : Z, (1 <= k <= 20)%Z /\
                max (Fin 1) (min (Fin 20) (floor m)) = Fin (IZR k).
Proof.
  destruct m as [ | | | r] eqn:E; [left; reflexivity | right ..];
    rewrite <- E; apply clamp_floor_range; rewrite E; discriminate.
Qed.

Lemma Rpower_2_3 : Rpower 2 3 = 8.
Proof.
  replace 3 with (INR 3) by (simpl; lra). rewrite Rpower_pow by lra. lra.
Qed.

End NumFacts.

(** ** Rounded arithmetic *)

Section RoundedFacts.

Context {A : Rounded.Arithmetic}.

Lemma leq_NInf (a : num) : a <> NaN -> leq NInf a.
Proof. destruct a; simpl; intros H; try exact I; congruence. Qed.

Lemma leq_PInf (a : num) : a <> NaN -> leq a PInf.
Proof. destruct a; simpl; intros H; try exact I; congruence. Qed.

Lemma round_not_NaN (x : R) : Rounded.round x <> NaN.
Proof.
  apply (leq_not_NaN_l _ (Rounded.round x)).
  apply Rounded.round_monotone. apply Rle_refl.
Qed.

Lemma round_zero : Rounded.round 0 = Fin 0.
Proof. apply (Rounded.round_integer 0). apply Z.leb_le. reflexivity. Qed.

Lemma round_small_integer (k : Z) :
  (0 <= k <= 1000)%Z -> Rounded.round (IZR k) = Fin (IZR k).
Proof.
  intros Hk. apply Rounded.round_integer.
  apply Z.le_trans with 1000%Z; [lia | ]. apply Z.leb_le. reflexivity.
Qed.

(** A number that is not negative rounds to a number that is not, or
    overflows. *)
Lemma round_nonneg (x : R) :
  0 <= x ->
  Rounded.round x = PInf \/ exists v : R, Rounded.round x = Fin v /\ 0 <= v.
Proof.
  intros Hx. pose proof (Rounded.round_monotone 0 x Hx) as H.
  rewrite round_zero in H.
  destruct (Rounded.round x) as [ | | | v]; simpl in H; try contradiction.
  - left. reflexivity.
  - right. exists v. split; [reflexivity | exact H].
Qed.

(** Between two binary64 numbers a number rounds to a number between them. *)
Lemma round_between (a b x : R) :
  Rounded.round a = Fin a -> Rounded.round b = Fin b -> a <= x <= b ->
  exists v : R, Rounded.round x = Fin v /\ a <= v <= b.
Proof.
  intros Ha Hb [H1 H2].
  pose proof (Rounded.round_monotone a x H1) as L1.
  pose proof (Rounded.round_monotone x b H2) as L2.
  rewrite Ha in L1. rewrite Hb in L2.
  destruct (Rounded.round x) as [ | | | v]; simpl in L1, L2; try contradiction.
  exists v. split; [reflexivity | lra].
Qed.

Lemma rounded_div_Fin (x k : R) :
  k <> 0 -> Rounded.div (Fin x) (Fin k) = Rounded.round (x / k).
Proof.
  intros Hk. unfold Rounded.div.
  destruct (Req_dec_T k 0); [contradiction | reflexivity].
Qed.

Lemma rounded_div_PInf (k : R) : 0 < k -> Rounded.div PInf (Fin k) = PInf.
Proof.
  intros Hk. unfold Rounded.div. destruct (Rlt_dec k 0); [lra | reflexivity].
Qed.

Lemma rounded_div_NInf (k : R) : 0 < k -> Rounded.div NInf (Fin k) = NInf.
Proof.
  intros Hk. unfold Rounded.div. destruct (Rlt_dec k 0); [lra | reflexivity].
Qed.

(** Division by a positive number keeps the order. *)
Lemma rounded_div_mono (a b : num) (k : R) :
  0 < k -> leq a b -> leq (Rounded.div a (Fin k)) (Rounded.div b (Fin k)).
Proof.
  intros Hk H.
  destruct a as [ | | | x], b as [ | | | y]; simpl in H; try contradiction;
    rewrite ?rounded_div_PInf, ?rounded_div_NInf, ?rounded_div_Fin
      by lra;
    try exact I;
    try (apply leq_NInf; apply round_not_NaN);
    try (apply leq_PInf; apply round_not_NaN).
  apply Rounded.round_monotone.
  apply Rmult_le_compat_r; [ | exact H].
  left. apply Rinv_0_lt_compat. exact Hk.
Qed.

(** Adding to a finite number keeps the order. *)
Lemma rounded_add_mono (c : R) (a b : num) :
  leq a b -> leq (Rounded.add (Fin c) a) (Rounded.add (Fin c) b).
Proof.
  intros H.
  destruct a as [ | | | x], b as [ | | | y]; simpl in H; try contradiction;
    cbn [Rounded.add];
    try exact I;
    try (apply leq_NInf; apply round_not_NaN);
    try (apply leq_PInf; apply round_not_NaN).
  apply Rounded.round_monotone. lra.
Qed.

(** Adding a finite number keeps the order. *)
Lemma rounded_add_mono_l (c : R) (a b : num) :
  leq a b -> leq (Rounded.add a (Fin c)) (Rounded.add b (Fin c)).
Proof.
  intros H.
  destruct a as [ | | | x], b as [ | | | y]; simpl in H; try contradiction;
    cbn [Rounded.add];
    try exact I;
    try (apply leq_NInf; apply round_not_NaN);
    try (apply leq_PInf; apply round_not_NaN).
  apply Rounded.round_monotone. lra.
Qed.

(** Multiplication by a positive finite number keeps the order. *)
Lemma rounded_mul_mono (a b : num) (p : R) :
  0 < p -> leq a b -> leq (Rounded.mul a (Fin p)) (Rounded.mul b (Fin p)).
Proof.
  intros Hp H.
  assert (Ep : forall s : bool, signedInf s p = if s then PInf else NInf).
  { intros s. unfold signedInf. destruct (Rlt_dec 0 p); [reflexivity | lra]. }
  destruct a as [ | | | x], b as [ | | | y]; simpl in H; try contradiction;
    cbn [Rounded.mul]; rewrite ?Ep;
    try exact I;
    try (apply leq_NInf; apply round_not_NaN);
    try (apply leq_PInf; apply round_not_NaN).
  apply Rounded.round_monotone.
  apply Rmult_le_compat_r; [lra | exact H].
Qed.

(** A finite sum is a binary64 number. *)
Lemma rounded_add_binary64 (a b : num) (v : R) :
  Rounded.add a b = Fin v -> Rounded.round v = Fin v.
Proof.
  destruct a as [ | | | x], b as [ | | | y]; cbn [Rounded.add];
    try discriminate.
  apply Rounded.round_idempotent.
Qed.


Lemma pow2_52 : 2 ^ 53 = 2 * 2 ^ 52.
Proof. change (2 ^ 53) with (2 ^ (1 + 52)). rewrite pow_add, pow_1. reflexivity. Qed.


Lemma pow2_1074 : 2 ^ 1075 = 2 * 2 ^ 1074.
Proof.
  change (2 ^ 1075) with (2 ^ (1 + 1074)). rewrite pow_add, pow_1. reflexivity.
Qed.

Lemma pow2_pos (n : nat) : 0 < 2 ^ n.
Proof. apply pow_lt. lra. Qed.

Lemma pow2_ge_1 (n : nat) : 1 <= 2 ^ n.
Proof. apply pow_R1_Rle. lra. Qed.

(** The error of one rounding, with the two bounds named. *)
Lemma round_error_named (x v : R) :
  Rounded.round x = Fin v ->
  exists e h : R,
    e = / 2 ^ 53 /\ h = / 2 ^ 1075 /\ 0 < e <= 1 /\ 0 < h
    /\ Rabs (v - x) <= e * Rabs x + h.
Proof.
  intros E. exists (/ 2 ^ 53), (/ 2 ^ 1075).
  pose proof (pow2_pos 53) as P1. pose proof (pow2_ge_1 53) as P2.
  pose proof (pow2_pos 1075) as P3.
  repeat split.
  - apply Rinv_0_lt_compat. exact P1.
  - rewrite <- Rinv_1. apply Rinv_le_contravar; lra.
  - apply Rinv_0_lt_compat. exact P3.
  - pose proof (Rounded.round_error x v E) as H. unfold Rdiv in H. lra.
Qed.


(** Sums and quotients that come out as small integers are exact. *)
Lemma rounded_add_integers (a b : Z) :
  (0 <= a + b <= 1000)%Z ->
  Rounded.add (Fin (IZR a)) (Fin (IZR b)) = Fin (IZR (a + b)).
Proof.
  intros H. cbn [Rounded.add]. rewrite <- plus_IZR.
  apply round_small_integer. exact H.
Qed.

Lemma rounded_sub_self (x : R) : Rounded.sub (Fin x) (Fin x) = Fin 0.
Proof. cbn [Rounded.sub]. rewrite Rminus_diag. apply round_zero. Qed.

Lemma rounded_div_self (k : R) :
  k <> 0 -> Rounded.div (Fin k) (Fin k) = Fin 1.
Proof.
  intros Hk. rewrite rounded_div_Fin by exact Hk.
  replace (k / k) with 1 by (field; exact Hk).
  apply (round_small_integer 1). lia.
Qed.

Lemma rounded_div_zero (k : R) :
  k <> 0 -> Rounded.div (Fin 0) (Fin k) = Fin 0.
Proof.
  intros Hk. rewrite rounded_div_Fin by exact Hk.
  replace (0 / k) with 0 by (unfold Rdiv; ring). apply round_zero.
Qed.

(** A quotient between two small integers is finite. *)
Lemma rounded_div_finite (x k : R) (lo hi : Z) :
  k <> 0 -> (0 <= lo)%Z -> (hi <= 1000)%Z -> IZR lo <= x / k <= IZR hi ->
  isFinite (Rounded.div (Fin x) (Fin k)) = true.
Proof.
  intros Hk Hlo Hhi Hq. rewrite rounded_div_Fin by exact Hk.
  assert (Hle : (lo <= hi)%Z) by (apply le_IZR; lra).
  destruct (round_between (IZR lo) (IZR hi) (x / k)) as (v & -> & _);
    [apply round_small_integer; lia | apply round_small_integer; lia
    | exact Hq | reflexivity].
Qed.

End RoundedFacts.

(** ** Rounding to binary64 is such a rounding *)

Section NearestEven.

Lemma nearestEven_cases (t : R) :
  Binary64.nearestEven t = Zfloor t \/ Binary64.nearestEven t = (Zfloor t + 1)%Z.
Proof.
  unfold Binary64.nearestEven. cbv zeta.
  destruct (Rlt_dec _ _); [auto | ].
  destruct (Rlt_dec _ _); [auto | ].
  destruct (Z.even _); auto.
Qed.

Lemma nearestEven_error (t : R) :
  Rabs (IZR (Binary64.nearestEven t) - t) <= / 2.
Proof.
  unfold Binary64.nearestEven. cbv zeta.
  destruct (Zfloor_bound t) as [Hlo Hhi].
  destruct (Rlt_dec (t - IZR (Zfloor t)) (/ 2)) as [H1 | H1].
  - rewrite Rabs_left1 by lra. lra.
  - destruct (Rlt_dec (/ 2) (t - IZR (Zfloor t))) as [H2 | H2].
    + rewrite plus_IZR. rewrite Rabs_right by lra. lra.
    + destruct (Z.even (Zfloor t)).
      * rewrite Rabs_left1 by lra. lra.
      * rewrite plus_IZR. rewrite Rabs_right by lra. lra.
Qed.

Lemma nearestEven_IZR (n : Z) : Binary64.nearestEven (IZR n) = n.
Proof.
  unfold Binary64.nearestEven. cbv zeta. rewrite ZfloorZ.
  destruct (Rlt_dec (IZR n - IZR n) (/ 2)) as [_ | H]; [reflexivity | lra].
Qed.

Lemma nearestEven_monotone (t u : R) :
  t <= u -> (Binary64.nearestEven t <= Binary64.nearestEven u)%Z.
Proof.
  intros Htu.
  pose proof (Zfloor_le t u Htu) as Hf.
  destruct (Z.eq_dec (Zfloor t) (Zfloor u)) as [E | N].
  - unfold Binary64.nearestEven. cbv zeta. rewrite <- E.
    destruct (Rlt_dec (t - IZR (Zfloor t)) (/ 2)) as [H1 | H1].
    + destruct (Rlt_dec (u - IZR (Zfloor t)) (/ 2)); [lia | ].
      destruct (Rlt_dec (/ 2) (u - IZR (Zfloor t))); [lia | ].
      destruct (Z.even (Zfloor t)); lia.
    + destruct (Rlt_dec (u - IZR (Zfloor t)) (/ 2)) as [H3 | H3]; [lra | ].
      destruct (Rlt_dec (/ 2) (t - IZR (Zfloor t))) as [H2 | H2].
      * destruct (Rlt_dec (/ 2) (u - IZR (Zfloor t))) as [H4 | H4]; [lia | lra].
      * destruct (Rlt_dec (/ 2) (u - IZR (Zfloor t))) as [H4 | H4].
        -- destruct (Z.even (Zfloor t)); lia.
        -- lia.
  - destruct (nearestEven_cases t) as [-> | ->];
      destruct (nearestEven_cases u) as [-> | ->]; lia.
Qed.

End NearestEven.

Section PowersOfTwo.

Lemma p2_pos (z : Z) : 0 < powerRZ 2 z.
Proof. apply powerRZ_lt. lra. Qed.

Lemma p2_add (a b : Z) : powerRZ 2 (a + b) = powerRZ 2 a * powerRZ 2 b.
Proof. apply powerRZ_add. lra. Qed.

Lemma p2_nonneg_ge_1 (z : Z) : (0 <= z)%Z -> 1 <= powerRZ 2 z.
Proof.
  intros Hz. destruct z as [ | p | p]; simpl; [lra | | lia].
  apply pow_R1_Rle. lra.
Qed.

Lemma p2_pos_gt_1 (z : Z) : (0 < z)%Z -> 2 <= powerRZ 2 z.
Proof.
  intros Hz. replace z with (1 + (z - 1))%Z by lia. rewrite p2_add.
  pose proof (p2_nonneg_ge_1 (z - 1) ltac:(lia)) as H.
  change (powerRZ 2 1) with (2 ^ 1). simpl. lra.
Qed.

Lemma p2_le (a b : Z) : (a <= b)%Z -> powerRZ 2 a <= powerRZ 2 b.
Proof.
  intros H. replace b with (a + (b - a))%Z by lia. rewrite p2_add.
  pose proof (p2_pos a). pose proof (p2_nonneg_ge_1 (b - a) ltac:(lia)). nra.
Qed.

Lemma p2_lt (a b : Z) : (a < b)%Z -> powerRZ 2 a < powerRZ 2 b.
Proof.
  intros H. replace b with (a + (b - a))%Z by lia. rewrite p2_add.
  pose proof (p2_pos a). pose proof (p2_pos_gt_1 (b - a) ltac:(lia)). nra.
Qed.

Lemma p2_lt_inv (a b : Z) : powerRZ 2 a < powerRZ 2 b -> (a < b)%Z.
Proof.
  intros H. destruct (Z_lt_le_dec a b) as [L | L]; [exact L | ].
  pose proof (p2_le b a L). lra.
Qed.

Lemma p2_succ (a : Z) : powerRZ 2 (a + 1) = 2 * powerRZ 2 a.
Proof. rewrite p2_add. change (powerRZ 2 1) with (2 ^ 1). simpl. lra. Qed.

Lemma p2_pred (a : Z) : powerRZ 2 (a - 1) = powerRZ 2 a / 2.
Proof.
  pose proof (p2_succ (a - 1)) as H. replace (a - 1 + 1)%Z with a in H by lia.
  lra.
Qed.

Lemma p2_nat (n : nat) : powerRZ 2 (Z.of_nat n) = 2 ^ n.
Proof. symmetry. apply pow_powerRZ. Qed.

Lemma p2_IZR (z : Z) : (0 <= z)%Z -> powerRZ 2 z = IZR (2 ^ z).
Proof.
  intros Hz. rewrite <- (Z2Nat.id z Hz) at 1. rewrite p2_nat.
  rewrite <- (Z2Nat.id z Hz) at 2. rewrite <- pow_IZR. reflexivity.
Qed.

Lemma p2_opp_nat (n : nat) : powerRZ 2 (- Z.of_nat n) = / 2 ^ n.
Proof. rewrite powerRZ_neg'. rewrite p2_nat. reflexivity. Qed.

(** The leading bit of a positive number. *)
Lemma leading_bit (x : R) :
  0 < x ->
  powerRZ 2 (Zfloor (ln x / ln 2)) <= x < powerRZ 2 (Zfloor (ln x / ln 2) + 1).
Proof.
  intros Hx. pose proof ln_lt_2 as Hln2.
  assert (Hl2 : 0 < ln 2) by lra.
  assert (E : ln x = ln x / ln 2 * ln 2) by (field; lra).
  destruct (Zfloor_bound (ln x / ln 2)) as [Hlo Hhi].
  revert E Hlo Hhi. generalize (ln x / ln 2). intros L E Hlo Hhi.
  rewrite !powerRZ_Rpower by lra. unfold Rpower.
  rewrite <- (exp_ln x Hx) at 1 2. rewrite E. split.
  - destruct Hlo as [Hlo | Hlo].
    + left. apply exp_increasing. apply Rmult_lt_compat_r; lra.
    + right. rewrite Hlo. reflexivity.
  - apply exp_increasing. rewrite plus_IZR.
    apply Rmult_lt_compat_r; lra.
Qed.

Lemma leading_bit_unique (x : R) (e : Z) :
  0 < x -> powerRZ 2 e <= x < powerRZ 2 (e + 1) ->
  Zfloor (ln x / ln 2) = e.
Proof.
  intros Hx [Hlo Hhi]. destruct (leading_bit x Hx) as [Mlo Mhi].
  assert (H1 : (Zfloor (ln x / ln 2) < e + 1)%Z) by (apply p2_lt_inv; lra).
  assert (H2 : (e < Zfloor (ln x / ln 2) + 1)%Z) by (apply p2_lt_inv; lra).
  lia.
Qed.

Lemma leading_bit_monotone (x y : R) :
  0 < x -> x <= y -> (Zfloor (ln x / ln 2) <= Zfloor (ln y / ln 2))%Z.
Proof.
  intros Hx Hxy. destruct (leading_bit x Hx) as [Mlo _].
  destruct (leading_bit y ltac:(lra)) as [_ Nhi].
  assert (H : (Zfloor (ln x / ln 2) < Zfloor (ln y / ln 2) + 1)%Z)
    by (apply p2_lt_inv; lra).
  lia.
Qed.

End PowersOfTwo.

Section Grid.

Lemma toGrid_monotone (e : Z) (x y : R) :
  x <= y -> Binary64.toGrid e x <= Binary64.toGrid e y.
Proof.
  intros H. unfold Binary64.toGrid. pose proof (p2_pos e) as Hq.
  apply Rmult_le_compat_r; [lra | ].
  apply IZR_le. apply nearestEven_monotone.
  apply Rmult_le_compat_r; [ | exact H].
  left. apply Rinv_0_lt_compat. exact Hq.
Qed.

Lemma toGrid_fix (e n : Z) :
  Binary64.toGrid e (IZR n * powerRZ 2 e) = IZR n * powerRZ 2 e.
Proof.
  unfold Binary64.toGrid. pose proof (p2_pos e) as Hq.
  replace (IZR n * powerRZ 2 e / powerRZ 2 e) with (IZR n) by (field; lra).
  rewrite nearestEven_IZR. reflexivity.
Qed.

Lemma toGrid_error (e : Z) (x : R) :
  Rabs (Binary64.toGrid e x - x) <= powerRZ 2 e / 2.
Proof.
  unfold Binary64.toGrid. pose proof (p2_pos e) as Hq.
  pose proof (nearestEven_error (x / powerRZ 2 e)) as H.
  replace (IZR (Binary64.nearestEven (x / powerRZ 2 e)) * powerRZ 2 e - x)
    with ((IZR (Binary64.nearestEven (x / powerRZ 2 e)) - x / powerRZ 2 e)
          * powerRZ 2 e) by (field; lra).
  rewrite Rabs_mult, (Rabs_right (powerRZ 2 e)) by lra.
  apply Rle_trans with (/ 2 * powerRZ 2 e); [ | lra].
  apply Rmult_le_compat_r; lra.
Qed.

Lemma onGrid_finer (a b n : Z) :
  (b <= a)%Z ->
  IZR n * powerRZ 2 a = IZR (n * 2 ^ (a - b)) * powerRZ 2 b.
Proof.
  intros H. replace a with ((a - b) + b)%Z at 1 by lia.
  rewrite p2_add, (p2_IZR (a - b)) by lia. rewrite mult_IZR. ring.
Qed.

Lemma toGrid_fix_coarser (e a n : Z) :
  (e <= a)%Z ->
  Binary64.toGrid e (IZR n * powerRZ 2 a) = IZR n * powerRZ 2 a.
Proof.
  intros H. rewrite (onGrid_finer a e n H). apply toGrid_fix.
Qed.

Lemma toGrid_p2 (e a : Z) :
  (e <= a)%Z -> Binary64.toGrid e (powerRZ 2 a) = powerRZ 2 a.
Proof.
  intros H. rewrite <- (Rmult_1_l (powerRZ 2 a)).
  apply (toGrid_fix_coarser e a 1 H).
Qed.

Lemma toGrid_zero (e : Z) : Binary64.toGrid e 0 = 0.
Proof.
  pose proof (toGrid_fix e 0) as H. rewrite !Rmult_0_l in H. exact H.
Qed.

Lemma toGrid_nonneg (e : Z) (x : R) : 0 <= x -> 0 <= Binary64.toGrid e x.
Proof.
  intros H. rewrite <- (toGrid_zero e). apply toGrid_monotone. exact H.
Qed.

Lemma exponent_monotone (x y : R) :
  0 < x -> x <= y -> (Binary64.exponent x <= Binary64.exponent y)%Z.
Proof.
  intros Hx Hxy. unfold Binary64.exponent.
  pose proof (leading_bit_monotone x y Hx Hxy). lia.
Qed.

(** The rounded value of a positive number stays within its binade, or
    reaches the next power of two. *)
Lemma value_upper (x : R) :
  0 < x ->
  Binary64.toGrid (Binary64.exponent x) x <=
  powerRZ 2 (Z.max (Zfloor (ln x / ln 2) + 1) (Binary64.exponent x)).
Proof.
  intros Hx. destruct (leading_bit x Hx) as [_ Hhi].
  set (b := Z.max (Zfloor (ln x / ln 2) + 1) (Binary64.exponent x)).
  rewrite <- (toGrid_p2 (Binary64.exponent x) b) by (unfold b; lia).
  apply toGrid_monotone.
  apply Rle_trans with (powerRZ 2 (Zfloor (ln x / ln 2) + 1)); [lra | ].
  apply p2_le. unfold b. lia.
Qed.

Lemma value_lower (x : R) :
  0 < x -> (Binary64.exponent x <= Zfloor (ln x / ln 2))%Z ->
  powerRZ 2 (Zfloor (ln x / ln 2)) <=
  Binary64.toGrid (Binary64.exponent x) x.
Proof.
  intros Hx He. destruct (leading_bit x Hx) as [Hlo _].
  rewrite <- (toGrid_p2 (Binary64.exponent x) (Zfloor (ln x / ln 2)) He) at 1.
  apply toGrid_monotone. exact Hlo.
Qed.

Lemma value_monotone (x y : R) :
  0 <= x -> x <= y ->
  Binary64.toGrid (Binary64.exponent x) x <=
  Binary64.toGrid (Binary64.exponent y) y.
Proof.
  intros Hx Hxy. destruct Hx as [Hx | <-].
  - pose proof (exponent_monotone x y Hx Hxy) as He.
    destruct (Z.eq_dec (Binary64.exponent x) (Binary64.exponent y)) as [E | N].
    + rewrite E. apply toGrid_monotone. exact Hxy.
    + assert (Hlt : (Binary64.exponent x < Binary64.exponent y)%Z) by lia.
      pose proof (leading_bit_monotone x y Hx Hxy) as Hm.
      assert (Hy : 0 < y) by lra.
      eapply Rle_trans; [apply (value_upper x Hx) | ].
      eapply Rle_trans; [ | apply (value_lower y Hy)].
      * apply p2_le. unfold Binary64.exponent in *. lia.
      * unfold Binary64.exponent in *. lia.
  - rewrite toGrid_zero. apply toGrid_nonneg. exact Hxy.
Qed.

End Grid.

Section RoundPositive.

Lemma opposite_antitone (a b : num) :
  leq a b -> leq (Binary64.opposite b) (Binary64.opposite a).
Proof.
  destruct a, b; simpl; intros H; try contradiction; try exact I. lra.
Qed.

Lemma roundPositive_cases (x : R) :
  0 <= x ->
  Binary64.roundPositive x = PInf
  \/ exists v : R,
       Binary64.roundPositive x = Fin v
       /\ v = Binary64.toGrid (Binary64.exponent x) x
       /\ 0 <= v < powerRZ 2 1024.
Proof.
  intros Hx. unfold Binary64.roundPositive. cbv zeta.
  destruct (Rle_dec _ _) as [H | H]; [left; reflexivity | right].
  eexists. split; [reflexivity | ]. split; [reflexivity | ].
  split; [apply toGrid_nonneg; exact Hx | lra].
Qed.

Lemma roundPositive_monotone (x y : R) :
  0 <= x -> x <= y ->
  leq (Binary64.roundPositive x) (Binary64.roundPositive y).
Proof.
  intros Hx Hxy. pose proof (value_monotone x y Hx Hxy) as Hv.
  unfold Binary64.roundPositive. cbv zeta.
  destruct (Rle_dec _ _) as [H1 | H1];
    destruct (Rle_dec _ _) as [H2 | H2]; simpl; try exact I; lra.
Qed.

Lemma roundPositive_zero : Binary64.roundPositive 0 = Fin 0.
Proof.
  unfold Binary64.roundPositive. cbv zeta. rewrite toGrid_zero.
  pose proof (p2_pos 1024).
  destruct (Rle_dec _ _) as [H1 | H1]; [lra | reflexivity].
Qed.

Lemma roundPositive_fix (v : R) (n : Z) :
  v = IZR n * powerRZ 2 (Binary64.exponent v) -> v < powerRZ 2 1024 ->
  Binary64.roundPositive v = Fin v.
Proof.
  intros E Hv. unfold Binary64.roundPositive. cbv zeta.
  assert (G : Binary64.toGrid (Binary64.exponent v) v = v).
  { revert E. generalize (Binary64.exponent v). intros e E.
    rewrite E. apply toGrid_fix. }
  rewrite G. destruct (Rle_dec _ _) as [H1 | H1]; [lra | reflexivity].
Qed.

End RoundPositive.

Section Round.

Lemma binary64_round_nonneg (x : R) :
  0 <= x -> Binary64.round x = Binary64.roundPositive x.
Proof.
  intros Hx. unfold Binary64.round.
  destruct (Rlt_dec x 0); [lra | reflexivity].
Qed.

Lemma binary64_round_neg (x : R) :
  x < 0 ->
  Binary64.round x = Binary64.opposite (Binary64.roundPositive (- x)).
Proof.
  intros Hx. unfold Binary64.round.
  destruct (Rlt_dec x 0); [reflexivity | lra].
Qed.

Lemma roundPositive_above_zero (x : R) :
  0 <= x -> leq (Fin 0) (Binary64.roundPositive x).
Proof.
  intros Hx. rewrite <- roundPositive_zero.
  apply roundPositive_monotone; lra.
Qed.

Theorem binary64_round_monotone (x y : R) :
  x <= y -> leq (Binary64.round x) (Binary64.round y).
Proof.
  intros Hxy.
  destruct (Rlt_dec x 0) as [Hx | Hx]; destruct (Rlt_dec y 0) as [Hy | Hy].
  - rewrite !binary64_round_neg by assumption. apply opposite_antitone.
    apply roundPositive_monotone; lra.
  - rewrite binary64_round_neg by assumption. rewrite binary64_round_nonneg by lra.
    pose proof (roundPositive_above_zero (- x) ltac:(lra)) as H1.
    pose proof (roundPositive_above_zero y ltac:(lra)) as H2.
    destruct (Binary64.roundPositive (- x)), (Binary64.roundPositive y);
      simpl in *; try contradiction; try exact I; lra.
  - lra.
  - rewrite !binary64_round_nonneg by lra. apply roundPositive_monotone; lra.
Qed.

(** A positive integer of at most 53 bits is on the grid of its binade. *)
Lemma integer_on_grid (k : Z) :
  (0 < k <= 2 ^ 53)%Z ->
  exists n : Z, IZR k = IZR n * powerRZ 2 (Binary64.exponent (IZR k)).
Proof.
  intros [Hlo Hhi].
  assert (Hk : 0 < IZR k) by (apply IZR_lt; exact Hlo).
  destruct (leading_bit (IZR k) Hk) as [Mlo Mhi].
  set (m := Zfloor (ln (IZR k) / ln 2)) in *.
  assert (Hm0 : (0 <= m)%Z).
  { assert (H : (0 < m + 1)%Z); [ | lia].
    apply p2_lt_inv. simpl (powerRZ 2 0).
    apply Rle_lt_trans with (IZR k); [ | exact Mhi].
    apply IZR_le. lia. }
  assert (Hm53 : (m <= 53)%Z).
  { assert (H : (m < 54)%Z); [ | lia].
    apply p2_lt_inv. apply Rle_lt_trans with (IZR k); [exact Mlo | ].
    rewrite (p2_IZR 54) by lia. apply IZR_lt. lia. }
  assert (He : Binary64.exponent (IZR k) = (m - 52)%Z).
  { unfold Binary64.exponent. fold m. lia. }
  rewrite He. destruct (Z_le_gt_dec m 52) as [Hle | Hgt].
  - exists (k * 2 ^ (0 - (m - 52)))%Z.
    rewrite <- (onGrid_finer 0 (m - 52) k) by lia.
    simpl (powerRZ 2 0). ring.
  - assert (Em : m = 53%Z) by lia. rewrite Em in *.
    assert (Ek : k = (2 ^ 53)%Z).
    { apply Z.le_antisymm; [exact Hhi | ].
      apply le_IZR. rewrite <- (p2_IZR 53) by lia. exact Mlo. }
    exists (2 ^ 52)%Z. rewrite Ek.
    replace (53 - 52)%Z with 1%Z by lia.
    change (powerRZ 2 1) with (2 ^ 1).
    replace (2 ^ 1) with 2 by (simpl; lra).
    rewrite <- mult_IZR. apply f_equal. reflexivity.
Qed.

Theorem binary64_round_integer (k : Z) :
  (Z.abs k <= 2 ^ 53)%Z -> Binary64.round (IZR k) = Fin (IZR k).
Proof.
  intros Hk.
  assert (Hbig : forall j : Z, (0 <= j <= 2 ^ 53)%Z ->
                   Binary64.roundPositive (IZR j) = Fin (IZR j)).
  { intros j [Hj0 Hj]. destruct (Z.eq_dec j 0) as [-> | Hnz].
    - apply roundPositive_zero.
    - destruct (integer_on_grid j ltac:(lia)) as [n En].
      apply (roundPositive_fix _ n En).
      apply Rle_lt_trans with (IZR (2 ^ 53)); [apply IZR_le; lia | ].
      rewrite (p2_IZR 1024) by lia. apply IZR_lt. reflexivity. }
  destruct (Z_lt_le_dec k 0) as [Hneg | Hpos].
  - rewrite binary64_round_neg by (apply IZR_lt; exact Hneg).
    rewrite <- opp_IZR. rewrite Hbig by lia. simpl.
    rewrite opp_IZR. f_equal. lra.
  - rewrite binary64_round_nonneg by (apply IZR_le; exact Hpos).
    apply Hbig. lia.
Qed.

End Round.

Section Representable.

(** A positive rounded value is on the grid of its own binade. *)
Lemma value_on_own_grid (x : R) :
  0 < x -> 0 < Binary64.toGrid (Binary64.exponent x) x ->
  exists n : Z,
    Binary64.toGrid (Binary64.exponent x) x =
    IZR n * powerRZ 2 (Binary64.exponent
                         (Binary64.toGrid (Binary64.exponent x) x)).
Proof.
  intros Hx Hv. pose proof (value_upper x Hx) as Hup.
  set (v := Binary64.toGrid (Binary64.exponent x) x) in *.
  destruct (leading_bit v Hv) as [Vlo Vhi].
  destruct (Z_le_gt_dec (Binary64.exponent v) (Binary64.exponent x))
    as [Hle | Hgt].
  - exists (Binary64.nearestEven (x / powerRZ 2 (Binary64.exponent x))
            * 2 ^ (Binary64.exponent x - Binary64.exponent v))%Z.
    rewrite <- (onGrid_finer _ _ _ Hle). reflexivity.
  - assert (Hb : (Z.max (Zfloor (ln x / ln 2) + 1) (Binary64.exponent x)
                  <= Zfloor (ln v / ln 2))%Z)
      by (unfold Binary64.exponent in *; lia).
    pose proof (p2_le _ _ Hb) as Hp.
    assert (Ev : v = powerRZ 2 (Zfloor (ln v / ln 2))) by lra.
    assert (Ee : Binary64.exponent v = (Zfloor (ln v / ln 2) - 52)%Z)
      by (unfold Binary64.exponent in *; lia).
    exists (1 * 2 ^ (Zfloor (ln v / ln 2) - (Zfloor (ln v / ln 2) - 52)))%Z.
    rewrite Ee. rewrite <- (onGrid_finer _ _ 1) by lia.
    rewrite Rmult_1_l. exact Ev.
Qed.

Lemma roundPositive_idempotent (x v : R) :
  0 <= x -> Binary64.roundPositive x = Fin v ->
  Binary64.roundPositive v = Fin v.
Proof.
  intros Hx E.
  destruct (roundPositive_cases x Hx) as [F | (w & F & Ew & Hw0 & Hw)];
    rewrite F in E; [discriminate | ].
  injection E as <-.
  destruct Hw0 as [Hpos | <-]; [ | apply roundPositive_zero].
  destruct Hx as [Hx | <-].
  - rewrite Ew in Hpos. destruct (value_on_own_grid x Hx Hpos) as [n En].
    rewrite <- Ew in En. apply (roundPositive_fix w n En Hw).
  - rewrite toGrid_zero in Ew. lra.
Qed.

Lemma opposite_Fin (a : num) (v : R) :
  Binary64.opposite a = Fin v -> a = Fin (- v).
Proof.
  destruct a; simpl; intros H; try discriminate.
  injection H as <-. rewrite Ropp_involutive. reflexivity.
Qed.

Lemma roundPositive_Fin_nonneg (x v : R) :
  0 <= x -> Binary64.roundPositive x = Fin v -> 0 <= v.
Proof.
  intros Hx E.
  destruct (roundPositive_cases x Hx) as [F | (w & F & _ & Hw0 & _)];
    rewrite F in E; [discriminate | ].
  injection E as <-. exact Hw0.
Qed.

(** Rounding a negative number through the rounding of its opposite. *)
Lemma binary64_round_of_opposite (x v : R) :
  Binary64.roundPositive (- x) = Fin (- v) -> - x >= 0 ->
  Binary64.round x = Fin v.
Proof.
  intros E Hx. unfold Binary64.round.
  destruct (Rlt_dec x 0) as [Hneg | Hpos].
  - rewrite E. simpl. rewrite Ropp_involutive. reflexivity.
  - assert (x = 0) by lra. subst x. rewrite Ropp_0 in E.
    rewrite roundPositive_zero in E |- *. injection E as E.
    f_equal. lra.
Qed.

Theorem binary64_round_idempotent (x v : R) :
  Binary64.round x = Fin v -> Binary64.round v = Fin v.
Proof.
  intros E. destruct (Rlt_dec x 0) as [Hx | Hx].
  - rewrite binary64_round_neg in E by exact Hx. apply opposite_Fin in E.
    assert (Hv : 0 <= - v)
      by (apply (roundPositive_Fin_nonneg (- x)); [lra | exact E]).
    apply binary64_round_of_opposite; [ | lra].
    apply (roundPositive_idempotent (- x)); [lra | exact E].
  - rewrite binary64_round_nonneg in E by lra.
    assert (Hv : 0 <= v)
      by (apply (roundPositive_Fin_nonneg x); [lra | exact E]).
    rewrite binary64_round_nonneg by exact Hv.
    apply (roundPositive_idempotent x); [lra | exact E].
Qed.

Lemma roundPositive_double (v : R) :
  0 <= v -> Binary64.roundPositive v = Fin v -> v <= powerRZ 2 1022 ->
  Binary64.roundPositive (2 * v) = Fin (2 * v).
Proof.
  intros Hv E Hb. destruct Hv as [Hv | <-].
  - destruct (roundPositive_cases v ltac:(lra)) as [F | (w & F & Ew & _ & _)];
      rewrite F in E; [discriminate | ].
    injection E as ->.
    destruct (leading_bit v Hv) as [Vlo Vhi].
    assert (Em : Zfloor (ln (2 * v) / ln 2) = (Zfloor (ln v / ln 2) + 1)%Z).
    { apply leading_bit_unique; [lra | ].
      rewrite !p2_succ in *. lra. }
    assert (He : (Binary64.exponent (2 * v) <= Binary64.exponent v + 1)%Z)
      by (unfold Binary64.exponent; rewrite Em; lia).
    apply (roundPositive_fix (2 * v)
             (Binary64.nearestEven (v / powerRZ 2 (Binary64.exponent v))
              * 2 ^ (Binary64.exponent v + 1 - Binary64.exponent (2 * v)))).
    + rewrite <- (onGrid_finer _ _ _ He). rewrite p2_succ.
      rewrite Ew at 1. unfold Binary64.toGrid. ring.
    + apply Rle_lt_trans with (powerRZ 2 1023); [ | apply p2_lt; lia].
      replace 1023%Z with (1022 + 1)%Z by lia. rewrite p2_succ. lra.
  - rewrite Rmult_0_r. apply roundPositive_zero.
Qed.

Theorem binary64_round_double (v : R) :
  Binary64.round v = Fin v -> Rabs v <= 2 ^ 1022 ->
  Binary64.round (2 * v) = Fin (2 * v).
Proof.
  intros E Hb.
  assert (Hp : powerRZ 2 1022 = 2 ^ 1022) by apply (p2_nat 1022).
  destruct (Rlt_dec v 0) as [Hv | Hv].
  - rewrite binary64_round_neg in E by exact Hv. apply opposite_Fin in E.
    rewrite Rabs_left in Hb by exact Hv.
    apply binary64_round_of_opposite; [ | lra].
    replace (- (2 * v)) with (2 * - v) by ring.
    apply roundPositive_double; [lra | exact E | lra].
  - rewrite binary64_round_nonneg in E by lra.
    rewrite Rabs_right in Hb by lra.
    rewrite binary64_round_nonneg by lra.
    apply roundPositive_double; [lra | exact E | lra].
Qed.

Lemma roundPositive_error (x v : R) :
  0 <= x -> Binary64.roundPositive x = Fin v ->
  Rabs (v - x) <= x / 2 ^ 53 + / 2 ^ 1075.
Proof.
  intros Hx E.
  destruct (roundPositive_cases x Hx) as [F | (w & F & Ew & _ & _)];
    rewrite F in E; [discriminate | ].
  injection E as <-.
  assert (P53 : powerRZ 2 (- 53) = / 2 ^ 53) by apply (p2_opp_nat 53).
  assert (P1075 : powerRZ 2 (- 1075) = / 2 ^ 1075) by apply (p2_opp_nat 1075).
  pose proof (p2_pos (- 53)) as Q53. pose proof (p2_pos (- 1075)) as Q1075.
  unfold Rdiv. rewrite <- P53, <- P1075.
  destruct Hx as [Hx | <-].
  - pose proof (toGrid_error (Binary64.exponent x) x) as Herr.
    rewrite <- Ew in Herr. rewrite <- p2_pred in Herr.
    destruct (leading_bit x Hx) as [Xlo _].
    eapply Rle_trans; [exact Herr | ].
    unfold Binary64.exponent.
    destruct (Z.max_spec (Zfloor (ln x / ln 2) - 52) (-1074))
      as [[_ ->] | [_ ->]].
    + change (-1074 - 1)%Z with (-1075)%Z.
      assert (0 <= x * powerRZ 2 (-53)) by (apply Rmult_le_pos; lra). lra.
    + replace (Zfloor (ln x / ln 2) - 52 - 1)%Z
        with (Zfloor (ln x / ln 2) + - 53)%Z by lia.
      rewrite p2_add.
      assert (powerRZ 2 (Zfloor (ln x / ln 2)) * powerRZ 2 (-53)
              <= x * powerRZ 2 (-53))
        by (apply Rmult_le_compat_r; lra).
      lra.
  - rewrite toGrid_zero in Ew. subst w.
    rewrite Rminus_diag, Rabs_R0. lra.
Qed.

Theorem binary64_round_error (x v : R) :
  Binary64.round x = Fin v ->
  Rabs (v - x) <= Rabs x / 2 ^ 53 + / 2 ^ 1075.
Proof.
  intros E. destruct (Rlt_dec x 0) as [Hx | Hx].
  - rewrite binary64_round_neg in E by exact Hx. apply opposite_Fin in E.
    rewrite (Rabs_left x) by exact Hx.
    replace (v - x) with (- (- v - - x)) by ring. rewrite Rabs_Ropp.
    apply roundPositive_error; [lra | exact E].
  - rewrite binary64_round_nonneg in E by lra. rewrite (Rabs_right x) by lra.
    apply roundPositive_error; [lra | exact E].
Qed.

End Representable.

(** Binary64 arithmetic, with the functions of [Math] computed exactly, is
    an arithmetic in the sense of [Rounded]. *)
Lemma binary64_arithmetic : Rounded.Arithmetic.
Proof.
  exact {| Rounded.round := Binary64.round;
           Rounded.Math_log2 := JS.log2;
           Rounded.Math_log := JS.log;
           Rounded.Math_tan := JS.tan;
           Rounded.Math_cos := JS.cos;
           Rounded.Math_pow2 := JS.pow2;
           Rounded.round_monotone := binary64_round_monotone;
           Rounded.round_integer := binary64_round_integer;
           Rounded.round_idempotent := binary64_round_idempotent;
           Rounded.round_double := binary64_round_double;
           Rounded.round_error := binary64_round_error;
           Rounded.log2_NaN := @Rounded.log2_NaN Rounded.Exact;
           Rounded.log2_NInf := @Rounded.log2_NInf Rounded.Exact;
           Rounded.log2_negative := @Rounded.log2_negative Rounded.Exact;
           Rounded.log2_zero := @Rounded.log2_zero Rounded.Exact;
           Rounded.log2_PInf := @Rounded.log2_PInf Rounded.Exact;
           Rounded.log2_positive := @Rounded.log2_positive Rounded.Exact |}.
Defined.

(** Binary64 rounding does round: added to 35, the number [2^-60] is lost,
    as on the processor. *)
Example binary64_sum_absorbs_small_term :
  Rounded.add (A := binary64_arithmetic) (Fin 35) (Fin (/ 2 ^ 60)) = Fin 35
  /\ PrimFloat.add 35%float 0x1p-60%float = 35%float.
Proof.
  split; [ | reflexivity].
  cbn [Rounded.add]. change (@Rounded.round binary64_arithmetic)
    with Binary64.round.
  assert (H60 : 0 < / 2 ^ 60) by (apply Rinv_0_lt_compat; apply pow2_pos).
  assert (H60' : / 2 ^ 60 < 1).
  { rewrite <- Rinv_1. apply Rinv_lt_contravar; [ | lra].
    rewrite Rmult_1_l. apply pow2_pos. }
  rewrite binary64_round_nonneg by lra.
  assert (Ee : Binary64.exponent (35 + / 2 ^ 60) = (-47)%Z).
  { unfold Binary64.exponent.
    rewrite (leading_bit_unique (35 + / 2 ^ 60) 5); [reflexivity | lra | ].
    change (5 + 1)%Z with 6%Z. rewrite (p2_IZR 5), (p2_IZR 6) by lia.
    simpl (2 ^ 5)%Z. simpl (2 ^ 6)%Z. lra. }
  assert (E47 : powerRZ 2 (-47) = / 2 ^ 47) by apply (p2_opp_nat 47).
  assert (Eq : (35 + / 2 ^ 60) / powerRZ 2 (-47) = 35 * 2 ^ 47 + / 2 ^ 13).
  { rewrite E47. change (2 ^ 60) with (2 ^ (47 + 13)). rewrite pow_add.
    pose proof (pow2_pos 47). pose proof (pow2_pos 13). field; lra. }
  assert (H13 : 0 < / 2 ^ 13 < / 2).
  { split; [apply Rinv_0_lt_compat; apply pow2_pos | ].
    apply Rinv_lt_contravar; lra. }
  assert (Ez : 35 * 2 ^ 47 = IZR (35 * 2 ^ 47)).
  { rewrite mult_IZR, (pow_IZR 2 47). reflexivity. }
  assert (En : Binary64.nearestEven ((35 + / 2 ^ 60) / powerRZ 2 (-47)) =
               (35 * 2 ^ 47)%Z).
  { unfold Binary64.nearestEven. cbv zeta. rewrite Eq, Ez.
    rewrite (Zfloor_eq (35 * 2 ^ 47)) by lra.
    destruct (Rlt_dec _ _) as [_ | H]; [reflexivity | lra]. }
  unfold Binary64.roundPositive. cbv zeta. rewrite Ee.
  unfold Binary64.toGrid. rewrite En, <- Ez, E47.
  replace (35 * 2 ^ 47 * / 2 ^ 47) with 35
    by (pose proof (pow2_pos 47); field; lra).
  destruct (Rle_dec _ _) as [H | _]; [ | reflexivity].
  pose proof (p2_le 6 1024 ltac:(lia)) as Hp.
  rewrite (p2_IZR 6) in Hp by lia. simpl (2 ^ 6)%Z in Hp. lra.
Qed.

(** A power of two within the range of the exponents is a binary64
    number. *)
Lemma binary64_round_power_of_two (e : Z) :
  (-1074 <= e <= 1023)%Z ->
  Binary64.round (powerRZ 2 e) = Fin (powerRZ 2 e).
Proof.
  intros He. pose proof (p2_pos e) as Hp.
  rewrite binary64_round_nonneg by lra.
  assert (Ee : (Binary64.exponent (powerRZ 2 e) <= e)%Z).
  { unfold Binary64.exponent.
    rewrite (leading_bit_unique (powerRZ 2 e) e);
      [lia | exact Hp | split; [lra | apply p2_lt; lia]]. }
  apply (roundPositive_fix _
           (1 * 2 ^ (e - Binary64.exponent (powerRZ 2 e)))).
  - rewrite <- (onGrid_finer _ _ 1 Ee). lra.
  - apply p2_lt. lia.
Qed.

(** ** coordinateTransform.ts: [transformToLatLon] *)


Section TransformToLatLon.

Context {A : Rounded.Arithmetic}.

Lemma transform_lat_mono (x1 x2 y1 y2 : num) (cLat cLon : R) :
  leq y1 y2 ->
  leq (lat (Rounded.transformToLatLon x1 y1 (Fin cLat) (Fin cLon)))
      (lat (Rounded.transformToLatLon x2 y2 (Fin cLat) (Fin cLon))).
Proof.
  intros H. cbn [Rounded.transformToLatLon lat].
  apply rounded_add_mono. apply rounded_div_mono; [lra | exact H].
Qed.

Lemma transform_lon_mono (x1 x2 y1 y2 : num) (cLat cLon : R) :
  leq x1 x2 ->
  leq (lon (Rounded.transformToLatLon x1 y1 (Fin cLat) (Fin cLon)))
      (lon (Rounded.transformToLatLon x2 y2 (Fin cLat) (Fin cLon))).
Proof.
  intros H. cbn [Rounded.transformToLatLon lon].
  apply rounded_add_mono. apply rounded_div_mono; [lra | exact H].
Qed.





End TransformToLatLon.



(** In binary64 arithmetic [transformToLatLon] maps the planar point
    [(0, 111320 * 2^-60)] to the anchor (35, 136) itself, as on the
    processor: the offset [2^-60] of the latitude is lost in the sum. *)
Example transformToLatLon_absorbs_small_offset :
  Rounded.transformToLatLon (A := binary64_arithmetic)
    (Fin 0) (Fin (111320 * / 2 ^ 60)) (Fin 35) (Fin 136) =
  {| lat := Fin 35; lon := Fin 136 |}
  /\ Hardware.transformToLatLon 0%float 0x1.b2d8p-44%float 35%float 136%float =
     {| Hardware.lat := 35%float; Hardware.lon := 136%float |}
  /\ PrimFloat.mul 111320%float 0x1p-60%float = 0x1.b2d8p-44%float.
Proof.
  split; [ | split; reflexivity].
  unfold Rounded.transformToLatLon, meterPerDegreeLat, meterPerDegreeLon.
  rewrite rounded_div_zero by lra.
  rewrite (rounded_add_integers 136 0) by lia.
  rewrite rounded_div_Fin by lra.
  replace (111320 * / 2 ^ 60 / 111320) with (/ 2 ^ 60) by (field; apply pow_nonzero; lra).
  change (@Rounded.round binary64_arithmetic) with Binary64.round.
  rewrite <- (p2_opp_nat 60).
  rewrite binary64_round_power_of_two by (simpl; lia).
  rewrite (p2_opp_nat 60).
  rewrite (proj1 binary64_sum_absorbs_small_term). reflexivity.
Qed.

(** ** coordinateTransform.ts: [calculateLatLonBounds] *)

(** C2, as stated, fails, on the processor's binary64 numbers.  With a
    [NaN] anchor every derived coordinate is [NaN], and [NaN <= NaN] is
    false although [minX <= maxX] and [minY <= maxY] hold.  With the finite
    anchor 1.7e308 both corners have latitude 1.7e308 and the centre has
    latitude [Infinity], not their midpoint: the sum overflows.  The bounds
    of one degree over the anchor (35, 136) are ordered and the centre is
    the midpoint. *)
Lemma calculateLatLonBounds_order_fails_NaN_center :
  let b := Hardware.calculateLatLonBounds 0%float 1%float 0%float 1%float
             PrimFloat.nan PrimFloat.nan in
  PrimFloat.leb 0%float 1%float = true
  /\ Hardware.lat (Hardware.southwest b) = PrimFloat.nan
  /\ Hardware.lat (Hardware.northeast b) = PrimFloat.nan
  /\ PrimFloat.leb (Hardware.lat (Hardware.southwest b))
                   (Hardware.lat (Hardware.northeast b)) = false
  /\ PrimFloat.leb (Hardware.lon (Hardware.southwest b))
                   (Hardware.lon (Hardware.northeast b)) = false
  /\ (let o := Hardware.calculateLatLonBounds 0%float 0%float 0%float 0%float
                 1.7e308%float 1.7e308%float in
      Hardware.lat (Hardware.southwest o) = 1.7e308%float
      /\ Hardware.lat (Hardware.northeast o) = 1.7e308%float
      /\ Hardware.lat (Hardware.center o) = PrimFloat.infinity)
  /\ Hardware.calculateLatLonBounds 0%float 91290%float 0%float 111320%float
       35%float 136%float =
     {| Hardware.southwest := {| Hardware.lat := 35%float;
                                 Hardware.lon := 136%float |};
        Hardware.northeast := {| Hardware.lat := 36%float;
                                 Hardware.lon := 137%float |};
        Hardware.center := {| Hardware.lat := 35.5%float;
                              Hardware.lon := 136.5%float |} |}.
Proof. vm_compute. repeat split. Qed.

Section LatLonBoundsFacts.

Context {A : Rounded.Arithmetic}.

(** The halved sum of two finite numbers, when finite, is their midpoint
    up to the two roundings. *)
Lemma midpoint_error (s n m : R) :
  Rounded.div (Rounded.add (Fin s) (Fin n)) (Fin 2) = Fin m ->
  Rabs (m - (s + n) / 2) <= Rabs (s + n) / 2 ^ 52 + / 2 ^ 1074.
Proof.
  cbn [Rounded.add]. intros E.
  destruct (Rounded.round (s + n)) as [ | | | t] eqn:Et;
    rewrite ?rounded_div_PInf, ?rounded_div_NInf, ?rounded_div_Fin in E by lra;
    try discriminate.
  destruct (round_error_named (s + n) t Et)
    as (e & h & He & Hh & Hei & Hhi & D1).
  pose proof (Rounded.round_error (t / 2) m E) as D2.
  assert (E52 : / 2 ^ 52 = 2 * e).
  { rewrite He, pow2_52. pose proof (pow2_pos 52). field; lra. }
  assert (E1074 : / 2 ^ 1074 = 2 * h).
  { rewrite Hh, pow2_1074. pose proof (pow2_pos 1074). field; lra. }
  unfold Rdiv in D2 |- *. rewrite <- He, <- Hh in D2. rewrite E52, E1074.
  assert (Habs : Rabs (t * / 2) = Rabs t * / 2).
  { rewrite Rabs_mult. f_equal. apply Rabs_right. lra. }
  rewrite Habs in D2.
  assert (T1 : Rabs (m - (s + n) * / 2) <=
               Rabs (m - t * / 2) + Rabs (t - (s + n)) * / 2).
  { replace (m - (s + n) * / 2)
      with ((m - t * / 2) + (t - (s + n)) * / 2) by field.
    eapply Rle_trans; [apply Rabs_triang | ].
    apply Rplus_le_compat_l. rewrite Rabs_mult.
    rewrite (Rabs_right (/ 2)) by lra. apply Rle_refl. }
  assert (T2 : Rabs t <= Rabs (s + n) + Rabs (t - (s + n))).
  { replace t with ((s + n) + (t - (s + n))) at 1 by ring.
    apply Rabs_triang. }
  pose proof (Rabs_pos (s + n)) as Px.
  pose proof (Rabs_pos (t - (s + n))) as Pd.
  pose proof (Rabs_pos t) as Pt.
  assert (M1 : Rabs t * e <= (Rabs (s + n) + Rabs (t - (s + n))) * e)
    by (apply Rmult_le_compat_r; lra).
  assert (M2 : Rabs (t - (s + n)) * e <= Rabs (t - (s + n)))
    by (rewrite <- (Rmult_1_r (Rabs (t - (s + n)))) at 2;
        apply Rmult_le_compat_l; lra).
  assert (M3 : 0 <= e * Rabs (s + n)) by (apply Rmult_le_pos; lra).
  lra.
Qed.

(** Between two ordered binary64 numbers whose doubles do not overflow, the
    halved sum is finite and lies between them. *)
Lemma midpoint_between (s n : R) :
  Rounded.round s = Fin s -> Rounded.round n = Fin n -> s <= n ->
  Rabs s <= 2 ^ 1022 -> Rabs n <= 2 ^ 1022 ->
  exists m : R,
    Rounded.div (Rounded.add (Fin s) (Fin n)) (Fin 2) = Fin m /\ s <= m <= n.
Proof.
  intros Hs Hn Hle Bs Bn.
  pose proof (Rounded.round_double s Hs Bs) as Ds.
  pose proof (Rounded.round_double n Hn Bn) as Dn.
  destruct (round_between (2 * s) (2 * n) (s + n) Ds Dn) as (t & Et & Ht);
    [lra | ].
  cbn [Rounded.add]. rewrite Et, rounded_div_Fin by lra.
  destruct (round_between s n (t / 2) Hs Hn) as (m & Em & Hm); [lra | ].
  exists m. split; assumption.
Qed.

(** C2, amended: for every input the corners are the transforms of
    [(minX, minY)] and [(maxX, maxY)], and the centre is
    [(southwest + northeast) / 2] as the engine computes it, the sum and
    the half each rounded: a finite centre coordinate is the midpoint of
    two finite corner coordinates up to [|s + n| / 2^52 + 2^-1074], and
    between two ordered finite corner coordinates of magnitude at most
    [2^1022] it is finite and lies between them.  When the anchor
    [centerLat], [centerLon] is finite, [minX <= maxX] and [minY <= maxY]
    give [southwest.lat <= northeast.lat] and
    [southwest.lon <= northeast.lon]. *)
Theorem calculateLatLonBounds_corners_ordered :
  forall minX maxX minY maxY centerLat centerLon : num,
    let b := Rounded.calculateLatLonBounds minX maxX minY maxY
               centerLat centerLon in
    southwest b = Rounded.transformToLatLon minX minY centerLat centerLon
    /\ northeast b = Rounded.transformToLatLon maxX maxY centerLat centerLon
    /\ CoordinateTransform.center b =
       {| lat := Rounded.div (Rounded.add (lat (southwest b))
                                          (lat (northeast b))) (Fin 2);
          lon := Rounded.div (Rounded.add (lon (southwest b))
                                          (lon (northeast b))) (Fin 2) |}
    /\ (isFinite centerLat = true -> isFinite centerLon = true ->
        leq minX maxX -> leq minY maxY ->
        leq (lat (southwest b)) (lat (northeast b))
        /\ leq (lon (southwest b)) (lon (northeast b)))
    /\ (forall s n m : R,
          lat (southwest b) = Fin s -> lat (northeast b) = Fin n ->
          lat (CoordinateTransform.center b) = Fin m ->
          Rabs (m - (s + n) / 2) <= Rabs (s + n) / 2 ^ 52 + / 2 ^ 1074)
    /\ (forall s n m : R,
          lon (southwest b) = Fin s -> lon (northeast b) = Fin n ->
          lon (CoordinateTransform.center b) = Fin m ->
          Rabs (m - (s + n) / 2) <= Rabs (s + n) / 2 ^ 52 + / 2 ^ 1074)
    /\ (forall s n : R,
          lat (southwest b) = Fin s -> lat (northeast b) = Fin n ->
          s <= n -> Rabs s <= 2 ^ 1022 -> Rabs n <= 2 ^ 1022 ->
          exists m : R,
            lat (CoordinateTransform.center b) = Fin m /\ s <= m <= n)
    /\ (forall s n : R,
          lon (southwest b) = Fin s -> lon (northeast b) = Fin n ->
          s <= n -> Rabs s <= 2 ^ 1022 -> Rabs n <= 2 ^ 1022 ->
          exists m : R,
            lon (CoordinateTransform.center b) = Fin m /\ s <= m <= n).
Proof.
  intros minX maxX minY maxY cLat cLon b.
  split; [reflexivity | ]. split; [reflexivity | ]. split; [reflexivity | ].
  split; [ | split; [ | split; [ | split]]].
  - intros Hlat Hlon Hx Hy.
    destruct cLat; try discriminate. destruct cLon; try discriminate.
    split; [apply transform_lat_mono | apply transform_lon_mono]; assumption.
  - intros s n m Es En Em. apply midpoint_error.
    rewrite <- Es, <- En. exact Em.
  - intros s n m Es En Em. apply midpoint_error.
    rewrite <- Es, <- En. exact Em.
  - intros s n Es En Hle Bs Bn.
    cbn [CoordinateTransform.center b Rounded.calculateLatLonBounds lat].
    fold b. change (Rounded.transformToLatLon minX minY cLat cLon)
      with (southwest b).
    change (Rounded.transformToLatLon maxX maxY cLat cLon)
      with (northeast b).
    rewrite Es, En. apply midpoint_between; try assumption.
    + apply (rounded_add_binary64 _ _ _ Es).
    + apply (rounded_add_binary64 _ _ _ En).
  - intros s n Es En Hle Bs Bn.
    cbn [CoordinateTransform.center b Rounded.calculateLatLonBounds lon].
    change (Rounded.transformToLatLon minX minY cLat cLon)
      with (southwest b).
    change (Rounded.transformToLatLon maxX maxY cLat cLon)
      with (northeast b).
    rewrite Es, En. apply midpoint_between; try assumption.
    + apply (rounded_add_binary64 _ _ _ Es).
    + apply (rounded_add_binary64 _ _ _ En).
Qed.

End LatLonBoundsFacts.

(** The bounds of one degree over the anchor (35, 136), in every
    arithmetic. *)
Lemma calculateLatLonBounds_one_degree {A : Rounded.Arithmetic} :
  let b := Rounded.calculateLatLonBounds
             (Fin 0) (Fin 91290) (Fin 0) (Fin 111320) (Fin 35) (Fin 136) in
  southwest b = {| lat := Fin 35; lon := Fin 136 |}
  /\ northeast b = {| lat := Fin 36; lon := Fin 137 |}.
Proof.
  cbn [Rounded.calculateLatLonBounds southwest northeast]. split.
  - unfold Rounded.transformToLatLon, meterPerDegreeLat, meterPerDegreeLon.
    rewrite !rounded_div_zero by lra.
    rewrite (rounded_add_integers 35 0), (rounded_add_integers 136 0) by lia.
    reflexivity.
  - unfold Rounded.transformToLatLon, meterPerDegreeLat, meterPerDegreeLon.
    rewrite !rounded_div_self by lra.
    rewrite (rounded_add_integers 35 1), (rounded_add_integers 136 1) by lia.
    reflexivity.
Qed.

Lemma calculateLatLonBounds_corners_ordered_witness :
  let b := Rounded.calculateLatLonBounds (A := binary64_arithmetic)
             (Fin 0) (Fin 91290) (Fin 0) (Fin 111320) (Fin 35) (Fin 136) in
  (leq (lat (southwest b)) (lat (northeast b))
   /\ leq (lon (southwest b)) (lon (northeast b)))
  /\ exists m : R,
       lat (CoordinateTransform.center b) = Fin m /\ 35 <= m <= 36.
Proof.
  split.
  - apply (@calculateLatLonBounds_corners_ordered binary64_arithmetic
             (Fin 0) (Fin 91290) (Fin 0) (Fin 111320) (Fin 35) (Fin 136));
      simpl; try reflexivity; lra.
  - destruct (@calculateLatLonBounds_one_degree binary64_arithmetic)
      as [Esw Ene].
    apply (proj1 (proj2 (proj2 (proj2 (proj2 (proj2 (proj2
             (@calculateLatLonBounds_corners_ordered binary64_arithmetic
                (Fin 0) (Fin 91290) (Fin 0) (Fin 111320)
                (Fin 35) (Fin 136))))))))
             35 36).
    + rewrite Esw. reflexivity.
    + rewrite Ene. reflexivity.
    + lra.
    + rewrite Rabs_right; lra.
    + rewrite Rabs_right; lra.
Defined.

(** ** coordinateTransform.ts: [calculateZoomLevel] *)

(** C1, as stated, fails: a [NaN] coordinate makes the result [NaN], which
    is no integer of [1, 20]; so it is in every arithmetic, here in
    binary64 arithmetic. *)
Lemma calculateZoomLevel_NaN_coordinate :
  let b := {| southwest := {| lat := NaN; lon := Fin 0 |};
              northeast := {| lat := Fin 1; lon := Fin 1 |};
              CoordinateTransform.center := {| lat := NaN; lon := Fin 0.5 |} |} in
  Rounded.calculateZoomLevel (A := binary64_arithmetic) b
    (Some (Fin 640)) (Some (Fin 640)) = NaN
  /\ ~ (exists k : Z,
         (1 <= k <= 20)%Z /\
         isInteger (Rounded.calculateZoomLevel (A := binary64_arithmetic) b
                      (Some (Fin 640)) (Some (Fin 640))) k).
Proof.
  split; [reflexivity | ].
  intros [k [_ H]]. unfold isInteger in H. discriminate H.
Qed.

Section ZoomLevel.

Context {A : Rounded.Arithmetic}.

Lemma rounded_log2_positive (x : R) :
  0 < x -> exists l : R, Rounded.Math_log2 (Fin x) = Fin l.
Proof.
  intros Hx. pose proof (Rounded.log2_positive x Hx) as H.
  destruct (Rounded.Math_log2 (Fin x)) as [ | | | l]; try discriminate.
  exists l. reflexivity.
Qed.

(** The logarithm of a number that is not negative, rounded, is not [NaN]. *)
Lemma rounded_log2_round_nonneg (x : R) :
  0 <= x -> Rounded.Math_log2 (Rounded.round x) <> NaN.
Proof.
  intros Hx. destruct (round_nonneg x Hx) as [-> | (v & -> & Hv)].
  - rewrite Rounded.log2_PInf. discriminate.
  - destruct (Req_dec_T v 0) as [-> | Hnz].
    + rewrite Rounded.log2_zero. discriminate.
    + destruct (rounded_log2_positive v) as [l ->]; [lra | discriminate].
Qed.

Lemma rounded_sub_Fin_not_NaN (a : num) (l : R) :
  a <> NaN -> Rounded.sub a (Fin l) <> NaN.
Proof.
  destruct a as [ | | | x]; cbn [Rounded.sub]; intros H;
    try congruence; try discriminate.
  apply round_not_NaN.
Qed.

Lemma rounded_zoomCandidate_not_NaN (delta : num) (px pv : R) :
  delta = PInf \/ (exists r : R, 0 <= r /\ delta = Fin r) ->
  Rounded.div (Fin px) (Fin 256) = Fin pv -> 0 < pv ->
  Rounded.zoomCandidate delta (Fin px) <> NaN.
Proof.
  intros Hd Epx Hpv. unfold Rounded.zoomCandidate. rewrite Epx.
  destruct (rounded_log2_positive pv Hpv) as [l ->].
  apply rounded_sub_Fin_not_NaN.
  destruct Hd as [-> | (r & Hr & ->)].
  - cbn [Rounded.div]. rewrite Rounded.log2_zero. discriminate.
  - destruct (Req_dec_T r 0) as [-> | Hnz].
    + unfold Rounded.div, signedInf.
      destruct (Req_dec_T 0 0) as [_ | H]; [ | congruence].
      destruct (Rlt_dec 0 360) as [_ | H]; [ | lra].
      rewrite Rounded.log2_PInf. discriminate.
    + rewrite rounded_div_Fin by exact Hnz.
      apply rounded_log2_round_nonneg.
      left. apply Rdiv_lt_0_compat; lra.
Qed.

Lemma rounded_zoomCandidate_zero_extent (px : R) :
  0 < px -> isFinite (Rounded.div (Fin px) (Fin 256)) = true ->
  Rounded.zoomCandidate (Fin 0) (Fin px) = PInf.
Proof.
  intros Hpx Hfin. unfold Rounded.zoomCandidate.
  assert (E : Rounded.div (Fin 360) (Fin 0) = PInf).
  { unfold Rounded.div, signedInf.
    destruct (Req_dec_T 0 0) as [_ | H]; [ | congruence].
    destruct (Rlt_dec 0 360) as [_ | H]; [reflexivity | lra]. }
  rewrite E, Rounded.log2_PInf.
  rewrite rounded_div_Fin in Hfin |- * by lra.
  assert (Hq : 0 <= px / 256) by (left; apply Rdiv_lt_0_compat; lra).
  destruct (round_nonneg _ Hq) as [Ep | (v & Ev & Hv)].
  - rewrite Ep in Hfin. discriminate.
  - rewrite Ev. destruct (Req_dec_T v 0) as [-> | Hnz].
    + rewrite Rounded.log2_zero. reflexivity.
    + destruct (rounded_log2_positive v) as [l ->]; [lra | reflexivity].
Qed.

(** C1, amended: for positive finite [width] and [height] the result is
    the clamp to [1, 20] of the floor of the smaller of the two candidates
    [log2(360/delta) - log2(pixels/256)], with [delta] the absolute
    latitude resp. longitude difference, as the engine computes them; an
    omitted [width] or [height] is 640.  The result is [NaN] when a
    candidate is, and an integer of [1, 20] otherwise.  No
    candidate is [NaN] when neither difference is, in particular when the
    four coordinates are finite, and [width/256] and [height/256] are
    positive finite numbers.  For zero extent on both axes it is 20 when
    [width/256] and [height/256] are finite. *)
Theorem calculateZoomLevel_clamped :
  forall (b : LatLonBounds) (width height : R),
    0 < width -> 0 < height ->
    let zoom :=
      Rounded.calculateZoomLevel b (Some (Fin width)) (Some (Fin height)) in
    let latDiff :=
      abs (Rounded.sub (lat (northeast b)) (lat (southwest b))) in
    let lonDiff :=
      abs (Rounded.sub (lon (northeast b)) (lon (southwest b))) in
    let latZoom :=
      Rounded.sub (Rounded.Math_log2 (Rounded.div (Fin 360) latDiff))
                  (Rounded.Math_log2 (Rounded.div (Fin height) (Fin 256))) in
    let lonZoom :=
      Rounded.sub (Rounded.Math_log2 (Rounded.div (Fin 360) lonDiff))
                  (Rounded.Math_log2 (Rounded.div (Fin width) (Fin 256))) in
    zoom = max (Fin 1) (min (Fin 20) (floor (min latZoom lonZoom)))
    /\ Rounded.calculateZoomLevel b None None =
       Rounded.calculateZoomLevel b (Some (Fin 640)) (Some (Fin 640))
    /\ (zoom = NaN \/ exists k : Z, (1 <= k <= 20)%Z /\ isInteger zoom k)
    /\ (latZoom = NaN \/ lonZoom = NaN -> zoom = NaN)
    /\ (latZoom <> NaN -> lonZoom <> NaN ->
        exists k : Z, (1 <= k <= 20)%Z /\ isInteger zoom k)
    /\ (forall pw ph : R,
          latDiff <> NaN -> lonDiff <> NaN ->
          Rounded.div (Fin width) (Fin 256) = Fin pw -> 0 < pw ->
          Rounded.div (Fin height) (Fin 256) = Fin ph -> 0 < ph ->
          exists k : Z, (1 <= k <= 20)%Z /\ isInteger zoom k)
    /\ (forall pw ph : R,
          isFinite (lat (southwest b)) = true ->
          isFinite (lon (southwest b)) = true ->
          isFinite (lat (northeast b)) = true ->
          isFinite (lon (northeast b)) = true ->
          Rounded.div (Fin width) (Fin 256) = Fin pw -> 0 < pw ->
          Rounded.div (Fin height) (Fin 256) = Fin ph -> 0 < ph ->
          exists k : Z, (1 <= k <= 20)%Z /\ isInteger zoom k)
    /\ (latDiff = Fin 0 -> lonDiff = Fin 0 ->
        isFinite (Rounded.div (Fin width) (Fin 256)) = true ->
        isFinite (Rounded.div (Fin height) (Fin 256)) = true ->
        zoom = Fin 20).
Proof.
  intros b width height Hw Hh zoom latDiff lonDiff latZoom lonZoom.
  assert (Ezoom :
            zoom = max (Fin 1) (min (Fin 20) (floor (min latZoom lonZoom))))
    by reflexivity.
  assert (Hcand : latZoom <> NaN -> lonZoom <> NaN ->
                  exists k : Z, (1 <= k <= 20)%Z /\ isInteger zoom k).
  { intros Hlat Hlon. unfold isInteger. rewrite Ezoom.
    apply clamp_floor_range. apply min_not_NaN; assumption. }
  assert (Hrange : forall pw ph : R,
             latDiff <> NaN -> lonDiff <> NaN ->
             Rounded.div (Fin width) (Fin 256) = Fin pw -> 0 < pw ->
             Rounded.div (Fin height) (Fin 256) = Fin ph -> 0 < ph ->
             exists k : Z, (1 <= k <= 20)%Z /\ isInteger zoom k).
  { intros pw ph Hlat Hlon Epw Hpw Eph Hph. apply Hcand.
    - apply (rounded_zoomCandidate_not_NaN latDiff height ph);
        [apply diff_not_NaN_cases | | ]; assumption.
    - apply (rounded_zoomCandidate_not_NaN lonDiff width pw);
        [apply diff_not_NaN_cases | | ]; assumption. }
  split; [exact Ezoom | ]. split; [reflexivity | ].
  split; [ | split; [ | split; [ | split; [ | split]]]].
  - unfold isInteger. rewrite Ezoom. apply clamp_floor_NaN_or_range.
  - intros [E | E]; rewrite Ezoom, E.
    + reflexivity.
    + destruct latZoom; reflexivity.
  - exact Hcand.
  - exact Hrange.
  - intros pw ph H1 H2 H3 H4. apply Hrange; unfold latDiff, lonDiff.
    + destruct (lat (southwest b)), (lat (northeast b)); try discriminate.
      cbn [Rounded.sub]. pose proof (round_not_NaN (r0 - r)) as N.
      destruct (Rounded.round (r0 - r)); [congruence | discriminate ..].
    + destruct (lon (southwest b)), (lon (northeast b)); try discriminate.
      cbn [Rounded.sub]. pose proof (round_not_NaN (r0 - r)) as N.
      destruct (Rounded.round (r0 - r)); [congruence | discriminate ..].
  - intros Hlat Hlon Fw Fh. rewrite Ezoom. unfold latZoom, lonZoom.
    rewrite Hlat, Hlon.
    change (Rounded.sub (Rounded.Math_log2 (Rounded.div (Fin 360) (Fin 0)))
              (Rounded.Math_log2 (Rounded.div (Fin height) (Fin 256))))
      with (Rounded.zoomCandidate (Fin 0) (Fin height)).
    change (Rounded.sub (Rounded.Math_log2 (Rounded.div (Fin 360) (Fin 0)))
              (Rounded.Math_log2 (Rounded.div (Fin width) (Fin 256))))
      with (Rounded.zoomCandidate (Fin 0) (Fin width)).
    rewrite !rounded_zoomCandidate_zero_extent by assumption.
    simpl. rewrite (Rmax_IZR 1 20). reflexivity.
Qed.

End ZoomLevel.

Lemma calculateZoomLevel_clamped_witness :
  let b := {| southwest := {| lat := Fin 35; lon := Fin 136 |};
              northeast := {| lat := Fin 35; lon := Fin 136 |};
              CoordinateTransform.center := {| lat := Fin 35; lon := Fin 136 |} |} in
  Rounded.calculateZoomLevel (A := binary64_arithmetic) b
    (Some (Fin 640)) (Some (Fin 640)) = Fin 20.
Proof.
  refine (proj2 (proj2 (proj2 (proj2 (proj2 (proj2 (proj2
            (@calculateZoomLevel_clamped binary64_arithmetic _ 640 640 _ _)))))))
            _ _ _ _);
    try lra;
    try (apply (rounded_div_finite 640 256 2 3); lra || lia);
    cbn [lat lon southwest northeast]; rewrite rounded_sub_self;
    simpl; rewrite Rabs_R0; reflexivity.
Defined.


(** ** coordinateTransform.ts, without rounding *)

Section CoordinateTransformFacts.

Lemma log2_pixels (px : R) :
  0 < px -> log2 (div (Fin px) (Fin 256)) = Fin (ln (px / 256) / ln 2).
Proof.
  intros Hpx. rewrite div_Fin_pos by lra. unfold log2.
  destruct (Rlt_dec 0 (px / 256)) as [_ | H]; [reflexivity | ].
  exfalso. apply H. apply Rdiv_lt_0_compat; lra.
Qed.

Lemma calculateZoomLevel_unfold (b : LatLonBounds) (width height : num) :
  calculateZoomLevel b (Some width) (Some height) =
  max (Fin 1)
      (min (Fin 20)
           (floor (min (zoomCandidate (latDiff b) height)
                       (zoomCandidate (lonDiff b) width)))).
Proof. reflexivity. Qed.

(** An omitted [width] or [height] is 640. *)
Lemma calculateZoomLevel_default (b : LatLonBounds) :
  calculateZoomLevel b None None =
  calculateZoomLevel b (Some (Fin 640)) (Some (Fin 640)).
Proof. reflexivity. Qed.

(** A worked value: ten degrees on both axes in a 640 x 640 image give
    [floor(log2(36) - log2(2.5)) = floor(log2(14.4)) = 3]. *)
Example calculateZoomLevel_ten_degrees :
  calculateZoomLevel
    {| southwest := {| lat := Fin 35; lon := Fin 135 |};
       northeast := {| lat := Fin 45; lon := Fin 145 |};
       CoordinateTransform.center := {| lat := Fin 40; lon := Fin 140 |} |}
    None None = Fin 3.
Proof.
  rewrite calculateZoomLevel_default, calculateZoomLevel_unfold.
  unfold latDiff, lonDiff. cbn [lat lon southwest northeast sub abs].
  replace (Rabs (45 - 35)) with 10 by (rewrite Rabs_right; lra).
  replace (Rabs (145 - 135)) with 10 by (rewrite Rabs_right; lra).
  unfold zoomCandidate. rewrite log2_pixels by lra.
  rewrite div_Fin_pos by lra. unfold log2.
  destruct (Rlt_dec 0 (360 / 10)) as [_ | H]; [ | exfalso; lra].
  cbn [sub min floor]. rewrite (Rmin_left (_ - _) (_ - _)) by apply Rle_refl.
  pose proof ln_lt_2 as Hln2.
  assert (H8 : ln 8 = 3 * ln 2).
  { replace 8 with (2 * (2 * 2)) by lra. rewrite !ln_mult by lra. lra. }
  assert (H16 : ln 16 = 4 * ln 2).
  { replace 16 with (2 * (2 * (2 * 2))) by lra. rewrite !ln_mult by lra. lra. }
  assert (Hlo : ln 8 < ln (360 / 10) - ln (640 / 256)).
  { replace (360 / 10) with (14.4 * (640 / 256)) by lra.
    rewrite ln_mult by lra. pose proof (ln_increasing 8 14.4). lra. }
  assert (Hhi : ln (360 / 10) - ln (640 / 256) < ln 16).
  { replace (360 / 10) with (14.4 * (640 / 256)) by lra.
    rewrite ln_mult by lra. pose proof (ln_increasing 14.4 16). lra. }
  assert (Hfloor : Zfloor (ln (360 / 10) / ln 2 - ln (640 / 256) / ln 2) = 3%Z).
  { apply Zfloor_eq.
    replace (ln (360 / 10) / ln 2 - ln (640 / 256) / ln 2)
      with ((ln (360 / 10) - ln (640 / 256)) / ln 2) by (field; lra).
    split.
    - apply Rmult_le_reg_r with (ln 2); [lra | ].
      unfold Rdiv. rewrite Rmult_assoc, Rinv_l by lra. lra.
    - apply Rmult_lt_reg_r with (ln 2); [lra | ].
      unfold Rdiv at 1. rewrite Rmult_assoc, Rinv_l by lra. lra. }
  rewrite Hfloor. cbn [min max].
  rewrite (Rmin_IZR 20 3), (Rmax_IZR 1). reflexivity.
Qed.

End CoordinateTransformFacts.

(** ** loadAerialImagery.ts: the bounds scan *)

Section BoundsScan.

Variable center : num * num.

Lemma initialBounds_noNaN : noNaN initialBounds.
Proof. repeat split; discriminate. Qed.

Lemma widens_refl (b : PlanarBounds) : noNaN b -> widens b b.
Proof.
  intros (H1 & H2 & H3 & H4). unfold widens.
  destruct (minX b), (maxX b), (minY b), (maxY b);
    try congruence; simpl; repeat split; try exact I; lra.
Qed.

Lemma widens_trans (b1 b2 b3 : PlanarBounds) :
  widens b1 b2 -> widens b2 b3 -> widens b1 b3.
Proof.
  intros (A1 & A2 & A3 & A4) (B1 & B2 & B3 & B4).
  repeat split; eauto using leq_trans.
Qed.

(** One step of the scan: the bounds widen, stay free of [NaN], and hold
    the point just scanned. *)
Lemma scanPoint_step (b : PlanarBounds) (point : list num) :
  noNaN b -> isPoint center point ->
  widens b (scanPoint center b point)
  /\ noNaN (scanPoint center b point)
  /\ within (scanPoint center b point) (recentre center point).
Proof.
  intros (H1 & H2 & H3 & H4) [Hx Hy]. unfold recentre in Hx, Hy.
  simpl in Hx, Hy.
  unfold widens, noNaN, within, scanPoint, recentre; simpl.
  repeat split;
    auto using leq_min_l, leq_min_r, leq_max_l, leq_max_r,
               min_not_NaN, max_not_NaN.
Qed.

Lemma within_widens (b b' : PlanarBounds) (xy : num * num) :
  within b xy -> widens b b' -> within b' xy.
Proof.
  intros (A1 & A2 & A3 & A4) (B1 & B2 & B3 & B4).
  repeat split; eauto using leq_trans.
Qed.

Lemma scan_fold (points : list (list num)) :
  forall b : PlanarBounds,
    noNaN b -> Forall (isPoint center) points ->
    let b' := fold_left (scanPoint center) points b in
    widens b b' /\ noNaN b'
    /\ (forall point, In point points -> within b' (recentre center point)).
Proof.
  induction points as [ | p rest IH]; intros b Hb Hall; simpl.
  - split; [apply widens_refl; exact Hb | ]. split; [exact Hb | ].
    intros point [].
  - inversion Hall as [ | ? ? Hp Hrest]; subst.
    destruct (scanPoint_step b p Hb Hp) as (Hw & Hn & Hin).
    destruct (IH (scanPoint center b p) Hn Hrest) as (Hw' & Hn' & Hin').
    split; [eapply widens_trans; eassumption | ]. split; [exact Hn' | ].
    intros point [-> | Hmem].
    + eapply within_widens; eassumption.
    + apply Hin'. exact Hmem.
Qed.

(** The scan of the source is the fold over the first ring of every
    feature, and raises nothing when every feature has one. *)
Lemma scanFeatures_fold (features : FeatureCollection) :
  forall b : PlanarBounds,
    Forall hasRing features ->
    scanFeatures center features b =
    Some (fold_left (scanPoint center) (scannedPoints features) b).
Proof.
  induction features as [ | f rest IH]; intros b Hall; simpl.
  - reflexivity.
  - inversion Hall as [ | ? ? Hf Hrest]; subst.
    unfold scanFeature. unfold hasRing in Hf.
    destruct (coordinates f) as [ | ring others] eqn:E; [congruence | ].
    unfold scannedPoints. simpl. rewrite ?E. simpl.
    rewrite fold_left_app. apply IH. exact Hrest.
Qed.

(** A polygon without a ring makes the scan raise. *)
Lemma scanFeatures_raises (features : FeatureCollection) :
  forall b : PlanarBounds,
    Exists (fun f => coordinates f = []) features ->
    scanFeatures center features b = None.
Proof.
  induction features as [ | f rest IH]; intros b Hex.
  - inversion Hex.
  - simpl. unfold scanFeature.
    destruct (coordinates f) as [ | ring others] eqn:E; [reflexivity | ].
    apply IH. inversion Hex as [? ? H | ? ? H]; subst; [congruence | exact H].
Qed.

End BoundsScan.

(** C8, as stated, fails: the scan reads [coordinates[0]] only, so the
    bounds are not those of all coordinate pairs of the collection. *)
Lemma scan_skips_inner_rings :
  scanFeatures (Fin 0, Fin 0) twoRings initialBounds <>
  Some (boundsOfAllPairs (Fin 0, Fin 0) twoRings).
Proof.
  intros H. apply (f_equal (option_map maxX)) in H.
  unfold boundsOfAllPairs in H. simpl in H. revert H.
  unfold Rmax. split_reals; intros H; try (exfalso; lra); injection H; lra.
Qed.

(** C8, amended: when every polygon has a first ring the scan succeeds and
    its bounds are accumulated over the positions of the first ring of
    every feature, each re-centred by the scene origin; when no re-centred
    coordinate is [NaN], each further position only widens the bounds
    (minX/minY never increase, maxX/maxY never decrease) and every scanned
    re-centred point lies within the final bounds. *)
Theorem scan_bounds_monotonic :
  forall (center : num * num) (features : FeatureCollection),
    Forall hasRing features ->
    Forall (isPoint center) (scannedPoints features) ->
    exists b : PlanarBounds,
      scanFeatures center features initialBounds = Some b
      /\ b = fold_left (scanPoint center) (scannedPoints features) initialBounds
      /\ (forall before point after,
            scannedPoints features = (before ++ point :: after)%list ->
            let b0 := fold_left (scanPoint center) before initialBounds in
            widens b0 (scanPoint center b0 point)
            /\ widens (scanPoint center b0 point) b)
      /\ (forall point,
            In point (scannedPoints features) ->
            within b (recentre center point)).
Proof.
  intros center features Hring Hpts.
  exists (fold_left (scanPoint center) (scannedPoints features) initialBounds).
  split; [apply scanFeatures_fold; exact Hring | ].
  split; [reflexivity | ]. split.
  - intros before point after E b0. rewrite E in Hpts |- *.
    apply Forall_app in Hpts. destruct Hpts as [Hbefore Hrest].
    inversion Hrest as [ | ? ? Hp Hafter]; subst.
    destruct (scan_fold center before initialBounds initialBounds_noNaN Hbefore)
      as (_ & Hn0 & _).
    destruct (scanPoint_step center b0 point Hn0 Hp) as (Hw & Hn1 & _).
    split; [exact Hw | ].
    rewrite fold_left_app. simpl.
    apply (scan_fold center after (scanPoint center b0 point) Hn1 Hafter).
  - apply (scan_fold center (scannedPoints features) initialBounds
             initialBounds_noNaN Hpts).
Qed.

Lemma scan_bounds_monotonic_witness :
  exists b : PlanarBounds,
    scanFeatures (Fin 1, Fin 1) twoRings initialBounds = Some b
    /\ within b (recentre (Fin 1, Fin 1) [Fin 4; Fin 0]).
Proof.
  destruct (scan_bounds_monotonic (Fin 1, Fin 1) twoRings) as (b & E & _ & _ & H).
  - repeat constructor; discriminate.
  - repeat constructor; discriminate.
  - exists b. split; [exact E | ]. apply H. simpl. auto.
Defined.

(** ** loadAerialImagery.ts: placing the plane *)

Section Placement.

Lemma getObjectByName_app_None (s : Scene) (n : string) (g : Group) :
  getObjectByName s n = None -> name g = n ->
  getObjectByName (s ++ [g]) n = Some g.
Proof.
  intros Hnone Hname. induction s as [ | h rest IH]; simpl in *.
  - rewrite Hname, String.eqb_refl. reflexivity.
  - destruct (String.eqb (name h) n); [discriminate | auto].
Qed.

Lemma getObjectByName_addToNamed (s : Scene) (n : string) (m : Mesh) (g : Group) :
  getObjectByName s n = Some g ->
  getObjectByName (addToNamed s n m) n =
  Some {| name := name g; visible := visible g;
          children := children g ++ [m] |}.
Proof.
  induction s as [ | h rest IH]; simpl; [discriminate | ].
  destruct (String.eqb (name h) n) eqn:E; intros H.
  - injection H as <-. simpl. rewrite E. reflexivity.
  - simpl. rewrite E. auto.
Qed.

Lemma toggleCount_app (g1 g2 : GUI) :
  toggleCount (g1 ++ g2) = (toggleCount g1 + toggleCount g2)%nat.
Proof. unfold toggleCount. rewrite filter_app, length_app. reflexivity. Qed.

(** The first placement: the group is created with the plane alone and one
    checkbox is registered. *)
Lemma addToTerrain_first (m : Mesh) (w : World) :
  getObjectByName (scene w) "terrain" = None ->
  gui (addToTerrain m w) =
    gui w ++ [{| property := "aerialImagery"; label := "航空写真";
                 target := "terrain" |}]
  /\ getObjectByName (scene (addToTerrain m w)) "terrain" =
     Some {| name := "terrain"; visible := true; children := [m] |}.
Proof.
  intros H. unfold addToTerrain. rewrite H. simpl. split; [reflexivity | ].
  apply getObjectByName_app_None; [exact H | reflexivity].
Qed.

(** A later placement: the plane joins the group, the GUI is untouched. *)
Lemma addToTerrain_again (m : Mesh) (w : World) (g : Group) :
  getObjectByName (scene w) "terrain" = Some g ->
  gui (addToTerrain m w) = gui w
  /\ getObjectByName (scene (addToTerrain m w)) "terrain" =
     Some {| name := name g; visible := visible g;
             children := children g ++ [m] |}.
Proof.
  intros H. unfold addToTerrain. rewrite H. simpl. split; [reflexivity | ].
  apply getObjectByName_addToNamed. exact H.
Qed.

Lemma addToTerrain_counter (m : Mesh) (w : World) :
  Three.loadFileRemaining (addToTerrain m w) = Three.loadFileRemaining w.
Proof.
  unfold addToTerrain. destruct (getObjectByName (scene w) "terrain");
    reflexivity.
Qed.

(** Both branches of the settled request place [planeOf] by the shared
    block; the rest is logging. *)
Lemma settle_places (br : Browser) (p : Pending) (o : TextureOutcome) (w : World) :
  let w' := fst (createRealAerialImageryTexture_settle br p o w) in
  scene w' = scene (addToTerrain (planeOf br p o) w)
  /\ gui w' = gui (addToTerrain (planeOf br p o) w)
  /\ Three.loadFileRemaining w' = Three.loadFileRemaining w
  /\ snd (createRealAerialImageryTexture_settle br p o w) = Fulfilled.
Proof.
  destruct o; simpl; unfold createFallbackTexture, addToTerrain; simpl;
    destruct (getObjectByName (scene w) "terrain"); simpl; auto.
Qed.

Lemma settle_keeps_match (br : Browser) (p : Pending) (o : TextureOutcome)
    (w : World) :
  toggleMatchesGroup w ->
  let w' := fst (createRealAerialImageryTexture_settle br p o w) in
  toggleMatchesGroup w'
  /\ getObjectByName (scene w') "terrain" <> None
  /\ List.length (terrainPlanes (scene w')) =
     S (List.length (terrainPlanes (scene w))).
Proof.
  intros Hm w'. destruct (settle_places br p o w) as (Es & Eg & _ & _).
  fold w' in Es, Eg. unfold toggleMatchesGroup, terrainPlanes in *.
  rewrite Es, Eg.
  destruct (getObjectByName (scene w) "terrain") as [g | ] eqn:E.
  - destruct (addToTerrain_again (planeOf br p o) w g E) as [-> ->].
    simpl. rewrite length_app. simpl. split; [exact Hm | ].
    split; [discriminate | lia].
  - destruct (addToTerrain_first (planeOf br p o) w E) as [-> ->].
    rewrite toggleCount_app, Hm. simpl. split; [reflexivity | ].
    split; [discriminate | reflexivity].
Qed.

Lemma placeAll_keeps_match (br : Browser)
    (requests : list (Pending * TextureOutcome)) :
  forall w : World,
    toggleMatchesGroup w ->
    toggleMatchesGroup (placeAll br requests w)
    /\ List.length (terrainPlanes (scene (placeAll br requests w))) =
       (List.length (terrainPlanes (scene w)) + List.length requests)%nat
    /\ (requests <> [] ->
        getObjectByName (scene (placeAll br requests w)) "terrain" <> None).
Proof.
  induction requests as [ | r rest IH]; intros w Hm.
  - simpl. split; [exact Hm | ]. split; [lia | congruence].
  - destruct (settle_keeps_match br (fst r) (snd r) w Hm) as (Hm' & Hex & Hlen).
    destruct (IH _ Hm') as (Hm'' & Hlen' & Hex').
    unfold placeAll in *. simpl. split; [exact Hm'' | ].
    split; [rewrite Hlen', Hlen; lia | ].
    intros _. destruct rest as [ | r' rest'].
    + simpl. exact Hex.
    + apply Hex'. discriminate.
Qed.

(** C6: a placement into a scene without the group named "terrain" creates
    the group and registers exactly one checkbox; a placement into a scene
    that has the group adds the plane only and leaves the GUI as it is; so
    from a world where the checkbox is there exactly when the group is, no
    run of placements, loaded or fallback, yields a second checkbox. *)
Theorem terrain_toggle_registered_once :
  forall (br : Browser) (w : World)
         (requests : list (Pending * TextureOutcome)),
    toggleMatchesGroup w ->
    (forall p o,
       getObjectByName (scene w) "terrain" = None ->
       let w' := fst (createRealAerialImageryTexture_settle br p o w) in
       toggleCount (gui w') = S (toggleCount (gui w))
       /\ terrainPlanes (scene w') = [planeOf br p o])
    /\ (forall p o g,
          getObjectByName (scene w) "terrain" = Some g ->
          let w' := fst (createRealAerialImageryTexture_settle br p o w) in
          gui w' = gui w
          /\ terrainPlanes (scene w') = children g ++ [planeOf br p o])
    /\ (toggleCount (gui (placeAll br requests w)) <= 1)%nat
    /\ (requests <> [] -> toggleCount (gui (placeAll br requests w)) = 1%nat)
    /\ List.length (terrainPlanes (scene (placeAll br requests w))) =
       (List.length (terrainPlanes (scene w)) + List.length requests)%nat.
Proof.
  intros br w requests Hm. split; [ | split].
  - intros p o E w'. destruct (settle_places br p o w) as (Es & Eg & _ & _).
    fold w' in Es, Eg. unfold terrainPlanes. rewrite Es, Eg.
    destruct (addToTerrain_first (planeOf br p o) w E) as [-> ->].
    rewrite toggleCount_app, Nat.add_comm. split; reflexivity.
  - intros p o g E w'. destruct (settle_places br p o w) as (Es & Eg & _ & _).
    fold w' in Es, Eg. unfold terrainPlanes. rewrite Es, Eg.
    destruct (addToTerrain_again (planeOf br p o) w g E) as [-> ->].
    split; reflexivity.
  - destruct (placeAll_keeps_match br requests w Hm) as (Hm' & Hlen & Hex).
    unfold toggleMatchesGroup in Hm'. split; [ | split].
    + rewrite Hm'. destruct (getObjectByName _ _); lia.
    + intros Hne. rewrite Hm'. specialize (Hex Hne).
      destruct (getObjectByName _ _); [reflexivity | congruence].
    + exact Hlen.
Qed.

Lemma terrain_toggle_registered_once_witness :
  toggleCount
    (gui (placeAll plainBrowser
            [(samplePending, TextureRejected); (samplePending, TextureLoaded);
             (samplePending, TextureRejected)] emptyWorld)) = 1%nat.
Proof.
  apply (terrain_toggle_registered_once plainBrowser emptyWorld
           [(samplePending, TextureRejected); (samplePending, TextureLoaded);
            (samplePending, TextureRejected)]).
  - reflexivity.
  - discriminate.
Defined.

End Placement.

(** ** loadAerialImagery.ts: the provider URL *)

Section ProviderUrl.

Variable numberToString : num -> string.

Lemma tileX_finite (lon zoom : R) :
  tileX (Fin lon) (Fin zoom) = Fin (IZR (slippyTileX lon zoom)).
Proof.
  unfold tileX, slippyTileX. cbn [add pow2].
  rewrite div_Fin_pos by lra. reflexivity.
Qed.

Lemma mercator_argument_positive (phi : R) :
  - Rtrigo1.PI / 2 < phi < Rtrigo1.PI / 2 ->
  0 < Rtrigo_def.cos phi
  /\ 0 < Rtrigo1.tan phi + 1 / Rtrigo_def.cos phi.
Proof.
  intros [Hlo Hhi].
  assert (Hc : 0 < Rtrigo_def.cos phi) by (apply cos_gt_0; lra).
  split; [exact Hc | ].
  assert (Hs : -1 < sin phi).
  { pose proof (sin2_cos2 phi) as H. unfold Rsqr in H. nra. }
  unfold Rtrigo1.tan.
  replace (sin phi / Rtrigo_def.cos phi + 1 / Rtrigo_def.cos phi)
    with ((sin phi + 1) / Rtrigo_def.cos phi) by (field; lra).
  apply Rdiv_lt_0_compat; lra.
Qed.

Lemma tileY_finite (lat zoom : R) :
  -90 < lat < 90 ->
  tileY (Fin lat) (Fin zoom) = Fin (IZR (slippyTileY lat zoom)).
Proof.
  intros [Hlo Hhi]. pose proof PI_RGT_0 as Hpi.
  assert (Hphi : - Rtrigo1.PI / 2 < lat * Rtrigo1.PI / 180 < Rtrigo1.PI / 2)
    by (split; nra).
  destruct (mercator_argument_positive _ Hphi) as [Hc Ht].
  unfold tileY, slippyTileY, PI. cbn [mul pow2].
  rewrite (div_Fin_pos _ 180) by lra. cbn [tan cos].
  rewrite (div_Fin_pos 1 _ Hc). cbn [add]. unfold log.
  destruct (Rlt_dec 0 _) as [_ | H]; [ | contradiction].
  rewrite (div_Fin_pos _ Rtrigo1.PI Hpi). cbn [sub].
  rewrite (div_Fin_pos _ 2) by lra. reflexivity.
Qed.

End ProviderUrl.


Section ProviderChoice.

Context {A : Rounded.Arithmetic}.

Variable numberToString : num -> string.


End ProviderChoice.


(** ** loadAerialImagery.ts: from the terrain file to the placed plane *)

Section ImageryPath.

Variable numberToString : num -> string.
Variable br : Browser.

(** The part that runs inside the callback logs and nothing else. *)
Lemma start_only_logs (lat lon : num) (b : PlanarBounds) (w : World) :
  let w1 := fst (createRealAerialImageryTexture_start numberToString br lat lon b w) in
  scene w1 = scene w /\ gui w1 = gui w
  /\ Three.loadFileRemaining w1 = Three.loadFileRemaining w.
Proof.
  unfold createRealAerialImageryTexture_start.
  destruct (getAerialImageUrl _ _ _ _ _ _) as [imageUrl used]. simpl. auto.
Qed.

(** With usable terrain data the callback starts the texture creation and
    decrements the counter at once, before anything is placed. *)
Lemma onTerrainLoaded_started (center : num * num) (lat lon : num)
    (fgData : FeatureCollection) (w : World) :
  Forall hasRing fgData ->
  exists w1 p,
    onTerrainLoaded numberToString br center lat lon fgData w = Started w1 p
    /\ Three.loadFileRemaining w1 = (Three.loadFileRemaining w - 1)%Z
    /\ scene w1 = scene w /\ gui w1 = gui w.
Proof.
  intros Hring. unfold onTerrainLoaded.
  rewrite (scanFeatures_fold center fgData initialBounds Hring).
  pose proof (start_only_logs lat lon
                (fold_left (scanPoint center) (scannedPoints fgData) initialBounds)
                w) as H.
  destruct (createRealAerialImageryTexture_start _ _ _ _ _ _) as [w1 p].
  simpl in H. destruct H as (Hs & Hg & Hc).
  eexists. eexists. split; [reflexivity | ]. simpl. rewrite Hc. auto.
Qed.

Lemma addToTerrain_In (m : Mesh) (w : World) :
  In m (terrainPlanes (scene (addToTerrain m w))).
Proof.
  unfold terrainPlanes.
  destruct (getObjectByName (scene w) "terrain") as [g | ] eqn:E.
  - destruct (addToTerrain_again m w g E) as [_ ->]. simpl.
    apply in_or_app. right. left. reflexivity.
  - destruct (addToTerrain_first m w E) as [_ ->]. left. reflexivity.
Qed.

(** A terrain file that fails to load, or whose polygon has no ring, runs
    or completes no callback: the counter keeps its value. *)
Lemma loadAerialImagery_no_callback (center : num * num) (lat lon : num)
    (texture : TextureOutcome) (w : World) :
  loadAerialImagery numberToString br center lat lon FileFailed texture w = w
  /\ (forall fgData,
        Exists (fun f => coordinates f = []) fgData ->
        loadAerialImagery numberToString br center lat lon
          (FileLoaded fgData) texture w = w).
Proof.
  split; [reflexivity | ]. intros fgData Hex.
  unfold loadAerialImagery, onTerrainLoaded.
  rewrite (scanFeatures_raises center fgData initialBounds Hex). reflexivity.
Qed.

(** C4, amended: for terrain data whose polygons all have a first ring,
    the callback of the terrain-file load starts the texture creation and
    decrements the counter exactly once, at once and before anything is
    placed; whichever way the image request then settles, the promise is
    fulfilled, a rejected request is replaced by the generated canvas
    texture, the plane ends in the group named "terrain", and the counter
    stays one below its initial value. *)
Theorem imagery_failure_handled_locally :
  forall (center : num * num) (lat lon : num) (fgData : FeatureCollection)
         (texture : TextureOutcome) (w : World),
    Forall hasRing fgData ->
    exists (w1 : World) (p : Pending),
      onTerrainLoaded numberToString br center lat lon fgData w = Started w1 p
      /\ Three.loadFileRemaining w1 = (Three.loadFileRemaining w - 1)%Z
      /\ scene w1 = scene w /\ gui w1 = gui w
      /\ let settled :=
           createRealAerialImageryTexture_settle br p texture
             (createRealAerialImageryTexture_request p w1) in
         let final :=
           loadAerialImagery numberToString br center lat lon
             (FileLoaded fgData) texture w in
         snd settled = Fulfilled
         /\ final = fst settled
         /\ Three.loadFileRemaining final = (Three.loadFileRemaining w - 1)%Z
         /\ In (planeOf br p texture) (terrainPlanes (scene final))
         /\ map (material (planeOf br p TextureRejected)) =
            CanvasTexture (fallbackCanvas br (p_lat p) (p_lon p))
         /\ map (material (planeOf br p TextureLoaded)) =
            ImageTexture (p_imageUrl p).
Proof.
  intros center lat lon fgData texture w Hring.
  destruct (onTerrainLoaded_started center lat lon fgData w Hring)
    as (w1 & p & E & Hc & Hs & Hg).
  exists w1, p. split; [exact E | ]. split; [exact Hc | ].
  split; [exact Hs | ]. split; [exact Hg | ].
  intros settled final.
  destruct (settle_places br p texture (createRealAerialImageryTexture_request p w1))
    as (Es & _ & Ec & Ef).
  fold settled in Es, Ec, Ef.
  assert (Efinal : final = fst settled).
  { unfold final, loadAerialImagery. rewrite E. fold settled.
    destruct settled as [w3 s]. simpl in Ef. subst s. reflexivity. }
  split; [exact Ef | ]. split; [exact Efinal | ].
  rewrite Efinal. split; [rewrite Ec; exact Hc | ].
  split; [rewrite Es; apply addToTerrain_In | ].
  split; reflexivity.
Qed.

End ImageryPath.

(** The terrain-file load of the source decrements the counter by one. *)
Lemma loadAerialImagery_decrements_once (numberToString : num -> string)
    (br : Browser) (center : num * num) (lat lon : num)
    (fgData : FeatureCollection) (texture : TextureOutcome) (w : World) :
  Forall hasRing fgData ->
  Three.loadFileRemaining
    (loadAerialImagery numberToString br center lat lon (FileLoaded fgData)
       texture w)
  = (Three.loadFileRemaining w - 1)%Z.
Proof.
  intros Hring.
  destruct (onTerrainLoaded_started numberToString br center lat lon fgData w
              Hring) as (w1 & p & E & Hc & _).
  unfold loadAerialImagery. rewrite E.
  destruct (settle_places br p texture
              (createRealAerialImageryTexture_request p w1)) as (_ & _ & Ec & Ef).
  destruct (createRealAerialImageryTexture_settle _ _ _ _) as [w3 s].
  simpl in Ec, Ef. subst s. simpl. rewrite Ec. exact Hc.
Qed.

Lemma imagery_failure_handled_locally_witness :
  exists (w1 : World) (p : Pending),
    onTerrainLoaded (fun _ => "n"%string) plainBrowser (Fin 0, Fin 0)
      (Fin 35) (Fin 136) twoRings emptyWorld = Started w1 p
    /\ Three.loadFileRemaining w1 = 6%Z.
Proof.
  destruct (imagery_failure_handled_locally (fun _ => "n"%string) plainBrowser
              (Fin 0, Fin 0) (Fin 35) (Fin 136) twoRings TextureRejected
              emptyWorld)
    as (w1 & p & E & Hc & _).
  - repeat constructor; discriminate.
  - exists w1, p. split; [exact E | exact Hc].
Defined.

(** C4, as stated, fails: when the callback of the terrain-file load
    returns, the counter is already decremented while the image request is
    still outstanding and no plane is placed; the decrement does not wait
    for the placed state. *)
Lemma counter_decremented_before_placement :
  exists (w1 : World) (p : Pending),
    onTerrainLoaded (fun _ => "n"%string) plainBrowser (Fin 0, Fin 0)
      (Fin 35) (Fin 136) twoRings emptyWorld = Started w1 p
    /\ Three.loadFileRemaining w1 = 6%Z
    /\ terrainPlanes (scene w1) = []
    /\ ~ decrementedOnPlaced emptyWorld w1.
Proof.
  destruct (onTerrainLoaded_started (fun _ => "n"%string) plainBrowser
              (Fin 0, Fin 0) (Fin 35) (Fin 136) twoRings emptyWorld)
    as (w1 & p & E & Hc & Hs & _).
  - repeat constructor; discriminate.
  - exists w1, p. split; [exact E | ]. split; [exact Hc | ].
    assert (Hnone : terrainPlanes (scene w1) = []) by (rewrite Hs; reflexivity).
    split; [exact Hnone | ].
    unfold decrementedOnPlaced. intros H. apply H; [ | exact Hnone].
    rewrite Hc. simpl. lia.
Qed.

(** ** ThreeScene: the scene origin, the early return, the load counter *)

Section SceneLifecycle.

Variable calculateCenterPoint : list string -> num * num.
Variable getFloorNumber : string -> option Z.

Lemma eqb_zero (a : num) : eqb a (Fin 0) = true <-> a = Fin 0.
Proof.
  destruct a; simpl; try (split; discriminate).
  destruct (Req_dec_T r 0) as [-> | H]; split; intros E;
    try reflexivity; try discriminate.
  injection E as E. contradiction.
Qed.

(** C9: with a centre declared in the descriptor the first effect sets the
    scene origin to exactly that point and runs no scan of the geometry
    files; the scan runs only when no centre is declared, and then the
    origin is what it computes. *)
Theorem declared_center_used_without_scan :
  forall (d : ThreeScene.FileStructure) (st : ThreeScene.State),
    let result :=
      ThreeScene.resolveCenterEffect calculateCenterPoint (Some d) st in
    (forall c : num * num,
       ThreeScene.center d = Some c ->
       ThreeScene.centerState (fst result) = c /\ snd result = [])
    /\ (ThreeScene.center d = None ->
        ThreeScene.centerState (fst result) =
          calculateCenterPoint (ThreeScene.geoFilesOf d)
        /\ snd result =
           [ThreeScene.CalculateCenterPoint (ThreeScene.geoFilesOf d)])
    /\ (forall files,
          In (ThreeScene.CalculateCenterPoint files) (snd result) ->
          ThreeScene.center d = None)
    /\ ThreeScene.loadFileRemaining (fst result) =
       ThreeScene.loadFileRemaining st.
Proof.
  intros d st result. unfold result, ThreeScene.resolveCenterEffect.
  destruct (ThreeScene.center d) as [c | ]; simpl.
  - split; [intros c' E; injection E as <-; auto | ].
    split; [discriminate | ]. split; [intros files [] | reflexivity].
  - split; [discriminate | ]. split; [auto | ]. split; reflexivity.
Qed.

Lemma settleAll_nil (remaining : Z) : ThreeScene.settleAll [] remaining = remaining.
Proof. reflexivity. Qed.

(** The calls of the effect once it is past its early returns. *)
Lemma sceneSetupEffect_proceeds (d : ThreeScene.FileStructure)
    (st : ThreeScene.State) :
  ThreeScene.originResolved st ->
  ThreeScene.sceneSetupEffect getFloorNumber (Some d) true true st =
  (List.map
     (fun f => ThreeScene.LoadAndAddToScene f (ThreeScene.centerState st)
                 (ThreeScene.floorNumberOf getFloorNumber f)
                 (ThreeScene.depthOf f))
     (ThreeScene.geoFilesOf d)
   ++ [ThreeScene.LoadGUI
         (fold_left (ThreeScene.pushFloor getFloorNumber)
            (ThreeScene.geoFilesOf d) [])]
   ++ (match ThreeScene.networkFileOf d with
       | Some (node, link) =>
           [ThreeScene.LoadNetworkFile node link (ThreeScene.centerState st)]
       | None => []
       end)
   ++ (if truthy (ThreeScene.terrainFileOf d)
       then [ThreeScene.LoadTerrainFile
               (match ThreeScene.terrainFileOf d with
                | Some t => t
                | None => EmptyString
                end)
               (ThreeScene.centerState st)]
       else []))%list.
Proof.
  intros H. unfold ThreeScene.originResolved in H.
  unfold ThreeScene.sceneSetupEffect. simpl. rewrite H. reflexivity.
Qed.

(** C10: when the resolved scene origin is exactly (0, 0), declared or
    computed, the set-up effect returns before it starts any load, so the
    counter keeps its initial value; whenever the effect starts something,
    at least one coordinate of the origin is not zero, and with a nonzero
    origin, a mounted container and an initialised renderer it does start
    the loads. *)
Theorem zero_origin_starts_nothing :
  forall (selectedData : option ThreeScene.FileStructure)
         (containerReady rendererReady : bool) (st : ThreeScene.State),
    let calls :=
      ThreeScene.sceneSetupEffect getFloorNumber selectedData containerReady
        rendererReady st in
    (ThreeScene.centerState st = (Fin 0, Fin 0) ->
     calls = []
     /\ ThreeScene.settleAll calls (ThreeScene.loadFileRemaining st) =
        ThreeScene.loadFileRemaining st)
    /\ (forall d,
          selectedData = Some d ->
          ThreeScene.centerState
            (fst (ThreeScene.resolveCenterEffect calculateCenterPoint
                    (Some d) (ThreeScene.initialState d))) = (Fin 0, Fin 0) ->
          ThreeScene.sceneSetupEffect getFloorNumber selectedData
            containerReady rendererReady
            (fst (ThreeScene.resolveCenterEffect calculateCenterPoint
                    (Some d) (ThreeScene.initialState d))) = []
          /\ ThreeScene.loadFileRemaining
               (fst (ThreeScene.resolveCenterEffect calculateCenterPoint
                       (Some d) (ThreeScene.initialState d))) =
             Z.of_nat (ThreeScene.totalFileCount d))
    /\ (calls <> [] ->
        fst (ThreeScene.centerState st) <> Fin 0
        \/ snd (ThreeScene.centerState st) <> Fin 0)
    /\ (forall d,
          selectedData = Some d -> containerReady = true ->
          rendererReady = true ->
          fst (ThreeScene.centerState st) <> Fin 0
          \/ snd (ThreeScene.centerState st) <> Fin 0 ->
          calls <> []
          /\ forall f, In f (ThreeScene.geoFilesOf d) ->
               In (ThreeScene.LoadAndAddToScene f (ThreeScene.centerState st)
                     (ThreeScene.floorNumberOf getFloorNumber f)
                     (ThreeScene.depthOf f)) calls).
Proof.
  intros selectedData containerReady rendererReady st calls.
  assert (Hzero : forall st', ThreeScene.centerState st' = (Fin 0, Fin 0) ->
            ThreeScene.sceneSetupEffect getFloorNumber selectedData
              containerReady rendererReady st' = []).
  { intros st' E. unfold ThreeScene.sceneSetupEffect.
    destruct selectedData as [d | ]; [ | reflexivity].
    destruct containerReady; [ | reflexivity]. simpl. rewrite E. simpl.
    destruct (Req_dec_T 0 0) as [_ | H]; [reflexivity | congruence]. }
  split; [ | split; [ | split]].
  - intros E. unfold calls. rewrite (Hzero st E). split; reflexivity.
  - intros d _ E. split; [apply Hzero; exact E | ].
    unfold ThreeScene.resolveCenterEffect.
    destruct (ThreeScene.center d); reflexivity.
  - intros Hne.
    destruct (eqb (fst (ThreeScene.centerState st)) (Fin 0)) eqn:E1.
    + destruct (eqb (snd (ThreeScene.centerState st)) (Fin 0)) eqn:E2.
      * exfalso. apply Hne. apply Hzero.
        apply eqb_zero in E1. apply eqb_zero in E2.
        destruct (ThreeScene.centerState st) as [x y]. simpl in *. congruence.
      * right. intros E. apply eqb_zero in E. congruence.
    + left. intros E. apply eqb_zero in E. congruence.
  - intros d -> -> -> Hnz.
    assert (Hres : ThreeScene.originResolved st).
    { unfold ThreeScene.originResolved. apply andb_false_iff.
      destruct Hnz as [H | H]; [left | right];
        apply not_true_is_false; intros E; apply eqb_zero in E; contradiction. }
    unfold calls. rewrite (sceneSetupEffect_proceeds d st Hres). split.
    + intros E. apply app_eq_nil in E. destruct E as [_ E]. discriminate E.
    + intros f Hf. apply in_or_app. left.
      apply (in_map
               (fun f0 =>
                  ThreeScene.LoadAndAddToScene f0 (ThreeScene.centerState st)
                    (ThreeScene.floorNumberOf getFloorNumber f0)
                    (ThreeScene.depthOf f0))).
      exact Hf.
Qed.

End SceneLifecycle.

Lemma declared_center_used_without_scan_witness :
  let result :=
    ThreeScene.resolveCenterEffect (fun _ => (Fin 0, Fin 0))
      (Some ThreeScene.NagoyaUnimall)
      (ThreeScene.initialState ThreeScene.NagoyaUnimall) in
  ThreeScene.centerState (fst result) =
    (Fin (-268478.06882765563), Fin (-87917.488896069))
  /\ snd result = [].
Proof.
  apply (declared_center_used_without_scan (fun _ => (Fin 0, Fin 0))
           ThreeScene.NagoyaUnimall
           (ThreeScene.initialState ThreeScene.NagoyaUnimall)).
  reflexivity.
Defined.

Lemma zero_origin_starts_nothing_witness :
  ThreeScene.sceneSetupEffect (fun _ => None) (Some ThreeScene.NagoyaUnimall)
    true true (ThreeScene.initialState ThreeScene.NagoyaUnimall) = []
  /\ ThreeScene.settleAll
       (ThreeScene.sceneSetupEffect (fun _ => None)
          (Some ThreeScene.NagoyaUnimall) true true
          (ThreeScene.initialState ThreeScene.NagoyaUnimall)) 13 = 13%Z.
Proof.
  apply (zero_origin_starts_nothing (fun _ => (Fin 0, Fin 0)) (fun _ => None)
           (Some ThreeScene.NagoyaUnimall) true true
           (ThreeScene.initialState ThreeScene.NagoyaUnimall)).
  reflexivity.
Defined.

(** ** ThreeScene: the load counter *)

Section LoadCounter.

Variable getFloorNumber : string -> option Z.

Lemma append_nonempty (s t : string) : t <> EmptyString -> (s ++ t)%string <> EmptyString.
Proof.
  intros Ht. destruct s as [ | a s']; simpl; [exact Ht | discriminate].
Qed.

Lemma truthy_terrainFileOf (d : ThreeScene.FileStructure) :
  truthy (ThreeScene.terrainFileOf d) = truthy (ThreeScene.terrainFile d).
Proof.
  unfold ThreeScene.terrainFileOf.
  destruct (ThreeScene.terrainFile d) as [t | ] eqn:E; [ | reflexivity].
  destruct (truthy (Some t)) eqn:Et; [ | reflexivity].
  simpl in *. apply negb_true_iff in Et. apply negb_true_iff.
  apply String.eqb_neq in Et. apply String.eqb_neq.
  apply append_nonempty. exact Et.
Qed.

Lemma settle_swap (r : Z) (x y : ThreeScene.Call) :
  ThreeScene.settle (ThreeScene.settle r x) y =
  ThreeScene.settle (ThreeScene.settle r y) x.
Proof.
  unfold ThreeScene.settle.
  destruct (ThreeScene.isLoad x), (ThreeScene.isLoad y); lia.
Qed.

(** The order of completion does not matter. *)
Lemma settleAll_order (l l' : list ThreeScene.Call) :
  Permutation l l' ->
  forall r : Z, ThreeScene.settleAll l r = ThreeScene.settleAll l' r.
Proof.
  unfold ThreeScene.settleAll.
  induction 1 as [ | x l l' _ IH | x y l | l l' l'' _ IH1 _ IH2]; intros r; simpl.
  - reflexivity.
  - apply IH.
  - rewrite settle_swap. reflexivity.
  - rewrite IH1. apply IH2.
Qed.

Lemma settleAll_count (l : list ThreeScene.Call) :
  forall r : Z,
    ThreeScene.settleAll l r =
    (r - Z.of_nat (List.length (filter ThreeScene.isLoad l)))%Z.
Proof.
  unfold ThreeScene.settleAll.
  induction l as [ | c rest IH]; intros r; simpl; [lia | ].
  rewrite IH. unfold ThreeScene.settle.
  destruct (ThreeScene.isLoad c); simpl List.length; lia.
Qed.

Lemma filter_isLoad_geo (c : num * num) (files : list string) :
  filter ThreeScene.isLoad
    (List.map
       (fun f => ThreeScene.LoadAndAddToScene f c
                   (ThreeScene.floorNumberOf getFloorNumber f)
                   (ThreeScene.depthOf f)) files) =
  List.map
    (fun f => ThreeScene.LoadAndAddToScene f c
                (ThreeScene.floorNumberOf getFloorNumber f)
                (ThreeScene.depthOf f)) files.
Proof.
  induction files as [ | f rest IH]; simpl; [reflexivity | ].
  rewrite IH. reflexivity.
Qed.

(** The effect starts as many load operations as the counter is set to. *)
Lemma started_loads_count (d : ThreeScene.FileStructure) (st : ThreeScene.State) :
  ThreeScene.originResolved st ->
  List.length
    (filter ThreeScene.isLoad
       (ThreeScene.sceneSetupEffect getFloorNumber (Some d) true true st)) =
  ThreeScene.totalFileCount d.
Proof.
  intros H. rewrite (sceneSetupEffect_proceeds getFloorNumber d st H).
  rewrite !filter_app, filter_isLoad_geo, !length_app, length_map.
  unfold ThreeScene.totalFileCount.
  destruct (ThreeScene.networkFileOf d) as [[node link] | ];
    destruct (truthy (ThreeScene.terrainFileOf d)); simpl; lia.
Qed.

(** C5: the counter starts at the number of geometry files, plus one for a
    node/link pair, plus one for a terrain file; a completed operation
    lowers it by one and nothing raises it; and once the operations that
    the set-up effect started have completed, in whatever order, it is 0.
    The terrain-file load of the source lowers it as the model of the
    loaders says. *)
Theorem load_counter_reaches_zero :
  forall (d : ThreeScene.FileStructure) (st : ThreeScene.State)
         (order : list ThreeScene.Call),
    ThreeScene.originResolved st ->
    Permutation order
      (ThreeScene.sceneSetupEffect getFloorNumber (Some d) true true st) ->
    ThreeScene.loadFileRemaining (ThreeScene.initialState d) =
      Z.of_nat (ThreeScene.totalFileCount d)
    /\ ThreeScene.totalFileCount d =
       (List.length (ThreeScene.geoFiles d)
        + (match ThreeScene.networkFile d with Some _ => 1 | None => 0 end)
        + (if truthy (ThreeScene.terrainFile d) then 1 else 0))%nat
    /\ (forall (r : Z) (c : ThreeScene.Call),
          (ThreeScene.settle r c <= r)%Z
          /\ (ThreeScene.isLoad c = true ->
              ThreeScene.settle r c = (r - 1)%Z))
    /\ ThreeScene.settleAll order
         (ThreeScene.loadFileRemaining (ThreeScene.initialState d)) = 0%Z
    /\ (forall numberToString br c lat lon fgData texture w t,
          Forall hasRing fgData ->
          Three.loadFileRemaining
            (loadAerialImagery numberToString br c lat lon (FileLoaded fgData)
               texture w) =
          ThreeScene.settle (Three.loadFileRemaining w)
            (ThreeScene.LoadTerrainFile t c)).
Proof.
  intros d st order Hres Hperm.
  split; [reflexivity | ]. split.
  { unfold ThreeScene.totalFileCount. rewrite truthy_terrainFileOf.
    unfold ThreeScene.geoFilesOf, ThreeScene.networkFileOf.
    rewrite length_map.
    destruct (ThreeScene.networkFile d) as [[node link] | ]; reflexivity. }
  split.
  { intros r c. unfold ThreeScene.settle.
    destruct (ThreeScene.isLoad c); split; intros; try lia; discriminate. }
  split.
  { rewrite (settleAll_order _ _ Hperm), settleAll_count.
    rewrite (started_loads_count d st Hres). simpl. lia. }
  intros numberToString br c lat lon fgData texture w t Hring.
  rewrite (loadAerialImagery_decrements_once numberToString br c lat lon
             fgData texture w Hring).
  reflexivity.
Qed.

End LoadCounter.

Lemma load_counter_reaches_zero_witness :
  let st :=
    fst (ThreeScene.resolveCenterEffect (fun _ => (Fin 0, Fin 0))
           (Some ThreeScene.NagoyaUnimall)
           (ThreeScene.initialState ThreeScene.NagoyaUnimall)) in
  ThreeScene.loadFileRemaining (ThreeScene.initialState ThreeScene.NagoyaUnimall)
    = 13%Z
  /\ ThreeScene.settleAll
       (rev (ThreeScene.sceneSetupEffect (fun _ => None)
               (Some ThreeScene.NagoyaUnimall) true true st))
       (ThreeScene.loadFileRemaining
          (ThreeScene.initialState ThreeScene.NagoyaUnimall)) = 0%Z.
Proof.
  intros st. split; [reflexivity | ].
  apply (load_counter_reaches_zero (fun _ => None) ThreeScene.NagoyaUnimall st).
  - unfold ThreeScene.originResolved, st. simpl.
    destruct (Req_dec_T _ 0) as [E | _]; [lra | reflexivity].
  - apply Permutation_sym. apply Permutation_rev.
Defined.

(** ** The reading without rounding *)

Section ExactReading.

(** The embedding over [JS] is the one over [Rounded] in the arithmetic
    without rounding. *)
Lemma exact_operations :
  @Rounded.add Rounded.Exact = add /\ @Rounded.sub Rounded.Exact = sub
  /\ @Rounded.mul Rounded.Exact = mul /\ @Rounded.div Rounded.Exact = div
  /\ @Rounded.PI Rounded.Exact = PI.
Proof. repeat split. Qed.

Lemma exact_coordinateTransform :
  @Rounded.transformToLatLon Rounded.Exact = transformToLatLon
  /\ @Rounded.calculateLatLonBounds Rounded.Exact = calculateLatLonBounds
  /\ @Rounded.calculateZoomLevel Rounded.Exact = calculateZoomLevel.
Proof. repeat split. Qed.

Lemma exact_getAerialImageUrl :
  @Rounded.tileX Rounded.Exact = tileX
  /\ @Rounded.tileY Rounded.Exact = tileY
  /\ @Rounded.getAerialImageUrl Rounded.Exact = getAerialImageUrl.
Proof. repeat split. Qed.

End ExactReading.

(** ** Worked values *)

Example transformToLatLon_one_degree :
  transformToLatLon (Fin 91290) (Fin 111320) (Fin 35) (Fin 136) =
  {| lat := Fin 36; lon := Fin 137 |}.
Proof.
  unfold transformToLatLon, meterPerDegreeLat, meterPerDegreeLon.
  rewrite !div_Fin_pos by lra. cbn [add]. f_equal; f_equal; field.
Qed.

Example tileX_greenwich_zoom_one : tileX (Fin 0) (Fin 1) = Fin 1.
Proof.
  rewrite tileX_finite. unfold slippyTileX.
  rewrite Rpower_1 by lra. f_equal. f_equal. apply Zfloor_eq. lra.
Qed.

Example floor_file_is_shallow :
  ThreeScene.depthOf "/NagoyaUnimall/UniMall_B1_Floor.geojson" = Fin 0.5
  /\ ThreeScene.depthOf "/NagoyaUnimall/UniMall_B1_Floor_Connect.geojson" = Fin 7.
Proof. split; reflexivity. Qed.

Example NagoyaUnimall_total : ThreeScene.totalFileCount ThreeScene.NagoyaUnimall = 13%nat.
Proof. reflexivity. Qed.

Example fallback_draws_36_shapes :
  List.length (drawn (fallbackCanvas plainBrowser (Fin 35.17) (Fin 136.88))) = 36%nat
  /\ baseColor (Fin 35.17) (Fin 136.88) = "#8FBC8F"%string.
Proof.
  split; [reflexivity | ]. unfold baseColor, gtb.
  repeat match goal with
         | |- context [Rlt_dec ?a ?b] => destruct (Rlt_dec a b); try lra
         end.
  reflexivity.
Qed.

(* ===================================================================== *)
(** * Part III: further properties of the code *)
(* ===================================================================== *)

(** ** coordinateTransform.ts: the zoom level *)

Section ZoomFacts.

Lemma abs_sub_swap (a b : num) : abs (sub a b) = abs (sub b a).
Proof.
  destruct a, b; simpl; try reflexivity. f_equal. apply Rabs_minus_sym.
Qed.

(** X1: the zoom level does not change when the two corners of the bounds
    are exchanged: only the absolute differences are read. *)
Theorem calculateZoomLevel_corner_order_irrelevant :
  forall (b : LatLonBounds) (width height : option num),
    calculateZoomLevel (swapCorners b) width height =
    calculateZoomLevel b width height.
Proof.
  intros b width height. unfold calculateZoomLevel.
  replace (latDiff (swapCorners b)) with (latDiff b)
    by (unfold latDiff, swapCorners; simpl; apply abs_sub_swap).
  replace (lonDiff (swapCorners b)) with (lonDiff b)
    by (unfold lonDiff, swapCorners; simpl; apply abs_sub_swap).
  reflexivity.
Qed.

Lemma leq_refl (a : num) : a <> NaN -> leq a a.
Proof. destruct a; simpl; intros H; try congruence; try exact I; lra. Qed.

Lemma floor_mono (a b : num) : leq a b -> leq (floor a) (floor b).
Proof.
  destruct a, b; simpl; intros H; try contradiction; try exact I.
  apply IZR_le. apply Zfloor_le. exact H.
Qed.

End ZoomFacts.

(** ** loadAerialImagery.ts: the bounds are attained *)

Section ScanAttained.

Variable center : num * num.

Lemma min_cases (a b : num) :
  a <> NaN -> b <> NaN -> min a b = a \/ min a b = b.
Proof.
  destruct a as [ | | | x], b as [ | | | y]; simpl; intros Ha Hb;
    try congruence; auto.
  unfold Rmin. destruct (Rle_dec x y); auto.
Qed.

Lemma max_cases (a b : num) :
  a <> NaN -> b <> NaN -> max a b = a \/ max a b = b.
Proof.
  destruct a as [ | | | x], b as [ | | | y]; simpl; intros Ha Hb;
    try congruence; auto.
  unfold Rmax. destruct (Rle_dec x y); auto.
Qed.

Lemma attained_more (seen : list (list num)) (point : list num)
    (b : PlanarBounds) :
  attained center seen b -> attained center (seen ++ [point]) b.
Proof.
  intros (H1 & H2 & H3 & H4).
  repeat split;
    [ destruct H1 as (p & Hp & E) | destruct H2 as (p & Hp & E)
    | destruct H3 as (p & Hp & E) | destruct H4 as (p & Hp & E) ];
    exists p; (split; [apply in_or_app; left; exact Hp | exact E]).
Qed.

Lemma min_PInf_l (a : num) : min PInf a = a.
Proof. destruct a; reflexivity. Qed.

Lemma max_NInf_l (a : num) : max NInf a = a.
Proof. destruct a; reflexivity. Qed.

(** The first position read becomes all four sides. *)
Lemma scanPoint_first (point : list num) :
  isPoint center point ->
  let b := scanPoint center initialBounds point in
  attained center [point] b /\ noNaN b
  /\ leq (minX b) (maxX b) /\ leq (minY b) (maxY b).
Proof.
  intros [Hx Hy]. unfold recentre in Hx, Hy. cbn [fst snd] in Hx, Hy.
  unfold scanPoint, initialBounds, attained, noNaN, recentre.
  cbn [minX maxX minY maxY fst snd].
  rewrite !min_PInf_l, !max_NInf_l.
  repeat split;
    try (exists point; split; [left; reflexivity | reflexivity]);
    try assumption; apply leq_refl; assumption.
Qed.

(** A further position moves a side only onto itself. *)
Lemma scanPoint_attained (seen : list (list num)) (point : list num)
    (b : PlanarBounds) :
  isPoint center point ->
  attained center seen b -> noNaN b ->
  leq (minX b) (maxX b) -> leq (minY b) (maxY b) ->
  let b' := scanPoint center b point in
  attained center (seen ++ [point]) b' /\ noNaN b'
  /\ leq (minX b') (maxX b') /\ leq (minY b') (maxY b').
Proof.
  intros [Hx Hy] Hatt (N1 & N2 & N3 & N4) Lx Ly b'.
  unfold recentre in Hx, Hy. cbn [fst snd] in Hx, Hy.
  pose proof (attained_more seen point b Hatt) as (A1 & A2 & A3 & A4).
  assert (Hin : In point (seen ++ [point]))
    by (apply in_or_app; right; left; reflexivity).
  unfold b', scanPoint, attained, noNaN, recentre.
  cbn [minX maxX minY maxY fst snd].
  split; [ | split].
  - split; [ | split; [ | split]].
    + destruct (min_cases (minX b) _ N1 Hx) as [-> | ->];
        [exact A1 | exists point; split; [exact Hin | reflexivity]].
    + destruct (max_cases (maxX b) _ N2 Hx) as [-> | ->];
        [exact A2 | exists point; split; [exact Hin | reflexivity]].
    + destruct (min_cases (minY b) _ N3 Hy) as [-> | ->];
        [exact A3 | exists point; split; [exact Hin | reflexivity]].
    + destruct (max_cases (maxY b) _ N4 Hy) as [-> | ->];
        [exact A4 | exists point; split; [exact Hin | reflexivity]].
  - repeat split; first [apply min_not_NaN | apply max_not_NaN]; assumption.
  - split.
    + apply leq_trans with (minX b); [apply leq_min_l; assumption | ].
      apply leq_trans with (maxX b); [exact Lx | apply leq_max_l; assumption].
    + apply leq_trans with (minY b); [apply leq_min_l; assumption | ].
      apply leq_trans with (maxY b); [exact Ly | apply leq_max_l; assumption].
Qed.

Lemma scan_fold_attained (points : list (list num)) :
  forall (seen : list (list num)) (b : PlanarBounds),
    Forall (isPoint center) points ->
    attained center seen b -> noNaN b ->
    leq (minX b) (maxX b) -> leq (minY b) (maxY b) ->
    let b' := fold_left (scanPoint center) points b in
    attained center (seen ++ points) b'
    /\ leq (minX b') (maxX b') /\ leq (minY b') (maxY b').
Proof.
  induction points as [ | p rest IH]; intros seen b Hall Hatt Hn Lx Ly; simpl.
  - rewrite app_nil_r. auto.
  - inversion Hall as [ | ? ? Hp Hrest]; subst.
    destruct (scanPoint_attained seen p b Hp Hatt Hn Lx Ly)
      as (Hatt' & Hn' & Lx' & Ly').
    replace (seen ++ p :: rest)%list with ((seen ++ [p]) ++ rest)%list
      by (rewrite <- app_assoc; reflexivity).
    apply IH; assumption.
Qed.

(** X5: for terrain data in which every polygon has its first ring, at
    least one position is scanned and no re-centred coordinate is [NaN],
    the scan succeeds with [minX <= maxX] and [minY <= maxY], and the bounds
    are tight: each of the four sides is the re-centred coordinate of a
    scanned position. *)
Theorem scanned_bounds_are_attained :
  forall features : FeatureCollection,
    Forall hasRing features ->
    scannedPoints features <> [] ->
    Forall (isPoint center) (scannedPoints features) ->
    exists b : PlanarBounds,
      scanFeatures center features initialBounds = Some b
      /\ leq (minX b) (maxX b) /\ leq (minY b) (maxY b)
      /\ (exists p, In p (scannedPoints features)
                    /\ minX b = fst (recentre center p))
      /\ (exists p, In p (scannedPoints features)
                    /\ maxX b = fst (recentre center p))
      /\ (exists p, In p (scannedPoints features)
                    /\ minY b = snd (recentre center p))
      /\ (exists p, In p (scannedPoints features)
                    /\ maxY b = snd (recentre center p)).
Proof.
  intros features Hring Hne Hall.
  rewrite (scanFeatures_fold center features _ Hring).
  eexists. split; [reflexivity | ].
  destruct (scannedPoints features) as [ | p rest]; [congruence | ].
  inversion Hall as [ | ? ? Hp Hrest]; subst. simpl.
  destruct (scanPoint_first p Hp) as (Hatt & Hn & Lx & Ly).
  destruct (scan_fold_attained rest [p] _ Hrest Hatt Hn Lx Ly)
    as (Hatt' & Lx' & Ly').
  split; [exact Lx' | ]. split; [exact Ly' | ]. exact Hatt'.
Qed.

End ScanAttained.

Lemma scanned_bounds_are_attained_witness :
  exists b : PlanarBounds,
    scanFeatures (Fin 1, Fin 1) twoRings initialBounds = Some b
    /\ leq (minX b) (maxX b)
    /\ exists p, In p (scannedPoints twoRings)
                 /\ minX b = fst (recentre (Fin 1, Fin 1) p).
Proof.
  destruct (scanned_bounds_are_attained (Fin 1, Fin 1) twoRings)
    as (b & E & H & _ & Hmin & _).
  - repeat constructor; discriminate.
  - discriminate.
  - repeat constructor; unfold isPoint, recentre; simpl; discriminate.
  - exists b. repeat split; assumption.
Defined.

(** ** loadAerialImagery.ts: terrain data without a position *)

Section EmptyTerrain.

Variable numberToString : num -> string.
Variable br : Browser.

Lemma zoomCandidate_infinite_extent (px : R) :
  0 < px -> zoomCandidate PInf (Fin px) = NInf.
Proof.
  intros Hpx. unfold zoomCandidate. rewrite log2_pixels by exact Hpx.
  cbn [div log2]. split_reals; try lra; reflexivity.
Qed.

(** What the suspended texture creation holds. *)
Lemma start_pending (lat lon : num) (b : PlanarBounds) (w : World) :
  snd (createRealAerialImageryTexture_start numberToString br lat lon b w) =
  let bounds :=
    calculateLatLonBounds (minX b) (maxX b) (minY b) (maxY b) lat lon in
  let zoom := calculateZoomLevel bounds (Some (Fin 640)) (Some (Fin 640)) in
  {| p_lat := lat; p_lon := lon; p_bounds := b;
     p_imageUrl :=
       fst (getAerialImageUrl numberToString (env br) bounds zoom
              (Fin 640) (Fin 640)) |}.
Proof.
  unfold createRealAerialImageryTexture_start.
  destruct (getAerialImageUrl _ _ _ _ _ _) as [imageUrl used]. reflexivity.
Qed.

Lemma onTerrainLoaded_pending (center : num * num) (lat lon : num)
    (fgData : FeatureCollection) (w : World) (b : PlanarBounds) :
  scanFeatures center fgData initialBounds = Some b ->
  exists w1,
    onTerrainLoaded numberToString br center lat lon fgData w =
    Started w1
      (snd (createRealAerialImageryTexture_start numberToString br lat lon b w))
    /\ Three.loadFileRemaining w1 = (Three.loadFileRemaining w - 1)%Z.
Proof.
  intros E. unfold onTerrainLoaded. rewrite E.
  pose proof (start_only_logs numberToString br lat lon b w) as H.
  destruct (createRealAerialImageryTexture_start _ _ _ _ _ _) as [w1 p].
  simpl in H. destruct H as (_ & _ & Hc).
  eexists. split; [reflexivity | ]. simpl. rewrite Hc. reflexivity.
Qed.

Lemma empty_bounds_geography (lat0 lon0 : R) :
  let g := calculateLatLonBounds PInf NInf PInf NInf (Fin lat0) (Fin lon0) in
  southwest g = {| lat := PInf; lon := PInf |}
  /\ northeast g = {| lat := NInf; lon := NInf |}
  /\ CoordinateTransform.center g = {| lat := NaN; lon := NaN |}
  /\ calculateZoomLevel g (Some (Fin 640)) (Some (Fin 640)) = Fin 1.
Proof.
  intros g.
  assert (E : g = {| southwest := {| lat := PInf; lon := PInf |};
                     northeast := {| lat := NInf; lon := NInf |};
                     CoordinateTransform.center := {| lat := NaN; lon := NaN |} |}).
  { unfold g, calculateLatLonBounds, transformToLatLon, meterPerDegreeLat,
      meterPerDegreeLon.
    rewrite !div_PInf_pos, !div_NInf_pos by lra. reflexivity. }
  rewrite E. repeat split.
  rewrite calculateZoomLevel_unfold. unfold latDiff, lonDiff.
  cbn [lat lon southwest northeast sub abs].
  rewrite zoomCandidate_infinite_extent by lra. reflexivity.
Qed.

(** X7: terrain data whose polygons have a first ring but no position at
    all is not rejected: the bounds stay at (Infinity, -Infinity), the
    counter is decremented, the zoom level is 1, the centre is NaN, so
    that without a credential the tile requested is 1/NaN/NaN, and the
    plane that is placed has width and height -Infinity. *)
Theorem empty_terrain_degenerates :
  forall (center : num * num) (lat0 lon0 : R) (fgData : FeatureCollection)
         (w : World),
    Forall hasRing fgData ->
    scannedPoints fgData = [] ->
    exists (w1 : World) (p : Pending),
      onTerrainLoaded numberToString br center (Fin lat0) (Fin lon0) fgData w
      = Started w1 p
      /\ Three.loadFileRemaining w1 = (Three.loadFileRemaining w - 1)%Z
      /\ p_bounds p = initialBounds
      /\ (truthy (googleMapsApiKey (env br)) = false ->
          p_imageUrl p =
          ("https://server.arcgisonline.com/ArcGIS/rest/services/World_Imagery/MapServer/tile/"
             ++ numberToString (Fin 1) ++ "/" ++ numberToString NaN
             ++ "/" ++ numberToString NaN)%string)
      /\ forall outcome : TextureOutcome,
           planeWidth (planeOf br p outcome) = NInf
           /\ planeHeight (planeOf br p outcome) = NInf.
Proof.
  intros center lat0 lon0 fgData w Hring Hempty.
  assert (E : scanFeatures center fgData initialBounds = Some initialBounds).
  { rewrite (scanFeatures_fold center fgData _ Hring), Hempty. reflexivity. }
  destruct (onTerrainLoaded_pending center (Fin lat0) (Fin lon0) fgData w _ E)
    as (w1 & Estart & Hc).
  eexists. eexists. split; [exact Estart | ]. split; [exact Hc | ].
  rewrite start_pending. cbn [p_bounds p_imageUrl minX maxX minY maxY initialBounds].
  split; [reflexivity | ]. split.
  - intros Hkey.
    destruct (empty_bounds_geography lat0 lon0) as (_ & _ & Ec & Ez).
    cbv zeta in Ec, Ez. cbv zeta. rewrite Ez.
    unfold getAerialImageUrl. rewrite Hkey, Ec. reflexivity.
  - intros outcome. destruct outcome; repeat split.
Qed.

End EmptyTerrain.

Lemma empty_terrain_degenerates_witness :
  exists (w1 : World) (p : Pending),
    onTerrainLoaded (fun _ => "n"%string) plainBrowser (Fin 0, Fin 0)
      (Fin 35) (Fin 136) [] emptyWorld = Started w1 p
    /\ Three.loadFileRemaining w1 = 6%Z
    /\ p_bounds p = initialBounds.
Proof.
  destruct (empty_terrain_degenerates (fun _ => "n"%string) plainBrowser
              (Fin 0, Fin 0) 35 136 [] emptyWorld)
    as (w1 & p & E & Hc & Hb & _).
  - constructor.
  - reflexivity.
  - exists w1, p. repeat split; assumption.
Defined.

(** ** loadAerialImagery.ts: the tile column of the fallback provider *)

Section TileColumns.

Context {A : Rounded.Arithmetic}.

(** X9: a larger centre longitude never gives a smaller tile column, for
    every zoom whose scale [Math.pow(2, zoom)] is a positive finite
    number. *)
Theorem tileX_follows_longitude :
  forall (lon1 lon2 zoom : num) (p : R),
    leq lon1 lon2 -> Rounded.Math_pow2 zoom = Fin p -> 0 < p ->
    leq (Rounded.tileX lon1 zoom) (Rounded.tileX lon2 zoom).
Proof.
  intros lon1 lon2 zoom p Hle Ep Hp. unfold Rounded.tileX. rewrite Ep.
  apply floor_mono. apply rounded_mul_mono; [exact Hp | ].
  apply rounded_div_mono; [lra | ].
  apply rounded_add_mono_l. exact Hle.
Qed.

(** X8: for a centre longitude in [-180, 180] and a zoom whose scale
    [p = Math.pow(2, zoom)] is a finite number that is not negative, the
    tile column is an integer from 0 to [p]; at longitude 180 it is
    [floor(p)], one past the last column when [p] is the integer
    [2^zoom]. *)
Theorem tileX_column_range :
  forall (lon p : R) (zoom : num),
    -180 <= lon <= 180 ->
    Rounded.Math_pow2 zoom = Fin p -> 0 <= p -> Rounded.round p = Fin p ->
    (exists k : Z,
       Rounded.tileX (Fin lon) zoom = Fin (IZR k)
       /\ (0 <= k)%Z /\ IZR k <= p)
    /\ Rounded.tileX (Fin 180) zoom = Fin (IZR (Zfloor p)).
Proof.
  intros lon p zoom Hlon Ep Hp Rp.
  pose proof round_zero as R0.
  pose proof (round_small_integer 360 ltac:(lia)) as R360.
  pose proof (round_small_integer 1 ltac:(lia)) as R1.
  unfold Rounded.tileX. rewrite Ep. cbn [Rounded.add]. split.
  - destruct (round_between 0 360 (lon + 180) R0 R360) as (s & -> & Hs);
      [lra | ].
    rewrite rounded_div_Fin by lra.
    destruct (round_between 0 1 (s / 360) R0 R1) as (a & -> & Ha); [lra | ].
    cbn [Rounded.mul].
    destruct (round_between 0 p (a * p) R0 Rp) as (t & -> & Ht); [nra | ].
    cbn [floor]. exists (Zfloor t).
    destruct (Zfloor_bound t) as [Hlo Hhi].
    split; [reflexivity | ]. split; [ | lra].
    apply Z.lt_succ_r. apply lt_IZR. rewrite succ_IZR. lra.
  - replace (180 + 180) with 360 by lra. rewrite R360.
    rewrite rounded_div_Fin by lra.
    replace (360 / 360) with 1 by lra. rewrite R1.
    cbn [Rounded.mul]. rewrite Rmult_1_l, Rp. reflexivity.
Qed.

End TileColumns.

Lemma tileX_follows_longitude_witness :
  leq (Rounded.tileX (A := binary64_arithmetic) (Fin 135) (Fin 3))
      (Rounded.tileX (A := binary64_arithmetic) (Fin 136) (Fin 3)).
Proof.
  apply (@tileX_follows_longitude binary64_arithmetic
           (Fin 135) (Fin 136) (Fin 3) (Rpower 2 3)).
  - simpl. lra.
  - reflexivity.
  - rewrite Rpower_2_3. lra.
Defined.

Lemma tileX_column_range_witness :
  exists k : Z,
    Rounded.tileX (A := binary64_arithmetic) (Fin 136) (Fin 3) = Fin (IZR k)
    /\ (0 <= k)%Z /\ IZR k <= 8.
Proof.
  rewrite <- Rpower_2_3.
  apply (@tileX_column_range binary64_arithmetic 136 (Rpower 2 3) (Fin 3)).
  - lra.
  - reflexivity.
  - rewrite Rpower_2_3. lra.
  - rewrite Rpower_2_3. apply (round_small_integer 8). lia.
Defined.

(** ** loadAerialImagery.ts: the credential *)

Section Credential.

Variable numberToString : num -> string.

Lemma truthy_Some (k : string) : k <> EmptyString -> truthy (Some k) = true.
Proof.
  intros H. unfold truthy. apply negb_true_iff. apply String.eqb_neq. exact H.
Qed.

(** X11: of the two environment variables the public one wins whenever it
    is set to a non-empty string, whatever the other holds; the other one
    is used when the public one is unset or empty; a variable set to the
    empty string counts as unset, so that with both unset or empty the
    tile URL is returned. *)
Theorem credential_precedence :
  forall (e : Env) (bounds : LatLonBounds) (zoom width height : num),
    let url := fst (getAerialImageUrl numberToString e bounds zoom width height) in
    let c := CoordinateTransform.center bounds in
    (forall k : string,
       NEXT_PUBLIC_GOOGLE_MAPS_API_KEY e = Some k -> k <> EmptyString ->
       url = googleUrl numberToString c zoom width height k)
    /\ (forall k : string,
          truthy (NEXT_PUBLIC_GOOGLE_MAPS_API_KEY e) = false ->
          GOOGLE_MAPS_API_KEY e = Some k -> k <> EmptyString ->
          url = googleUrl numberToString c zoom width height k)
    /\ (truthy (NEXT_PUBLIC_GOOGLE_MAPS_API_KEY e) = false ->
        truthy (GOOGLE_MAPS_API_KEY e) = false ->
        url = esriUrl numberToString zoom (tileY (lat c) zoom)
                (tileX (lon c) zoom)).
Proof.
  intros e bounds zoom width height url c.
  unfold url, getAerialImageUrl, googleMapsApiKey, orElse.
  split; [ | split].
  - intros k E Hk. rewrite E, (truthy_Some k Hk), (truthy_Some k Hk).
    reflexivity.
  - intros k Hpub E Hk. rewrite Hpub, E, (truthy_Some k Hk). reflexivity.
  - intros Hpub Hother. rewrite Hpub, Hother. reflexivity.
Qed.

End Credential.

Lemma credential_precedence_witness :
  let bounds := calculateLatLonBounds (Fin 0) (Fin 4) (Fin 0) (Fin 4)
                  (Fin 35) (Fin 136) in
  fst (getAerialImageUrl (fun _ => "n"%string)
         {| NEXT_PUBLIC_GOOGLE_MAPS_API_KEY := Some "pub"%string;
            GOOGLE_MAPS_API_KEY := Some "other"%string |}
         bounds (Fin 18) (Fin 640) (Fin 640)) =
  googleUrl (fun _ => "n"%string) (CoordinateTransform.center bounds)
    (Fin 18) (Fin 640) (Fin 640) "pub"
  /\ fst (getAerialImageUrl (fun _ => "n"%string)
            {| NEXT_PUBLIC_GOOGLE_MAPS_API_KEY := Some EmptyString;
               GOOGLE_MAPS_API_KEY := Some EmptyString |}
            bounds (Fin 18) (Fin 640) (Fin 640)) =
     esriUrl (fun _ => "n"%string) (Fin 18)
       (tileY (lat (CoordinateTransform.center bounds)) (Fin 18))
       (tileX (lon (CoordinateTransform.center bounds)) (Fin 18)).
Proof.
  split.
  - refine (proj1 (credential_precedence (fun _ => "n"%string) _ _ _ _ _)
              "pub"%string _ _); [reflexivity | discriminate].
  - refine (proj2 (proj2 (credential_precedence (fun _ => "n"%string)
                            _ _ _ _ _)) _ _); reflexivity.
Defined.

(** ** loadAerialImagery.ts: the generated canvas *)

Section GeneratedCanvas.

Lemma unit_scaled (rnd : nat -> num) (i : nat) (k c : R) :
  unitRandom rnd -> 0 < k ->
  exists v : R,
    add (mul (rnd i) (Fin k)) (Fin c) = Fin v /\ c <= v < k + c.
Proof.
  intros Hrnd Hk. destruct (Hrnd i) as (r & -> & Hr).
  exists (r * k + c). split; [reflexivity | nra].
Qed.

Lemma unit_times (rnd : nat -> num) (i : nat) (k : R) :
  unitRandom rnd -> 0 < k ->
  exists v : R, mul (rnd i) (Fin k) = Fin v /\ 0 <= v < k.
Proof.
  intros Hrnd Hk. destruct (Hrnd i) as (r & -> & Hr).
  exists (r * k). split; [reflexivity | nra].
Qed.

Lemma roadRect_onCanvas (rnd : nat -> num) (i : nat) :
  unitRandom rnd -> rectOnCanvas (roadRect rnd i).
Proof.
  intros Hrnd. unfold roadRect, rectOnCanvas.
  destruct (unit_times rnd (4 * i) 512 Hrnd) as (x & -> & Hx); [lra | ].
  destruct (unit_times rnd (4 * i + 1) 512 Hrnd) as (y & -> & Hy); [lra | ].
  destruct (unit_scaled rnd (4 * i + 2) 50 10 Hrnd) as (w & -> & Hw); [lra | ].
  destruct (unit_scaled rnd (4 * i + 3) 200 20 Hrnd) as (h & -> & Hh); [lra | ].
  exists x, y, w, h. repeat split; try reflexivity; lra.
Qed.

Lemma buildingRect_onCanvas (rnd : nat -> num) (i : nat) :
  unitRandom rnd -> rectOnCanvas (buildingRect rnd i).
Proof.
  intros Hrnd. unfold buildingRect, rectOnCanvas.
  destruct (unit_times rnd (80 + 3 * i) 512 Hrnd) as (x & -> & Hx); [lra | ].
  destruct (unit_times rnd (80 + 3 * i + 1) 512 Hrnd) as (y & -> & Hy); [lra | ].
  destruct (unit_scaled rnd (80 + 3 * i + 2) 30 10 Hrnd) as (sz & -> & Hs);
    [lra | ].
  exists x, y, sz, sz. repeat split; try reflexivity; lra.
Qed.

Lemma shapes_onCanvas (rnd : nat -> num) (first : DrawOp) :
  unitRandom rnd -> rectOnCanvas first ->
  Forall rectOnCanvas
    (first :: List.map (roadRect rnd) (seq 0 20)
           ++ List.map (buildingRect rnd) (seq 0 15)).
Proof.
  intros Hrnd Hfirst. constructor; [exact Hfirst | ].
  apply Forall_app. split; apply Forall_forall; intros op Hin;
    apply in_map_iff in Hin; destruct Hin as (i & <- & _);
    [apply roadRect_onCanvas | apply buildingRect_onCanvas]; exact Hrnd.
Qed.

(** X12: with [Math.random()] in [0, 1), the canvas of the fallback and
    the canvas of the synchronous revision hold the gradient and 35
    rectangles when a 2d context is available and nothing otherwise; every
    rectangle starts inside the 512 x 512 canvas and is between 10 and 60
    wide and between 10 and 220 high. *)
Theorem generated_canvas_shapes :
  forall (br : Browser) (lat0 lon0 : num),
    unitRandom (random br) ->
    Forall rectOnCanvas (drawn (fallbackCanvas br lat0 lon0))
    /\ Forall rectOnCanvas (drawn (AerialImagerySync.generatedCanvas br))
    /\ List.length (drawn (fallbackCanvas br lat0 lon0)) =
       (if context2d br then 36 else 0)%nat
    /\ List.length (drawn (AerialImagerySync.generatedCanvas br)) =
       (if context2d br then 36 else 0)%nat.
Proof.
  intros br lat0 lon0 Hrnd.
  unfold fallbackCanvas, AerialImagerySync.generatedCanvas. cbn [drawn].
  destruct (context2d br).
  - split; [apply shapes_onCanvas; [exact Hrnd | exact I] | ].
    split; [apply shapes_onCanvas; [exact Hrnd | exact I] | ].
    split; reflexivity.
  - repeat split; constructor.
Qed.

Lemma generated_canvas_shapes_witness :
  Forall rectOnCanvas (drawn (fallbackCanvas plainBrowser (Fin 35) (Fin 136))).
Proof.
  apply (generated_canvas_shapes plainBrowser (Fin 35) (Fin 136)).
  intros i. exists 0.5. split; [reflexivity | lra].
Defined.

End GeneratedCanvas.

(** ** loadAerialImagery.ts: what a placement leaves alone *)

Section PlacementFrame.

Lemma getObjectByName_app_other (s : Scene) (n : string) (g : Group) :
  Three.name g <> n -> getObjectByName (s ++ [g]) n = getObjectByName s n.
Proof.
  intros Hne. induction s as [ | h rest IH]; simpl.
  - apply String.eqb_neq in Hne. rewrite Hne. reflexivity.
  - destruct (String.eqb (Three.name h) n); [reflexivity | exact IH].
Qed.

Lemma getObjectByName_addToNamed_other (s : Scene) (n m : string) (mesh : Mesh) :
  n <> m -> getObjectByName (addToNamed s m mesh) n = getObjectByName s n.
Proof.
  intros Hne. induction s as [ | h rest IH]; simpl; [reflexivity | ].
  destruct (String.eqb (Three.name h) m) eqn:Em; simpl.
  - apply String.eqb_eq in Em.
    destruct (String.eqb (Three.name h) n) eqn:En; [ | reflexivity].
    apply String.eqb_eq in En. congruence.
  - destruct (String.eqb (Three.name h) n); [reflexivity | exact IH].
Qed.

Lemma addToTerrain_other (m : Mesh) (w : World) (n : string) :
  n <> "terrain"%string ->
  getObjectByName (scene (addToTerrain m w)) n = getObjectByName (scene w) n.
Proof.
  intros Hne. unfold addToTerrain.
  destruct (getObjectByName (scene w) "terrain"); simpl.
  - apply getObjectByName_addToNamed_other. exact Hne.
  - apply getObjectByName_app_other. simpl. congruence.
Qed.

Lemma addToTerrain_planes (m : Mesh) (w : World) :
  terrainPlanes (scene (addToTerrain m w)) = terrainPlanes (scene w) ++ [m].
Proof.
  unfold terrainPlanes at 2.
  destruct (getObjectByName (scene w) "terrain") as [g | ] eqn:E.
  - unfold terrainPlanes.
    destruct (addToTerrain_again m w g E) as [_ ->]. reflexivity.
  - unfold terrainPlanes.
    destruct (addToTerrain_first m w E) as [_ ->]. reflexivity.
Qed.

Lemma placeAll_planes (br : Browser)
    (requests : list (Pending * TextureOutcome)) :
  forall w : World,
    terrainPlanes (scene (placeAll br requests w)) =
    terrainPlanes (scene w)
    ++ List.map (fun r => planeOf br (fst r) (snd r)) requests.
Proof.
  induction requests as [ | r rest IH]; intros w.
  - simpl. rewrite app_nil_r. reflexivity.
  - unfold placeAll in *. simpl. rewrite IH.
    destruct (settle_places br (fst r) (snd r) w) as (Es & _).
    rewrite Es, addToTerrain_planes, <- app_assoc. reflexivity.
Qed.

Lemma placeAll_other (br : Browser)
    (requests : list (Pending * TextureOutcome)) (n : string) :
  n <> "terrain"%string ->
  forall w : World,
    getObjectByName (scene (placeAll br requests w)) n =
    getObjectByName (scene w) n.
Proof.
  intros Hne. induction requests as [ | r rest IH]; intros w; [reflexivity | ].
  unfold placeAll in *. simpl. rewrite IH.
  destruct (settle_places br (fst r) (snd r) w) as (Es & _).
  rewrite Es. apply addToTerrain_other. exact Hne.
Qed.

Lemma placeAll_counter (br : Browser)
    (requests : list (Pending * TextureOutcome)) :
  forall w : World,
    Three.loadFileRemaining (placeAll br requests w) =
    Three.loadFileRemaining w.
Proof.
  induction requests as [ | r rest IH]; intros w; [reflexivity | ].
  unfold placeAll in *. simpl. rewrite IH.
  destruct (settle_places br (fst r) (snd r) w) as (_ & _ & Ec & _).
  exact Ec.
Qed.

(** X13: whatever run of texture requests settles, the planes already in
    the group named "terrain" stay, in their order, and the new planes
    follow them in the order of settlement; every object of another name,
    a floor group say, stays as it is, and so does the load counter. *)
Theorem placements_only_append_to_terrain :
  forall (br : Browser) (requests : list (Pending * TextureOutcome))
         (w : World),
    terrainPlanes (scene (placeAll br requests w)) =
      terrainPlanes (scene w)
      ++ List.map (fun r => planeOf br (fst r) (snd r)) requests
    /\ (forall n : string,
          n <> "terrain"%string ->
          getObjectByName (scene (placeAll br requests w)) n =
          getObjectByName (scene w) n)
    /\ Three.loadFileRemaining (placeAll br requests w) =
       Three.loadFileRemaining w.
Proof.
  intros br requests w. split; [apply placeAll_planes | ].
  split; [intros n Hn; apply placeAll_other; exact Hn | apply placeAll_counter].
Qed.

End PlacementFrame.

(** ** loadAerialImagery.ts: the checkbox *)

Section Checkbox.

Lemma setVisibleNamed_found (s : Scene) (n : string) (v : bool) (g : Group) :
  getObjectByName s n = Some g ->
  getObjectByName (TerrainToggle.setVisibleNamed s n v) n =
  Some {| Three.name := Three.name g; visible := v; children := children g |}.
Proof.
  induction s as [ | h rest IH]; simpl; [discriminate | ].
  destruct (String.eqb (Three.name h) n) eqn:E; intros H.
  - injection H as <-. simpl. rewrite E. reflexivity.
  - simpl. rewrite E. auto.
Qed.

Lemma setVisibleNamed_missing (s : Scene) (n : string) (v : bool) :
  getObjectByName s n = None -> TerrainToggle.setVisibleNamed s n v = s.
Proof.
  induction s as [ | h rest IH]; simpl; [reflexivity | ].
  destruct (String.eqb (Three.name h) n); [discriminate | ].
  intros H. rewrite (IH H). reflexivity.
Qed.

Lemma setVisibleNamed_other (s : Scene) (n m : string) (v : bool) :
  n <> m ->
  getObjectByName (TerrainToggle.setVisibleNamed s m v) n = getObjectByName s n.
Proof.
  intros Hne. induction s as [ | h rest IH]; simpl; [reflexivity | ].
  destruct (String.eqb (Three.name h) m) eqn:Em; simpl.
  - apply String.eqb_eq in Em.
    destruct (String.eqb (Three.name h) n) eqn:En; [ | reflexivity].
    apply String.eqb_eq in En. congruence.
  - destruct (String.eqb (Three.name h) n); [reflexivity | exact IH].
Qed.

(** X14: the change handler of the checkbox sets the [visible] flag of the
    group named "terrain" to the value of the checkbox and does nothing
    when the scene has no such group; it leaves the planes, every other
    object and the counter alone; and a plane placed after the handler ran
    joins the group without changing the flag, so a backdrop the user has
    hidden stays hidden when a late image arrives. *)
Theorem checkbox_sets_visibility :
  forall (isVisible : bool) (w : World),
    (getObjectByName (scene w) "terrain" = None ->
     TerrainToggle.onChange isVisible w = w)
    /\ (getObjectByName (scene w) "terrain" <> None ->
        TerrainToggle.terrainVisible (scene (TerrainToggle.onChange isVisible w))
        = Some isVisible)
    /\ terrainPlanes (scene (TerrainToggle.onChange isVisible w)) =
       terrainPlanes (scene w)
    /\ (forall n : string,
          n <> "terrain"%string ->
          getObjectByName (scene (TerrainToggle.onChange isVisible w)) n =
          getObjectByName (scene w) n)
    /\ gui (TerrainToggle.onChange isVisible w) = gui w
    /\ Three.loadFileRemaining (TerrainToggle.onChange isVisible w) =
       Three.loadFileRemaining w
    /\ (forall (br : Browser) (p : Pending) (o : TextureOutcome),
          getObjectByName (scene w) "terrain" <> None ->
          TerrainToggle.terrainVisible
            (scene (fst (createRealAerialImageryTexture_settle br p o
                           (TerrainToggle.onChange isVisible w))))
          = Some isVisible).
Proof.
  intros v w.
  assert (Hfound : forall g, getObjectByName (scene w) "terrain" = Some g ->
            getObjectByName (scene (TerrainToggle.onChange v w)) "terrain" =
            Some {| Three.name := Three.name g; visible := v;
                    children := children g |}).
  { intros g E. unfold TerrainToggle.onChange. simpl.
    apply setVisibleNamed_found. exact E. }
  split; [ | split; [ | split; [ | split; [ | split; [ | split]]]]].
  - intros E. unfold TerrainToggle.onChange.
    rewrite (setVisibleNamed_missing _ _ v E). destruct w; reflexivity.
  - intros Hsome. unfold TerrainToggle.terrainVisible.
    destruct (getObjectByName (scene w) "terrain") as [g | ] eqn:E;
      [ | congruence].
    rewrite (Hfound g eq_refl). reflexivity.
  - unfold terrainPlanes.
    destruct (getObjectByName (scene w) "terrain") as [g | ] eqn:E.
    + rewrite (Hfound g eq_refl). reflexivity.
    + unfold TerrainToggle.onChange. simpl.
      rewrite (setVisibleNamed_missing _ _ v E), E. reflexivity.
  - intros n Hn. unfold TerrainToggle.onChange. simpl.
    apply setVisibleNamed_other. exact Hn.
  - reflexivity.
  - reflexivity.
  - intros br p o Hsome.
    destruct (getObjectByName (scene w) "terrain") as [g | ] eqn:E;
      [ | congruence].
    destruct (settle_places br p o (TerrainToggle.onChange v w)) as (Es & _).
    unfold TerrainToggle.terrainVisible. rewrite Es.
    destruct (addToTerrain_again (planeOf br p o) (TerrainToggle.onChange v w)
                _ (Hfound g eq_refl)) as [_ ->].
    reflexivity.
Qed.

Lemma checkbox_sets_visibility_witness :
  let placed :=
    fst (createRealAerialImageryTexture_settle plainBrowser samplePending
           TextureLoaded emptyWorld) in
  TerrainToggle.onChange false emptyWorld = emptyWorld
  /\ TerrainToggle.terrainVisible
       (scene (TerrainToggle.onChange false placed)) = Some false
  /\ TerrainToggle.terrainVisible
       (scene (fst (createRealAerialImageryTexture_settle plainBrowser
                      samplePending TextureRejected
                      (TerrainToggle.onChange false placed)))) = Some false.
Proof.
  intros placed. split; [ | split].
  - apply (checkbox_sets_visibility false emptyWorld). reflexivity.
  - apply (checkbox_sets_visibility false placed). discriminate.
  - apply (checkbox_sets_visibility false placed). discriminate.
Defined.

End Checkbox.

(** ** loadAerialImagery.ts: the two revisions *)

Section Revisions.

Variable numberToString : num -> string.
Variable br : Browser.

Lemma sync_loaded (center : num * num) (lat lon : num)
    (fgData : FeatureCollection) (w : World) (b : PlanarBounds) :
  scanFeatures center fgData initialBounds = Some b ->
  let w' := AerialImagerySync.loadAerialImagery br center lat lon
              (FileLoaded fgData) w in
  let plane := planeFor b (CanvasTexture (AerialImagerySync.generatedCanvas br))
                 (Fin 0.7) in
  scene w' = scene (addToTerrain plane w)
  /\ gui w' = gui (addToTerrain plane w)
  /\ Three.loadFileRemaining w' = (Three.loadFileRemaining w - 1)%Z.
Proof.
  intros E. unfold AerialImagerySync.loadAerialImagery. rewrite E.
  unfold AerialImagerySync.createAerialImageryTexture. simpl.
  rewrite addToTerrain_counter. auto.
Qed.

(** X15: in the synchronous revision the plane is placed in the callback
    that decrements the counter: whatever the file request and the data,
    a counter below its initial value comes with a plane in the group
    named "terrain"; with usable data the counter is one lower, the plane
    built over the scanned bounds is the last of the group, and the
    checkbox is still there exactly when the group is. *)
Theorem sync_revision_decrements_with_plane :
  forall (center : num * num) (lat lon : num) (file : FileOutcome) (w : World),
    let w' := AerialImagerySync.loadAerialImagery br center lat lon file w in
    decrementedOnPlaced w w'
    /\ (forall fgData,
          file = FileLoaded fgData -> Forall hasRing fgData ->
          Three.loadFileRemaining w' = (Three.loadFileRemaining w - 1)%Z
          /\ exists b,
               scanFeatures center fgData initialBounds = Some b
               /\ terrainPlanes (scene w') =
                  terrainPlanes (scene w)
                  ++ [planeFor b
                        (CanvasTexture (AerialImagerySync.generatedCanvas br))
                        (Fin 0.7)])
    /\ (toggleMatchesGroup w -> toggleMatchesGroup w').
Proof.
  intros center lat lon file w w'.
  destruct file as [fgData | ].
  - destruct (scanFeatures center fgData initialBounds) as [b | ] eqn:E.
    + destruct (sync_loaded center lat lon fgData w b E) as (Es & Eg & Ec).
      fold w' in Es, Eg, Ec.
      assert (Hplanes : terrainPlanes (scene w') =
                terrainPlanes (scene w)
                ++ [planeFor b
                      (CanvasTexture (AerialImagerySync.generatedCanvas br))
                      (Fin 0.7)]).
      { rewrite Es. apply addToTerrain_planes. }
      split; [ | split].
      * intros _. rewrite Hplanes.
        destruct (terrainPlanes (scene w)); discriminate.
      * intros fg' Efile Hring. injection Efile as <-.
        split; [exact Ec | ]. exists b. split; [exact E | exact Hplanes].
      * intros Hm. unfold toggleMatchesGroup in *. rewrite Es, Eg.
        destruct (getObjectByName (scene w) "terrain") as [g | ] eqn:Eg0.
        -- destruct (addToTerrain_again
                       (planeFor b
                          (CanvasTexture (AerialImagerySync.generatedCanvas br))
                          (Fin 0.7)) w g Eg0) as [-> ->].
           exact Hm.
        -- destruct (addToTerrain_first
                       (planeFor b
                          (CanvasTexture (AerialImagerySync.generatedCanvas br))
                          (Fin 0.7)) w Eg0) as [-> ->].
           rewrite toggleCount_app, Hm. reflexivity.
    + assert (Ew : w' = w).
      { unfold w', AerialImagerySync.loadAerialImagery. rewrite E. reflexivity. }
      rewrite Ew. split; [ | split].
      * intros H. lia.
      * intros fg' Efile Hring. injection Efile as <-.
        rewrite (scanFeatures_fold center fgData _ Hring) in E. discriminate.
      * auto.
  - split; [ | split].
    + intros H. unfold w' in H. simpl in H. lia.
    + intros fg' Efile. discriminate.
    + auto.
Qed.

Lemma fallbackCanvas_default_colour (lat lon : num) :
  baseColor lat lon = "#6B8E23"%string ->
  fallbackCanvas br lat lon = AerialImagerySync.generatedCanvas br.
Proof.
  intros E. unfold fallbackCanvas, AerialImagerySync.generatedCanvas.
  rewrite E. reflexivity.
Qed.

Lemma addToTerrain_ext (m : Mesh) (w1 w2 : World) :
  scene w1 = scene w2 -> gui w1 = gui w2 ->
  scene (addToTerrain m w1) = scene (addToTerrain m w2)
  /\ gui (addToTerrain m w1) = gui (addToTerrain m w2).
Proof.
  intros Es Eg. unfold addToTerrain. rewrite Es, Eg.
  destruct (getObjectByName (scene w2) "terrain"); simpl; auto.
Qed.

(** X16: when the image cannot be loaded, the revision that fetches an
    image ends where the synchronous revision ends: same GUI, same
    counter, as many planes, whatever the file request and the data; and
    the same scene altogether where the base colour of the fallback is the
    olive green of the synchronous revision. *)
Theorem rejected_image_matches_sync_revision :
  forall (center : num * num) (lat lon : num) (file : FileOutcome) (w : World),
    let fetched :=
      loadAerialImagery numberToString br center lat lon file TextureRejected w in
    let sync := AerialImagerySync.loadAerialImagery br center lat lon file w in
    gui fetched = gui sync
    /\ Three.loadFileRemaining fetched = Three.loadFileRemaining sync
    /\ List.length (terrainPlanes (scene fetched)) =
       List.length (terrainPlanes (scene sync))
    /\ (baseColor lat lon = "#6B8E23"%string -> scene fetched = scene sync).
Proof.
  intros center lat lon file w fetched sync.
  destruct file as [fgData | ]; [ | repeat split].
  destruct (scanFeatures center fgData initialBounds) as [b | ] eqn:E.
  - destruct (sync_loaded center lat lon fgData w b E) as (Ss & Sg & Sc).
    fold sync in Ss, Sg, Sc.
    destruct (onTerrainLoaded_pending numberToString br center lat lon
                fgData w b E) as (w1 & Estart & Hc).
    pose proof (start_pending numberToString br lat lon b w) as Ep.
    cbv zeta in Ep.
    set (p := snd (createRealAerialImageryTexture_start numberToString br
                     lat lon b w)) in *.
    assert (Hw1 : scene w1 = scene w /\ gui w1 = gui w).
    { unfold onTerrainLoaded in Estart. rewrite E in Estart.
      pose proof (start_only_logs numberToString br lat lon b w) as H.
      destruct (createRealAerialImageryTexture_start numberToString br
                  lat lon b w) as [w0 p0].
      simpl in H. injection Estart as <-. simpl. tauto. }
    destruct Hw1 as [Hs1 Hg1].
    destruct (settle_places br p TextureRejected
                (createRealAerialImageryTexture_request p w1))
      as (Es & Eg & Ec & Ef).
    assert (Efetched : fetched =
              fst (createRealAerialImageryTexture_settle br p TextureRejected
                     (createRealAerialImageryTexture_request p w1))).
    { unfold fetched, loadAerialImagery. rewrite Estart.
      destruct (createRealAerialImageryTexture_settle br p TextureRejected
                  (createRealAerialImageryTexture_request p w1)) as [w3 s].
      simpl in Ef. subst s. reflexivity. }
    rewrite <- Efetched in Es, Eg, Ec.
    assert (Eplane : planeOf br p TextureRejected =
              planeFor b (CanvasTexture (fallbackCanvas br lat lon)) (Fin 0.7)).
    { unfold planeOf. rewrite Ep. reflexivity. }
    destruct (addToTerrain_ext (planeOf br p TextureRejected)
                (createRealAerialImageryTexture_request p w1) w)
      as [Hs Hg]; [exact Hs1 | exact Hg1 | ].
    split; [ | split; [ | split]].
    + rewrite Eg, Hg, Sg. unfold addToTerrain.
      destruct (getObjectByName (scene w) "terrain"); reflexivity.
    + rewrite Ec, Sc. simpl. exact Hc.
    + rewrite Es, Hs, Ss, !addToTerrain_planes, !length_app. reflexivity.
    + intros Ecol. rewrite Es, Hs, Ss, Eplane.
      rewrite (fallbackCanvas_default_colour lat lon Ecol). reflexivity.
  - assert (Ef : fetched = w).
    { unfold fetched, loadAerialImagery, onTerrainLoaded. rewrite E.
      reflexivity. }
    assert (Esy : sync = w).
    { unfold sync, AerialImagerySync.loadAerialImagery. rewrite E.
      reflexivity. }
    rewrite Ef, Esy. repeat split.
Qed.

(** X17: no error callback is passed to [loader.load] and the scan is not
    guarded: a terrain file whose request fails, or whose data holds a
    polygon with an empty coordinate list, leaves the scene, the GUI and
    the counter exactly as they were, in both revisions; the counter is
    then never decremented for the terrain file. *)
Theorem unusable_terrain_file_changes_nothing :
  forall (center : num * num) (lat lon : num) (texture : TextureOutcome)
         (w : World),
    loadAerialImagery numberToString br center lat lon FileFailed texture w = w
    /\ AerialImagerySync.loadAerialImagery br center lat lon FileFailed w = w
    /\ (forall fgData,
          Exists (fun f => coordinates f = []) fgData ->
          loadAerialImagery numberToString br center lat lon
            (FileLoaded fgData) texture w = w
          /\ AerialImagerySync.loadAerialImagery br center lat lon
               (FileLoaded fgData) w = w).
Proof.
  intros center lat lon texture w.
  split; [reflexivity | ]. split; [reflexivity | ].
  intros fgData Hex. split.
  - apply (loadAerialImagery_no_callback numberToString br center lat lon
             texture w). exact Hex.
  - unfold AerialImagerySync.loadAerialImagery.
    rewrite (scanFeatures_raises center fgData initialBounds Hex). reflexivity.
Qed.

End Revisions.

Lemma sync_revision_decrements_with_plane_witness :
  Three.loadFileRemaining
    (AerialImagerySync.loadAerialImagery plainBrowser (Fin 0, Fin 0)
       (Fin 35) (Fin 136) (FileLoaded twoRings) emptyWorld) = 6%Z.
Proof.
  refine (proj1 (proj1 (proj2
            (sync_revision_decrements_with_plane plainBrowser (Fin 0, Fin 0)
               (Fin 35) (Fin 136) (FileLoaded twoRings) emptyWorld))
            twoRings _ _)).
  - reflexivity.
  - repeat constructor; discriminate.
Defined.

Lemma rejected_image_matches_sync_revision_witness :
  scene (loadAerialImagery (fun _ => "n"%string) plainBrowser (Fin 0, Fin 0)
           (Fin 0) (Fin 0) (FileLoaded twoRings) TextureRejected emptyWorld) =
  scene (AerialImagerySync.loadAerialImagery plainBrowser (Fin 0, Fin 0)
           (Fin 0) (Fin 0) (FileLoaded twoRings) emptyWorld).
Proof.
  refine (proj2 (proj2 (proj2
            (rejected_image_matches_sync_revision (fun _ => "n"%string)
               plainBrowser (Fin 0, Fin 0) (Fin 0) (Fin 0)
               (FileLoaded twoRings) emptyWorld))) _).
  unfold baseColor, gtb.
  repeat match goal with
         | |- context [Rlt_dec ?a ?b] => destruct (Rlt_dec a b); try lra
         end.
  reflexivity.
Defined.

Lemma unusable_terrain_file_changes_nothing_witness :
  loadAerialImagery (fun _ => "n"%string) plainBrowser (Fin 0, Fin 0)
    (Fin 35) (Fin 136) (FileLoaded [ {| coordinates := [] |} ])
    TextureLoaded emptyWorld = emptyWorld.
Proof.
  refine (proj1 (proj2 (proj2
            (unusable_terrain_file_changes_nothing (fun _ => "n"%string)
               plainBrowser (Fin 0, Fin 0) (Fin 35) (Fin 136) TextureLoaded
               emptyWorld)) _ _)).
  constructor. reflexivity.
Defined.

(** ** ThreeScene: the calls of the set-up effect *)

Section SetupCalls.

Variable getFloorNumber : string -> option Z.

Lemma existsb_Zeqb (n : Z) (l : list Z) :
  existsb (Z.eqb n) l = true <-> In n l.
Proof.
  rewrite existsb_exists. split.
  - intros (x & Hin & E). apply Z.eqb_eq in E. subst. exact Hin.
  - intros Hin. exists n. split; [exact Hin | apply Z.eqb_refl].
Qed.

Lemma pushFloor_fold (files : list string) :
  forall acc : list Z,
    NoDup acc ->
    let fl := fold_left (ThreeScene.pushFloor getFloorNumber) files acc in
    NoDup fl
    /\ forall n : Z,
         In n fl <->
         In n acc \/
         exists f, In f files /\ ThreeScene.floorNumberOf getFloorNumber f = n.
Proof.
  induction files as [ | f rest IH]; intros acc Hnd; simpl.
  - split; [exact Hnd | ]. intros n. split; [auto | ].
    intros [H | (f & Hf & _)]; [exact H | destruct Hf].
  - assert (Hnd' : NoDup (ThreeScene.pushFloor getFloorNumber acc f)
                   /\ forall n, In n (ThreeScene.pushFloor getFloorNumber acc f)
                                <-> In n acc
                                    \/ ThreeScene.floorNumberOf getFloorNumber f = n).
    { unfold ThreeScene.pushFloor.
      destruct (existsb (Z.eqb (ThreeScene.floorNumberOf getFloorNumber f)) acc)
        eqn:E.
      - apply existsb_Zeqb in E. split; [exact Hnd | ].
        intros n. split; [auto | ]. intros [H | <-]; assumption.
      - split.
        + apply NoDup_app; [exact Hnd | repeat constructor; intros [] | ].
          intros x Hx [<- | []].
          apply existsb_Zeqb in Hx. congruence.
        + intros n. rewrite in_app_iff. simpl. tauto. }
    destruct Hnd' as [Hnd' Hin'].
    destruct (IH _ Hnd') as [Hres Hin]. split; [exact Hres | ].
    intros n. rewrite Hin, Hin'. split.
    + intros [[H | H] | (g & Hg & Eg)]; eauto.
    + intros [H | (g & [<- | Hg] & Eg)]; eauto.
Qed.

(** The effect either returns early or makes all its calls. *)
Lemma sceneSetupEffect_cases (selectedData : option ThreeScene.FileStructure)
    (containerReady rendererReady : bool) (st : ThreeScene.State) :
  ThreeScene.sceneSetupEffect getFloorNumber selectedData containerReady
    rendererReady st = []
  \/ exists d,
       selectedData = Some d
       /\ ThreeScene.originResolved st
       /\ ThreeScene.sceneSetupEffect getFloorNumber selectedData
            containerReady rendererReady st =
          ThreeScene.sceneSetupEffect getFloorNumber (Some d) true true st.
Proof.
  unfold ThreeScene.sceneSetupEffect at 1.
  destruct selectedData as [d | ]; [ | left; reflexivity].
  destruct containerReady; [ | left; reflexivity]. simpl negb. cbv iota.
  destruct (eqb (fst (ThreeScene.centerState st)) (Fin 0)
            && eqb (snd (ThreeScene.centerState st)) (Fin 0)) eqn:E;
    [left; reflexivity | ].
  destruct rendererReady; [ | left; reflexivity].
  right. exists d. split; [reflexivity | ]. split; [exact E | ].
  unfold ThreeScene.sceneSetupEffect. simpl negb. cbv iota. rewrite E.
  reflexivity.
Qed.

Lemma filter_geometry_loads (c : num * num) (files : list string) :
  filter (fun call => match call with
                      | ThreeScene.LoadAndAddToScene _ _ _ _ => true
                      | _ => false
                      end)
    (List.map
       (fun f => ThreeScene.LoadAndAddToScene f c
                   (ThreeScene.floorNumberOf getFloorNumber f)
                   (ThreeScene.depthOf f)) files) =
  List.map
    (fun f => ThreeScene.LoadAndAddToScene f c
                (ThreeScene.floorNumberOf getFloorNumber f)
                (ThreeScene.depthOf f)) files.
Proof.
  induction files as [ | f rest IH]; simpl; [reflexivity | ].
  rewrite IH. reflexivity.
Qed.

(** X18: every geometry file that the set-up effect loads lands on a floor
    that the GUI is given: the list handed to [loadGUI] has no duplicate
    and holds exactly the floor numbers of the files loaded, a file without
    a floor number counting as floor 0; every load carries the scene origin
    of the state and the depth of its file; and there is one load per
    geometry file of the descriptor, its path prefixed by the root path. *)
Theorem loaded_floors_are_listed :
  forall (selectedData : option ThreeScene.FileStructure)
         (containerReady rendererReady : bool) (st : ThreeScene.State)
         (floorList : list Z),
    let calls :=
      ThreeScene.sceneSetupEffect getFloorNumber selectedData containerReady
        rendererReady st in
    In (ThreeScene.LoadGUI floorList) calls ->
    NoDup floorList
    /\ (forall f c n depth,
          In (ThreeScene.LoadAndAddToScene f c n depth) calls ->
          In n floorList
          /\ n = (match getFloorNumber f with Some k => k | None => 0%Z end)
          /\ c = ThreeScene.centerState st
          /\ depth = ThreeScene.depthOf f)
    /\ (forall n,
          In n floorList ->
          exists f c depth,
            In (ThreeScene.LoadAndAddToScene f c n depth) calls)
    /\ (exists d,
          selectedData = Some d
          /\ List.map
               (fun f => ThreeScene.LoadAndAddToScene f
                           (ThreeScene.centerState st)
                           (ThreeScene.floorNumberOf getFloorNumber f)
                           (ThreeScene.depthOf f))
               (List.map (fun f => (ThreeScene.rootPath d ++ f)%string)
                         (ThreeScene.geoFiles d))
             = filter (fun c => match c with
                                | ThreeScene.LoadAndAddToScene _ _ _ _ => true
                                | _ => false
                                end) calls).
Proof.
  intros selectedData containerReady rendererReady st floorList calls Hgui.
  destruct (sceneSetupEffect_cases selectedData containerReady rendererReady st)
    as [E | (d & -> & Hres & E)].
  { unfold calls in Hgui. rewrite E in Hgui. destruct Hgui. }
  unfold calls in *. rewrite E in *. clear E.
  rewrite (sceneSetupEffect_proceeds getFloorNumber d st Hres) in *.
  set (geo := List.map
                (fun f => ThreeScene.LoadAndAddToScene f
                            (ThreeScene.centerState st)
                            (ThreeScene.floorNumberOf getFloorNumber f)
                            (ThreeScene.depthOf f))
                (ThreeScene.geoFilesOf d)) in *.
  set (fl := fold_left (ThreeScene.pushFloor getFloorNumber)
               (ThreeScene.geoFilesOf d) []) in *.
  assert (Hfl : floorList = fl).
  { apply in_app_or in Hgui. destruct Hgui as [H | H].
    - unfold geo in H. apply in_map_iff in H. destruct H as (f & Ef & _).
      discriminate.
    - destruct H as [H | H]; [injection H as <-; reflexivity | ].
      simpl in H. apply in_app_or in H. destruct H as [H | H].
      + revert H. destruct (ThreeScene.networkFileOf d) as [[node link] | ];
          simpl; intros H; [destruct H as [H | H]; [discriminate H | destruct H]
                           | destruct H].
      + revert H. destruct (truthy (ThreeScene.terrainFileOf d));
          simpl; intros H; [destruct H as [H | H]; [discriminate H | destruct H]
                           | destruct H]. }
  subst floorList.
  destruct (pushFloor_fold (ThreeScene.geoFilesOf d) [] (NoDup_nil Z))
    as [Hnd Hin]. fold fl in Hnd, Hin.
  assert (Hload : forall f c n depth,
            In (ThreeScene.LoadAndAddToScene f c n depth)
               (geo ++ [ThreeScene.LoadGUI fl]
                ++ (match ThreeScene.networkFileOf d with
                    | Some (node, link) =>
                        [ThreeScene.LoadNetworkFile node link
                           (ThreeScene.centerState st)]
                    | None => []
                    end)
                ++ (if truthy (ThreeScene.terrainFileOf d)
                    then [ThreeScene.LoadTerrainFile
                            (match ThreeScene.terrainFileOf d with
                             | Some t => t
                             | None => EmptyString
                             end) (ThreeScene.centerState st)]
                    else [])) ->
            In f (ThreeScene.geoFilesOf d)
            /\ n = ThreeScene.floorNumberOf getFloorNumber f
            /\ c = ThreeScene.centerState st
            /\ depth = ThreeScene.depthOf f).
  { intros f c n depth H. apply in_app_or in H. destruct H as [H | H].
    - unfold geo in H. apply in_map_iff in H. destruct H as (f' & Ef & Hf).
      injection Ef as <- <- <- <-. auto.
    - destruct H as [H | H]; [discriminate | ].
      simpl in H. apply in_app_or in H. destruct H as [H | H].
      + revert H. destruct (ThreeScene.networkFileOf d) as [[node link] | ];
          simpl; intros H; [destruct H as [H | H]; [discriminate H | destruct H]
                           | destruct H].
      + revert H. destruct (truthy (ThreeScene.terrainFileOf d));
          simpl; intros H; [destruct H as [H | H]; [discriminate H | destruct H]
                           | destruct H]. }
  split; [exact Hnd | ]. split; [ | split].
  - intros f c n depth H. destruct (Hload f c n depth H) as (Hf & -> & -> & ->).
    split; [ | auto]. apply Hin. right. exists f. auto.
  - intros n Hn. apply Hin in Hn. destruct Hn as [[] | (f & Hf & <-)].
    exists f, (ThreeScene.centerState st), (ThreeScene.depthOf f).
    apply in_or_app. left. unfold geo.
    apply (in_map
             (fun f0 =>
                ThreeScene.LoadAndAddToScene f0 (ThreeScene.centerState st)
                  (ThreeScene.floorNumberOf getFloorNumber f0)
                  (ThreeScene.depthOf f0))).
    exact Hf.
  - exists d. split; [reflexivity | ].
    rewrite !filter_app. fold (ThreeScene.geoFilesOf d). fold geo.
    assert (Hgeo : filter
                     (fun c => match c with
                               | ThreeScene.LoadAndAddToScene _ _ _ _ => true
                               | _ => false
                               end) geo = geo).
    { unfold geo. apply filter_geometry_loads. }
    rewrite Hgeo. simpl.
    destruct (ThreeScene.networkFileOf d) as [[node link] | ];
      destruct (truthy (ThreeScene.terrainFileOf d)); simpl;
      rewrite app_nil_r; reflexivity.
Qed.

End SetupCalls.

Lemma loaded_floors_are_listed_witness :
  let st :=
    ThreeScene.setCenter (Fin 1, Fin 2)
      (ThreeScene.initialState ThreeScene.NagoyaUnimall) in
  NoDup [0%Z]
  /\ In (ThreeScene.LoadGUI [0%Z])
        (ThreeScene.sceneSetupEffect (fun _ => None)
           (Some ThreeScene.NagoyaUnimall) true true st).
Proof.
  intros st.
  assert (Hres : ThreeScene.originResolved st).
  { unfold ThreeScene.originResolved, st. simpl.
    destruct (Req_dec_T 1 0) as [E | _]; [lra | reflexivity]. }
  assert (Hin : In (ThreeScene.LoadGUI [0%Z])
                   (ThreeScene.sceneSetupEffect (fun _ => None)
                      (Some ThreeScene.NagoyaUnimall) true true st)).
  { rewrite (sceneSetupEffect_proceeds _ _ _ Hres).
    apply in_or_app. right. left. reflexivity. }
  split; [ | exact Hin].
  apply (loaded_floors_are_listed (fun _ => None)
           (Some ThreeScene.NagoyaUnimall) true true st [0%Z] Hin).
Defined.

(** ** ThreeScene: the depth of a geometry file *)

Section Depth.

Lemma length_append (a b : string) :
  String.length (a ++ b) = (String.length a + String.length b)%nat.
Proof. induction a as [ | c a IH]; simpl; [reflexivity | rewrite IH; reflexivity]. Qed.

Lemma substring_whole (s : string) : substring 0 (String.length s) s = s.
Proof. induction s as [ | c s IH]; simpl; [reflexivity | rewrite IH; reflexivity]. Qed.

Lemma substring_after (pre s : string) (m : nat) :
  substring (String.length pre) m (pre ++ s) = substring 0 m s.
Proof. induction pre as [ | c pre IH]; simpl; [reflexivity | exact IH]. Qed.

Lemma split_at (n : nat) :
  forall s : string,
    (n <= String.length s)%nat ->
    exists pre : string,
      s = (pre ++ substring n (String.length s - n) s)%string.
Proof.
  induction n as [ | n IH]; intros s Hn.
  - exists EmptyString. rewrite Nat.sub_0_r, substring_whole. reflexivity.
  - destruct s as [ | c s]; simpl in Hn; [lia | ].
    destruct (IH s) as (pre & E); [lia | ].
    exists (String c pre). simpl. rewrite <- E. reflexivity.
Qed.

(** [s.endsWith(suffix)] holds exactly of the strings that are a prefix
    followed by the suffix. *)
Lemma endsWith_iff (s suffix : string) :
  ThreeScene.endsWith s suffix = true <->
  exists pre : string, s = (pre ++ suffix)%string.
Proof.
  unfold ThreeScene.endsWith. rewrite andb_true_iff, Nat.leb_le, String.eqb_eq.
  split.
  - intros [Hk E].
    destruct (split_at (String.length s - String.length suffix) s) as (pre & Es);
      [lia | ].
    replace (String.length s - (String.length s - String.length suffix))%nat
      with (String.length suffix) in Es by lia.
    rewrite E in Es. exists pre. exact Es.
  - intros (pre & ->). rewrite length_append. split; [lia | ].
    replace (String.length pre + String.length suffix - String.length suffix)%nat
      with (String.length pre) by lia.
    rewrite substring_after. apply substring_whole.
Qed.

(** X19: a geometry file is given the shallow depth 0.5 exactly when its
    path ends in "_Floor.geojson", and the depth 7 otherwise; a file such
    as "..._Floor_Connect.geojson" is therefore deep. *)
Theorem shallow_depth_for_floor_files :
  forall f : string,
    (ThreeScene.depthOf f = Fin 0.5 <->
     exists pre : string, f = (pre ++ "_Floor.geojson")%string)
    /\ (ThreeScene.depthOf f = Fin 7 <->
        ~ exists pre : string, f = (pre ++ "_Floor.geojson")%string).
Proof.
  intros f. unfold ThreeScene.depthOf.
  destruct (ThreeScene.endsWith f "_Floor.geojson") eqn:E.
  - apply endsWith_iff in E. split; split; intros H; auto.
    + injection H as H. lra.
    + contradiction.
  - assert (Hno : ~ exists pre : string, f = (pre ++ "_Floor.geojson")%string).
    { intros H. apply endsWith_iff in H. congruence. }
    split; split; intros H; auto.
    + injection H as H. lra.
    + contradiction.
Qed.

End Depth.

(** ** ThreeScene: the render and the two effects together *)

Section RenderAndEffects.

Variable calculateCenterPoint : list string -> num * num.
Variable getFloorNumber : string -> option Z.

(** X20: for a place without a descriptor the component does not get to
    its "no data" message: evaluating [geoFiles.length] on the undefined
    list raises during the render; whenever the render returns, a
    descriptor was found, the container is shown, and the counter and the
    total are the number of geometry files, plus one for a network pair,
    plus one for a terrain file. *)
Theorem render_needs_descriptor :
  Render.render None = Render.TypeError
  /\ forall (selectedData : option ThreeScene.FileStructure)
            (out : Render.Output),
       Render.render selectedData = Render.Returned out ->
       Render.view out = Render.SceneContainer
       /\ exists d : ThreeScene.FileStructure,
            selectedData = Some d
            /\ Render.reference out = ThreeScene.source d
            /\ Render.totalFileCount out = ThreeScene.totalFileCount d
            /\ Render.loadFileRemaining out =
               ThreeScene.loadFileRemaining (ThreeScene.initialState d).
Proof.
  split; [reflexivity | ].
  intros [d | ] out E; [ | discriminate].
  unfold Render.render in E. simpl in E. injection E as <-.
  split; [reflexivity | ]. exists d. repeat split.
Qed.

(** X21: for a descriptor with a declared centre that is not (0, 0), the
    two effects run from the first render start exactly as many load
    operations as the counter was initialised to, and every one of them
    carries the declared centre. *)
Theorem declared_center_starts_counted_loads :
  forall (d : ThreeScene.FileStructure) (c : num * num),
    ThreeScene.center d = Some c ->
    fst c <> Fin 0 \/ snd c <> Fin 0 ->
    let st := fst (ThreeScene.resolveCenterEffect calculateCenterPoint
                     (Some d) (ThreeScene.initialState d)) in
    let calls := ThreeScene.sceneSetupEffect getFloorNumber (Some d) true true st in
    Z.of_nat (List.length (filter ThreeScene.isLoad calls)) =
      ThreeScene.loadFileRemaining st
    /\ forall call, In call calls ->
         match call with
         | ThreeScene.LoadAndAddToScene _ c' _ _ => c' = c
         | ThreeScene.LoadNetworkFile _ _ c' => c' = c
         | ThreeScene.LoadTerrainFile _ c' => c' = c
         | _ => True
         end.
Proof.
  intros d c Ec Hnz st calls.
  assert (Est : st = ThreeScene.setCenter c (ThreeScene.initialState d)).
  { unfold st, ThreeScene.resolveCenterEffect. rewrite Ec. reflexivity. }
  assert (Hres : ThreeScene.originResolved st).
  { unfold ThreeScene.originResolved. rewrite Est. simpl.
    apply andb_false_iff.
    destruct Hnz as [H | H]; [left | right];
      apply not_true_is_false; intros E; apply eqb_zero in E; contradiction. }
  split.
  - unfold calls. rewrite (started_loads_count getFloorNumber d st Hres).
    rewrite Est. reflexivity.
  - intros call Hin. unfold calls in Hin.
    rewrite (sceneSetupEffect_proceeds getFloorNumber d st Hres) in Hin.
    assert (Hc : ThreeScene.centerState st = c) by (rewrite Est; reflexivity).
    rewrite Hc in Hin.
    apply in_app_or in Hin. destruct Hin as [H | H].
    + apply in_map_iff in H. destruct H as (f & <- & _). reflexivity.
    + destruct H as [<- | H]; [exact I | ].
      simpl in H. apply in_app_or in H. destruct H as [H | H].
      * revert H. destruct (ThreeScene.networkFileOf d) as [[node link] | ];
          simpl; intros H; [destruct H as [<- | H]; [reflexivity | destruct H]
                           | destruct H].
      * revert H. destruct (truthy (ThreeScene.terrainFileOf d));
          simpl; intros H; [destruct H as [<- | H]; [reflexivity | destruct H]
                           | destruct H].
Qed.

End RenderAndEffects.

Lemma render_needs_descriptor_witness :
  Render.view
    {| Render.reference := ThreeScene.source ThreeScene.NagoyaUnimall;
       Render.loadFileRemaining := 13;
       Render.totalFileCount := 13;
       Render.view := Render.SceneContainer |} = Render.SceneContainer
  /\ Render.render (Some ThreeScene.NagoyaUnimall) =
     Render.Returned
       {| Render.reference := ThreeScene.source ThreeScene.NagoyaUnimall;
          Render.loadFileRemaining := 13;
          Render.totalFileCount := 13;
          Render.view := Render.SceneContainer |}.
Proof.
  assert (E : Render.render (Some ThreeScene.NagoyaUnimall) =
              Render.Returned
                {| Render.reference := ThreeScene.source ThreeScene.NagoyaUnimall;
                   Render.loadFileRemaining := 13;
                   Render.totalFileCount := 13;
                   Render.view := Render.SceneContainer |}) by reflexivity.
  split; [ | exact E].
  apply (proj2 render_needs_descriptor (Some ThreeScene.NagoyaUnimall) _ E).
Defined.

Lemma declared_center_starts_counted_loads_witness :
  let st := fst (ThreeScene.resolveCenterEffect (fun _ => (Fin 0, Fin 0))
                   (Some ThreeScene.NagoyaUnimall)
                   (ThreeScene.initialState ThreeScene.NagoyaUnimall)) in
  Z.of_nat
    (List.length
       (filter ThreeScene.isLoad
          (ThreeScene.sceneSetupEffect (fun _ => None)
             (Some ThreeScene.NagoyaUnimall) true true st))) = 13%Z.
Proof.
  refine (proj1 (declared_center_starts_counted_loads
                   (fun _ => (Fin 0, Fin 0)) (fun _ => None)
                   ThreeScene.NagoyaUnimall
                   (Fin (-268478.06882765563), Fin (-87917.488896069)) _ _)).
  - reflexivity.
  - left. intros E. injection E as E. lra.
Defined.

(** ** loadAerialImagery.ts: a position without a number *)

Section Poisoned.

Variable center : num * num.

Lemma min_NaN_r (a : num) : min a NaN = NaN.
Proof. destruct a; reflexivity. Qed.

Lemma max_NaN_r (a : num) : max a NaN = NaN.
Proof. destruct a; reflexivity. Qed.

Lemma scan_keeps_NaN (points : list (list num)) :
  forall b : PlanarBounds,
    minX b = NaN -> maxX b = NaN ->
    minX (fold_left (scanPoint center) points b) = NaN
    /\ maxX (fold_left (scanPoint center) points b) = NaN.
Proof.
  induction points as [ | p rest IH]; intros b Hmin Hmax; simpl; [auto | ].
  apply IH; unfold scanPoint; simpl; [rewrite Hmin | rewrite Hmax]; reflexivity.
Qed.

Lemma scan_poisoned (points : list (list num)) :
  forall b : PlanarBounds,
    (exists point, In point points /\ fst (recentre center point) = NaN) ->
    minX (fold_left (scanPoint center) points b) = NaN
    /\ maxX (fold_left (scanPoint center) points b) = NaN.
Proof.
  induction points as [ | p rest IH]; intros b (point & Hin & Hnan).
  - destruct Hin.
  - simpl. destruct Hin as [-> | Hin].
    + apply scan_keeps_NaN; unfold scanPoint; simpl;
        unfold recentre in Hnan; simpl in Hnan; rewrite Hnan;
        [apply min_NaN_r | apply max_NaN_r].
    + apply IH. exists point. auto.
Qed.

(** X22: the scan never recovers from a position whose first coordinate is
    not a number, an empty position say: whatever else is scanned, minX and
    maxX end as NaN, and then so do the width of the plane and, for every
    anchor and image size, the zoom level. *)
Theorem scan_is_poisoned_by_NaN :
  forall (features : FeatureCollection),
    Forall hasRing features ->
    (exists point,
       In point (scannedPoints features)
       /\ fst (recentre center point) = NaN) ->
    exists b : PlanarBounds,
      scanFeatures center features initialBounds = Some b
      /\ minX b = NaN /\ maxX b = NaN
      /\ (forall texture opacity,
            planeWidth (planeFor b texture opacity) = NaN)
      /\ (forall lat0 lon0 width height,
            calculateZoomLevel
              (calculateLatLonBounds (minX b) (maxX b) (minY b) (maxY b)
                 lat0 lon0)
              width height = NaN).
Proof.
  intros features Hring Hpoint.
  rewrite (scanFeatures_fold center features _ Hring).
  destruct (scan_poisoned (scannedPoints features) initialBounds Hpoint)
    as [Hmin Hmax].
  eexists. split; [reflexivity | ]. split; [exact Hmin | ].
  split; [exact Hmax | ]. split.
  - intros texture opacity. unfold planeFor. cbn [planeWidth].
    rewrite Hmax. reflexivity.
  - intros lat0 lon0 width height.
    unfold calculateZoomLevel, lonDiff, latDiff, calculateLatLonBounds,
      transformToLatLon.
    cbn [lat lon southwest northeast]. rewrite Hmin, Hmax.
    assert (E : forall a, add a (div NaN meterPerDegreeLon) = NaN)
      by (intros a; destruct a; reflexivity).
    rewrite E. cbn [sub abs div log2].
    match goal with
    | |- max _ (min _ (floor (min ?x _))) = NaN =>
        destruct x; reflexivity
    end.
Qed.

End Poisoned.

Lemma scan_is_poisoned_by_NaN_witness :
  exists b : PlanarBounds,
    scanFeatures (Fin 0, Fin 0)
      [ {| coordinates := [ [ [Fin 1; Fin 1]; []; [Fin 2; Fin 2] ] ] |} ]
      initialBounds = Some b
    /\ minX b = NaN.
Proof.
  destruct (scan_is_poisoned_by_NaN (Fin 0, Fin 0)
              [ {| coordinates := [ [ [Fin 1; Fin 1]; []; [Fin 2; Fin 2] ] ] |} ])
    as (b & E & Hmin & _).
  - repeat constructor; discriminate.
  - exists []. split; [simpl; auto | reflexivity].
  - exists b. split; assumption.
Defined.
